(** * FPL Team Analyzer: a model of [data_loader.py] and [00_fpl.py]

    The development follows the two source files.  Tables are pandas
    data frames, modelled column-major (a list of named columns over a
    shared row count); Python exceptions are values of [exn] carried by a
    small writer-and-error monad [M] whose log records every network call
    and every Streamlit call in program order.

    Two services of the libraries are taken as an interface ([Library]):
    numpy's [argsort] (the call sites pass no [kind], so pandas uses
    'quicksort', for which only "sorted permutation" is documented) and the
    date-time parser behind [pd.to_datetime]. *)

From Stdlib Require Import ZArith List String Ascii Sorted Permutation Lia.
From stdpp Require Import base decidable countable gmap strings list sorting pretty.

Open Scope string_scope.
Open Scope Z_scope.
Open Scope list_scope.

(** ** Cell values

    The scalars a JSON row of the upstream API holds (null, integer,
    string) and the time stamps [pd.to_datetime] produces.  [VNull] stands
    for [None], [NaN] and [NaT] alike ([isna] is true of the three). *)
Inductive value : Type :=
| VNull
| VInt (n : Z)
| VStr (s : string)
| VTime (t : Z).

#[global] Instance value_eq_dec : EqDecision value.
Proof. solve_decision. Defined.

Definition value_to_sum (v : value) : unit + (Z + (string + Z)) :=
  match v with
  | VNull => inl tt
  | VInt n => inr (inl n)
  | VStr s => inr (inr (inl s))
  | VTime t => inr (inr (inr t))
  end.

Definition value_of_sum (x : unit + (Z + (string + Z))) : value :=
  match x with
  | inl _ => VNull
  | inr (inl n) => VInt n
  | inr (inr (inl s)) => VStr s
  | inr (inr (inr t)) => VTime t
  end.

#[global] Instance value_countable : Countable value.
Proof.
  apply (inj_countable' value_to_sum value_of_sum).
  by intros [].
Defined.

Definition isna (v : value) : bool :=
  match v with VNull => true | _ => false end.

(** Python's [<=] on two cells of the same kind; across kinds Python raises
    [TypeError], which [comparableb] detects before any comparison is made. *)
Definition value_leb (a b : value) : bool :=
  match a, b with
  | VInt x, VInt y => (x <=? y)%Z
  | VTime x, VTime y => (x <=? y)%Z
  | VStr x, VStr y => String.leb x y
  | _, _ => true
  end.

Definition same_kind (a b : value) : bool :=
  match a, b with
  | VInt _, VInt _ | VTime _, VTime _ | VStr _, VStr _ => true
  | _, _ => false
  end.

(** A key array can be sorted when its cells are non-null and of one kind. *)
Definition comparableb (keys : list value) : bool :=
  match keys with
  | [] => true
  | k :: _ => forallb (same_kind k) keys
  end.

(** ** Exceptions *)
Inductive exn : Type :=
| HTTPError (msg : string)
| ConnectionError (msg : string)
| JSONDecodeError (msg : string)
| KeyError (key : string)
| TypeError (msg : string)
| ValueError (msg : string)
| RuntimeError (msg : string) (cause : exn)
| StopException.

(** [str(err)], as interpolated by the f-strings of the loader. *)
Definition exn_str (e : exn) : string :=
  match e with
  | HTTPError m | ConnectionError m | JSONDecodeError m
  | TypeError m | ValueError m | RuntimeError m _ => m
  | KeyError k => "'" +:+ k +:+ "'"
  | StopException => ""
  end.

Definition is_http_error (e : exn) : bool :=
  match e with HTTPError _ => true | _ => false end.

Definition is_runtime_error (e : exn) : bool :=
  match e with RuntimeError _ _ => true | _ => false end.

Definition result (A : Type) : Type := exn + A.

Definition rbind {A B} (r : result A) (f : A -> result B) : result B :=
  match r with
  | inl e => inl e
  | inr a => f a
  end.

(** ** The library interface *)
Class Library : Type := {
  (** [numpy.argsort(keys, kind='quicksort')]: the positions of [keys] in
      ascending key order. *)
  np_argsort : list value -> list nat;
  (** the parser of one time-stamp string; [None] when it cannot be read *)
  parse_datetime : string -> option Z
}.

(** What numpy documents for every [kind]: the indexer is a permutation of
    the positions and reads the keys in ascending order.  Stability is
    documented for 'mergesort' and 'stable' only. *)
Definition argsort_contract (L : Library) : Prop :=
  forall keys : list value,
    comparableb keys = true ->
    Permutation (np_argsort keys) (seq 0 (length keys)) /\
    Sorted (fun a b => value_leb a b = true)
           (map (fun i => nth i keys VNull) (np_argsort keys)).

(** ** Data frames *)
Module Pandas.

Record DataFrame : Type := mkDF {
  nrows : nat;
  cols : list (string * list value)
}.

Definition columns (df : DataFrame) : list string := map fst (cols df).

(** [col in df.columns] *)
Definition has_column (c : string) (df : DataFrame) : bool :=
  bool_decide (c ∈ columns df).

(** [pd.DataFrame()] *)
Definition empty_frame : DataFrame := mkDF 0 [].

(** [df.empty]: some axis has length zero *)
Definition empty (df : DataFrame) : bool :=
  (nrows df =? 0)%nat || (length (cols df) =? 0)%nat.

Fixpoint assoc {A} (c : string) (l : list (string * A)) : option A :=
  match l with
  | [] => None
  | (k, v) :: l' => if String.eqb k c then Some v else assoc c l'
  end.

Fixpoint assoc_value {A} (k : value) (l : list (value * A)) : option A :=
  match l with
  | [] => None
  | (k', v) :: l' => if decide (k' = k) then Some v else assoc_value k l'
  end.

(** [df[c]] for one label *)
Definition get_column (c : string) (df : DataFrame) : result (list value) :=
  match assoc c (cols df) with
  | Some s => inr s
  | None => inl (KeyError c)
  end.

Fixpoint replace_column (c : string) (s : list value)
    (l : list (string * list value)) : list (string * list value) :=
  match l with
  | [] => []
  | (k, v) :: l' =>
      if String.eqb k c then (k, s) :: replace_column c s l'
      else (k, v) :: replace_column c s l'
  end.

(** [df[c] = s]: overwrite the column when the label exists, else append *)
Definition set_column (c : string) (s : list value) (df : DataFrame) : DataFrame :=
  if has_column c df then mkDF (nrows df) (replace_column c s (cols df))
  else mkDF (nrows df) (cols df ++ [(c, s)]).

(** [df[c] = scalar] *)
Definition set_scalar (c : string) (v : value) (df : DataFrame) : DataFrame :=
  set_column c (repeat v (nrows df)) df.

(** [df.drop(labels, axis=1)]: a label that is not a column is a [KeyError] *)
Definition drop (labels : list string) (df : DataFrame) : result DataFrame :=
  match filter (fun c => negb (has_column c df)) labels with
  | c :: _ => inl (KeyError c)
  | [] =>
      inr (mkDF (nrows df)
             (filter (fun kv => negb (bool_decide (fst kv ∈ labels))) (cols df)))
  end.

(** [df[labels]]: every column carrying each label, in the order of
    [labels]; a label that is not a column is a [KeyError] *)
Definition select (labels : list string) (df : DataFrame) : result DataFrame :=
  match filter (fun c => negb (has_column c df)) labels with
  | c :: _ => inl (KeyError c)
  | [] =>
      inr (mkDF (nrows df)
             (concat (map (fun c => filter (fun kv => String.eqb (fst kv) c) (cols df))
                          labels)))
  end.

(** [df.rename(columns=mapping)] *)
Definition rename (mapping : list (string * string)) (df : DataFrame) : DataFrame :=
  mkDF (nrows df)
       (map (fun kv => (default (fst kv) (assoc (fst kv) mapping), snd kv)) (cols df)).

(** [df.take(indexer)] *)
Definition take (indexer : list nat) (df : DataFrame) : DataFrame :=
  mkDF (length indexer)
       (map (fun kv => (fst kv, map (fun i => nth i (snd kv) VNull) indexer)) (cols df)).

(** [df.head(n)] *)
Definition head (n : nat) (df : DataFrame) : DataFrame :=
  mkDF (Nat.min n (nrows df)) (map (fun kv => (fst kv, firstn n (snd kv))) (cols df)).

(** Row [i] of the frame, cell by cell in column order. *)
Definition row (df : DataFrame) (i : nat) : list value :=
  map (fun kv => nth i (snd kv) VNull) (cols df).

Definition rows (df : DataFrame) : list (list value) :=
  map (row df) (seq 0 (nrows df)).

(** Frames built by the constructors below keep labels distinct and every
    column as long as the index. *)
Definition wf (df : DataFrame) : Prop :=
  NoDup (columns df) /\ Forall (fun kv => length (snd kv) = nrows df) (cols df).

(** *** Building a frame from JSON rows *)

(** One JSON object of scalars, as the list of its items. *)
Definition json_row : Type := list (string * value).

(** The distinct elements in order of first appearance. *)
Fixpoint unique {A} `{EqDecision A} (l : list A) : list A :=
  match l with
  | [] => []
  | x :: l' => x :: filter (fun y => y <> x) (unique l')
  end.

(** [pd.json_normalize(records)] on flat records: one row per record, one
    column per key met, [NaN] where a record lacks the key. *)
Definition json_normalize (records : list json_row) : DataFrame :=
  mkDF (length records)
       (map (fun c => (c, map (fun r => default VNull (assoc c r)) records))
            (unique (concat (map (map fst) records)))).

(** *** Series operations *)

(** [series.map(mapping)] with a dict: a cell that is no key becomes [NaN] *)
Definition series_map (mapping : gmap value value) (s : list value) : list value :=
  map (fun v => default VNull (mapping !! v)) s.

(** [series.fillna(v)] *)
Definition fillna (v : value) (s : list value) : list value :=
  map (fun x => if isna x then v else x) s.

(** [series.astype(int)] *)
Definition astype_int (s : list value) : result (list value) :=
  if forallb (fun x => match x with VInt _ => true | _ => false end) s
  then inr s
  else inl (ValueError "cannot convert to integer").

(** How many cells of [s] equal [v]. *)
Definition occurrences (v : value) (s : list value) : nat :=
  length (filter (fun x => x = v) s).

Inductive errors_mode : Type := errors_raise | errors_coerce.

Section WithLibrary.
Context {L : Library}.

(** One cell of [pd.to_datetime]: nulls stay null, integers are epoch
    offsets, strings go through the parser. *)
Definition to_datetime_cell (errors : errors_mode) (v : value) : result value :=
  match v with
  | VNull => inr VNull
  | VTime t => inr (VTime t)
  | VInt n => inr (VTime n)
  | VStr s =>
      match parse_datetime s with
      | Some t => inr (VTime t)
      | None =>
          match errors with
          | errors_coerce => inr VNull
          | errors_raise => inl (ValueError ("Unknown datetime string format, unable to parse: " +:+ s))
          end
      end
  end.

(** [pd.to_datetime(series, errors=...)]; the default is [errors_raise] *)
Fixpoint to_datetime (errors : errors_mode) (s : list value) : result (list value) :=
  match s with
  | [] => inr []
  | v :: s' =>
      rbind (to_datetime_cell errors v) (fun v' =>
      rbind (to_datetime errors s') (fun r => inr (v' :: r)))
  end.

(** pandas' [nargsort] with [na_position='last']: the non-null keys are
    sorted by [np_argsort] (for a descending sort the keys are reversed
    before and the indexer after), the null positions follow in their
    original order. *)
Definition nargsort (ascending : bool) (items : list value) : result (list nat) :=
  let idx := seq 0 (length items) in
  let non_nan_idx := filter (fun i => negb (isna (nth i items VNull))) idx in
  let nan_idx := filter (fun i => isna (nth i items VNull)) idx in
  let non_nan_idx := if ascending then non_nan_idx else rev non_nan_idx in
  let non_nans := map (fun i => nth i items VNull) non_nan_idx in
  if comparableb non_nans then
    let indexer := map (fun i => nth i non_nan_idx 0%nat) (np_argsort non_nans) in
    let indexer := if ascending then indexer else rev indexer in
    inr (indexer ++ nan_idx)
  else inl (TypeError "'<' not supported between instances").

(** [df.sort_values(by=label, ascending=...).reset_index(drop=True)] with
    the default [kind]. *)
Definition sort_values (label : string) (ascending : bool) (df : DataFrame)
    : result DataFrame :=
  match filter (fun kv => String.eqb (fst kv) label) (cols df) with
  | [] => inl (KeyError label)
  | [(_, keys)] =>
      rbind (nargsort ascending keys) (fun indexer => inr (take indexer df))
  | _ => inl (ValueError ("The column label '" +:+ label +:+ "' is not unique."))
  end.

(** [series.value_counts().reset_index()] with the two columns renamed:
    the distinct non-null cells with their counts, by count descending. *)
Definition value_counts (key_label count_label : string) (s : list value)
    : result DataFrame :=
  let keys := unique (filter (fun v => negb (isna v)) s) in
  let counts := map (fun k => VInt (Z.of_nat (occurrences k s))) keys in
  rbind (nargsort false counts) (fun indexer =>
  inr (take indexer (mkDF (length keys) [(key_label, keys); (count_label, counts)]))).

(** The cell of column [c] in the row of [df] whose [key_label] cell is
    [k]; [NaN] when there is no such row or column. *)
Definition lookup_by_key (key_label c : string) (k : value) (df : DataFrame) : value :=
  match assoc key_label (cols df), assoc c (cols df) with
  | Some ks, Some vs => default VNull (assoc_value k (combine ks vs))
  | _, _ => VNull
  end.

(** [pd.merge(left, right, on=key_label, how='outer')] for two frames of
    one value column each whose keys are distinct: the union of the keys,
    sorted when they can be compared, and [NaN] for the side that lacks a
    key. *)
Definition merge_outer (key_label left_label right_label : string)
    (left right : DataFrame) : DataFrame :=
  let lk := default [] (assoc key_label (cols left)) in
  let rk := default [] (assoc key_label (cols right)) in
  let keys := lk ++ filter (fun k => k ∉ lk) rk in
  let keys :=
    match nargsort true keys with
    | inr indexer => map (fun i => nth i keys VNull) indexer
    | inl _ => keys
    end in
  mkDF (length keys)
       [(key_label, keys);
        (left_label, map (fun k => lookup_by_key key_label left_label k left) keys);
        (right_label, map (fun k => lookup_by_key key_label right_label k right) keys)].

(** [df.groupby(label).size()]: the number of rows per non-null key. *)
Definition groupby_size (s : list value) : gmap value nat :=
  list_to_map (map (fun k => (k, occurrences k s))
                   (unique (filter (fun v => negb (isna v)) s))).

End WithLibrary.

End Pandas.

Import Pandas.

(** ** The upstream API

    What one GET can come back with: no response at all (a network
    failure inside [requests.get]), or a status line with a body that
    either decodes to JSON of the endpoint's shape or does not decode. *)
Inductive http_outcome (J : Type) : Type :=
| NoResponse (msg : string)
| Response (status_code : Z) (reason : string) (body : option J).
Arguments NoResponse {J} msg.
Arguments Response {J} status_code reason body.

(** bootstrap-static: an object that may hold the [elements] array *)
Record bootstrap_json : Type := {
  elements : option (list json_row)
}.

(** one entry of [past]: an object that may hold a nested [history] array *)
Record season_json : Type := {
  season_history : option (list json_row)
}.

(** entry/{id}/history: an object that may hold [current] and [past] *)
Record history_json : Type := {
  current : option (list json_row);
  past : option (list season_json)
}.

Record Upstream : Type := {
  players_endpoint : http_outcome bootstrap_json;
  transfers_endpoint : string -> http_outcome (list json_row);
  history_endpoint : string -> http_outcome history_json
}.

(** ** Effects *)
Inductive figure : Type :=
| px_line (title x y : string) (data : DataFrame) (reversed_y : bool)
| px_bar_counts (title : string) (data : gmap value nat)
| px_bar_grouped (title : string) (data : DataFrame).

Inductive event : Type :=
| requests_get (url : string)
| st_set_page_config
| st_title (text : string)
| st_write (text : string)
| st_text_input (label : string)
| st_spinner (text : string)
| st_error (e : exn)
| st_warning (text : string) (missing : gset string)
| st_info (text : string)
| st_tabs (labels : list string)
| with_tab (n : nat)
| st_header (text : string)
| st_subheader (text : string)
| st_dataframe (df : DataFrame)
| st_plotly_chart (fig : figure)
| st_download_button (label : string) (data : DataFrame) (file_name : string)
| st_divider
| donate_message.  (* the call of [func.utils.donate_message], whose body is
                      not part of the two files modelled here *)

(** A computation logs its events and ends in a value or an exception. *)
Definition M (A : Type) : Type := list event * result A.

Definition ret {A} (a : A) : M A := ([], inr a).

Definition bind {A B} (m : M A) (f : A -> M B) : M B :=
  match m with
  | (log, inl e) => (log, inl e)
  | (log, inr a) => let '(log', r) := f a in (log ++ log', r)
  end.

Definition raise {A} (e : exn) : M A := ([], inl e).

Definition emit (ev : event) : M unit := ([ev], inr tt).

Definition lift {A} (r : result A) : M A := ([], r).

(** [try: body except ...: handler]; a handler that answers [None] lets the
    exception pass *)
Definition try_except {A} (body : M A) (handler : exn -> option (M A)) : M A :=
  match body with
  | (log, inl e) =>
      match handler e with
      | Some h => let '(log', r) := h in (log ++ log', r)
      | None => (log, inl e)
      end
  | (log, inr a) => (log, inr a)
  end.

#[global] Instance M_ret : MRet M := @ret.
#[global] Instance M_bind : MBind M := fun A B f m => bind m f.

Definition trace {A} (m : M A) : list event := fst m.
Definition outcome {A} (m : M A) : result A := snd m.

(** ** data_loader.py *)
Module DataLoader.

Section WithLibrary.
Context {L : Library}.

(** [requests.get(url)] *)
Definition get {J} (url : string) (o : http_outcome J) : M (Z * string * option J) :=
  emit (requests_get url) ;;
  match o with
  | NoResponse msg => raise (ConnectionError msg)
  | Response status reason body => ret (status, reason, body)
  end.

(** [response.raise_for_status()] *)
Definition raise_for_status {J} (url : string) (response : Z * string * option J)
    : M unit :=
  let '(status, reason, _) := response in
  if (400 <=? status) && (status <? 500) then
    raise (HTTPError (pretty status +:+ " Client Error: " +:+ reason +:+ " for url: " +:+ url))
  else if (500 <=? status) && (status <? 600) then
    raise (HTTPError (pretty status +:+ " Server Error: " +:+ reason +:+ " for url: " +:+ url))
  else ret tt.

(** [response.json()] *)
Definition json {J} (response : Z * string * option J) : M J :=
  match response with
  | (_, _, Some j) => ret j
  | (_, _, None) => raise (JSONDecodeError "Expecting value: line 1 column 1 (char 0)")
  end.

(** The two [except] clauses every fetch ends with. *)
Definition wrap_errors {A} (what : string) (err : exn) : option (M A) :=
  if is_http_error err then
    Some (raise (RuntimeError ("HTTP error occurred while fetching " +:+ what +:+ ": "
                               +:+ exn_str err) err))
  else
    Some (raise (RuntimeError ("Other error occurred while fetching " +:+ what +:+ ": "
                               +:+ exn_str err) err)).

Definition players_url : string :=
  "https://fantasy.premierleague.com/api/bootstrap-static/".

(** [{player['id']: player['web_name'] for player in players}] *)
Fixpoint player_dict (players : list json_row) (acc : gmap value value)
    : result (gmap value value) :=
  match players with
  | [] => inr acc
  | player :: rest =>
      match assoc "id" player with
      | None => inl (KeyError "id")
      | Some id =>
          match assoc "web_name" player with
          | None => inl (KeyError "web_name")
          | Some name => player_dict rest (<[id:=name]> acc)
          end
      end
  end.

Definition fetch_players (up : Upstream) : M (gmap value value) :=
  try_except
    (response ← get players_url (players_endpoint up);
     raise_for_status players_url response ;;
     players_data ← json response;
     players ← lift (match elements players_data with
                     | Some l => inr l
                     | None => inl (KeyError "elements")
                     end);
     player_id_to_name ← lift (player_dict players ∅);
     ret player_id_to_name)
    (wrap_errors "players").

Definition transfers_url (TID : string) : string :=
  "https://fantasy.premierleague.com/api/entry/" +:+ TID +:+ "/transfers/".

Definition fetch_transfers (up : Upstream) (TID : string) : M DataFrame :=
  try_except
    (response ← get (transfers_url TID) (transfers_endpoint up TID);
     raise_for_status (transfers_url TID) response ;;
     transfers_data ← json response;
     let df_transfers := json_normalize transfers_data in
     df_transfers ←
       (if has_column "time" df_transfers then
          time ← lift (get_column "time" df_transfers);
          time ← lift (to_datetime errors_raise time);
          ret (set_column "time" time df_transfers)
        else
          ret (set_scalar "time" VNull df_transfers));
     ret df_transfers)
    (wrap_errors "transfers").

Definition history_url (TID : string) : string :=
  "https://fantasy.premierleague.com/api/entry/" +:+ TID +:+ "/history/".

(** The rows gathered in [all_history]. *)
Definition all_history (history_data : history_json) : list json_row :=
  let current_history := default [] (current history_data) in
  let past_history := default [] (past history_data) in
  current_history
    ++ concat (map (fun season => default [] (season_history season)) past_history).

Definition fetch_history (up : Upstream) (TID : string) : M DataFrame :=
  try_except
    (response ← get (history_url TID) (history_endpoint up TID);
     raise_for_status (history_url TID) response ;;
     history_data ← json response;
     let all_history := all_history history_data in
     match all_history with
     | [] => ret empty_frame
     | _ => ret (json_normalize all_history)
     end)
    (wrap_errors "history").

End WithLibrary.

End DataLoader.

Import DataLoader.

(** ** 00_fpl.py *)
Module App.

(** [str.isdigit()].  A string of the model is a sequence of code points
    below 256; among these Python counts as digits the ten decimal digits
    and the superscripts two, three and one (U+00B2, U+00B3, U+00B9). *)
Definition is_digit_char (c : ascii) : bool :=
  let n := nat_of_ascii c in
  ((48 <=? n)%nat && (n <=? 57)%nat)
  || (n =? 178)%nat || (n =? 179)%nat || (n =? 185)%nat.

Fixpoint all_digits (s : string) : bool :=
  match s with
  | EmptyString => true
  | String c s' => is_digit_char c && all_digits s'
  end.

Definition isdigit (s : string) : bool :=
  match s with
  | EmptyString => false
  | _ => all_digits s
  end.

(** the truth value of a string in [if TID:] *)
Definition truthy (s : string) : bool :=
  match s with
  | EmptyString => false
  | _ => true
  end.

(** [df.fillna(v)] on every column *)
Definition fillna_frame (v : value) (df : DataFrame) : DataFrame :=
  mkDF (nrows df) (map (fun kv => (fst kv, fillna v (snd kv))) (cols df)).

(** [df[c] = df[c].astype(int)] *)
Definition astype_int_column (c : string) (df : DataFrame) : result DataFrame :=
  rbind (get_column c df) (fun s =>
  rbind (astype_int s) (fun s' => inr (set_column c s' df))).

Section WithLibrary.
Context {L : Library}.

Definition plot_total_points_over_weeks (df_history : DataFrame) : M unit :=
  if has_column "Gameweek" df_history && has_column "Total Points" df_history then
    df_history_sorted ← lift (sort_values "Gameweek" true df_history);
    emit (st_plotly_chart
            (px_line "Total Points Over Gameweeks" "Gameweek" "Total Points"
                     df_history_sorted false))
  else
    emit (st_warning
            "'event' or 'points' columns not found for plotting total points over weeks." ∅).

Definition plot_rank_over_weeks (df_history : DataFrame) : M unit :=
  if has_column "Gameweek" df_history && has_column "Rank" df_history then
    df_history_sorted ← lift (sort_values "Gameweek" true df_history);
    emit (st_plotly_chart
            (px_line "Rank Over Gameweeks" "Gameweek" "Rank" df_history_sorted true))
  else
    emit (st_warning "'Gameweek' or 'Rank' columns not found for plotting rank over weeks." ∅).

Definition plot_transfers_per_gameweek (df_transfers : DataFrame) : M unit :=
  if has_column "Gameweek" df_transfers then
    gameweek ← lift (get_column "Gameweek" df_transfers);
    let transfers_per_gw := groupby_size gameweek in
    emit (st_plotly_chart (px_bar_counts "Number of Transfers per Gameweek" transfers_per_gw))
  else
    emit (st_warning "'Gameweek' column not found for plotting transfers per gameweek." ∅).

(** The merged in/out counts, one row per player name. *)
Definition players_summary (df_transfers : DataFrame) : result DataFrame :=
  rbind (get_column "Player In" df_transfers) (fun player_in =>
  rbind (value_counts "Player" "Transfers In" player_in) (fun players_in =>
  rbind (get_column "Player Out" df_transfers) (fun player_out =>
  rbind (value_counts "Player" "Transfers Out" player_out) (fun players_out =>
  let players_summary :=
    fillna_frame (VInt 0)
      (merge_outer "Player" "Transfers In" "Transfers Out" players_in players_out) in
  rbind (astype_int_column "Transfers In" players_summary) (fun players_summary =>
  astype_int_column "Transfers Out" players_summary))))).

(** The ten rows the grouped bar chart draws. *)
Definition top_players (df_transfers : DataFrame) : result DataFrame :=
  rbind (players_summary df_transfers) (fun players_summary =>
  rbind (sort_values "Transfers In" false players_summary) (fun sorted =>
  inr (head 10 sorted))).

Definition plot_players_in_out (df_transfers : DataFrame) : M unit :=
  if has_column "Player In" df_transfers && has_column "Player Out" df_transfers then
    top_players ← lift (top_players df_transfers);
    emit (st_plotly_chart (px_bar_grouped "Top 10 Players Transferred In and Out" top_players))
  else
    emit (st_warning
            "'Player In' or 'Player Out' columns not found for plotting players in/out." ∅).

(** *** The transfers tab *)

Definition desired_columns : list string :=
  ["Player In"; "Player Out"; "entry"; "event"; "time"].

Definition transfers_labels : list (string * string) :=
  [("entry", "Team ID"); ("event", "Gameweek"); ("time", "Transfer Time")].

(** Lines 135 to 144: player names for the two id columns. *)
Definition name_players (player_id_to_name : gmap value value)
    (transfers_data : DataFrame) : M DataFrame :=
  transfers_data ←
    (if has_column "element_in" transfers_data
        && has_column "element_out" transfers_data then
       element_in ← lift (get_column "element_in" transfers_data);
       let transfers_data :=
         set_column "Player In" (series_map player_id_to_name element_in) transfers_data in
       element_out ← lift (get_column "element_out" transfers_data);
       ret (set_column "Player Out" (series_map player_id_to_name element_out)
                       transfers_data)
     else
       emit (st_warning "Transfer data does not contain expected player ID columns." ∅) ;;
       ret transfers_data);
  if has_column "element_in" transfers_data
     && has_column "element_out" transfers_data then
    lift (drop ["element_in"; "element_out"] transfers_data)
  else ret transfers_data.

(** Lines 146 to 160: selection and renaming. *)
Definition select_transfers (transfers_data : DataFrame) : M DataFrame :=
  let available_columns :=
    filter (fun col => has_column col transfers_data) desired_columns in
  let missing_columns : gset string :=
    list_to_set desired_columns ∖ list_to_set available_columns in
  (if bool_decide (missing_columns ≠ ∅) then
     emit (st_warning "The following columns are missing and will be excluded: "
                      missing_columns)
   else ret tt) ;;
  transfers_data ← lift (select available_columns transfers_data);
  ret (rename transfers_labels transfers_data).

(** Lines 162 to 168: time stamps and order. *)
Definition sort_transfers (transfers_data : DataFrame) : M DataFrame :=
  transfers_data ←
    (if has_column "Transfer Time" transfers_data then
       transfer_time ← lift (get_column "Transfer Time" transfers_data);
       transfer_time ← lift (to_datetime errors_coerce transfer_time);
       ret (set_column "Transfer Time" transfer_time transfers_data)
     else ret transfers_data);
  if has_column "Transfer Time" transfers_data then
    lift (sort_values "Transfer Time" false transfers_data)
  else ret transfers_data.

Definition shape_transfers (player_id_to_name : gmap value value)
    (transfers_data : DataFrame) : M DataFrame :=
  transfers_data ← name_players player_id_to_name transfers_data;
  transfers_data ← select_transfers transfers_data;
  sort_transfers transfers_data.

Definition transfers_tab (up : Upstream) (player_id_to_name : gmap value value)
    (TID : string) : M unit :=
  emit (with_tab 0) ;;
  emit (st_header "Your Transfer History") ;;
  transfers_data ←
    try_except
      (df ← fetch_transfers up TID; ret (Some df))
      (fun e => if is_runtime_error e
                then Some (emit (st_error e) ;; ret None)
                else None);
  match transfers_data with
  | Some transfers_data =>
      if negb (empty transfers_data) then
        transfers_data ← shape_transfers player_id_to_name transfers_data;
        emit (st_dataframe transfers_data) ;;
        emit (st_subheader "Transfers Per Gameweek") ;;
        plot_transfers_per_gameweek transfers_data ;;
        emit (st_subheader "Players Transferred In vs Out") ;;
        plot_players_in_out transfers_data ;;
        emit (st_download_button "Download Transfer History as CSV" transfers_data
                                 "fpl_transfer_history.csv")
      else emit (st_info "No transfer data available for this Team ID.")
  | None => emit (st_info "No transfer data available for this Team ID.")
  end.

(** *** The history tab *)

(** The pairs the ten [if] statements put into [rename_columns], in their
    order. *)
Definition history_labels : list (string * string) :=
  [("season_name", "Season"); ("overall_rank", "Overall Rank"); ("rank", "Rank");
   ("total_points", "Total Points"); ("bank", "Bank"); ("points", "Points");
   ("event_transfers", "Transfers"); ("event_transfers_cost", "Transfers Cost");
   ("points_on_bench", "Bench Points"); ("event", "Gameweek")].

Definition desired_history_columns : list string :=
  ["Gameweek"; "Overall Rank"; "Rank"; "Points"; "Total Points"; "Bank";
   "Transfers"; "Transfers Cost"; "Bench Points"].

(** Lines 202 to 236: renaming and selection. *)
Definition select_history (history_data : DataFrame) : M DataFrame :=
  let rename_columns :=
    filter (fun kv => has_column (fst kv) history_data) history_labels in
  let history_data := rename rename_columns history_data in
  let available_history_columns :=
    filter (fun col => has_column col history_data) desired_history_columns in
  let missing_history_columns : gset string :=
    list_to_set desired_history_columns ∖ list_to_set available_history_columns in
  (if bool_decide (missing_history_columns ≠ ∅) then
     emit (st_warning "The following history columns are missing and will be excluded: "
                      missing_history_columns)
   else ret tt) ;;
  lift (select available_history_columns history_data).

(** Lines 238 to 240. *)
Definition sort_history (history_data : DataFrame) : M DataFrame :=
  if has_column "Gameweek" history_data then
    lift (sort_values "Gameweek" true history_data)
  else ret history_data.

Definition shape_history (history_data : DataFrame) : M DataFrame :=
  history_data ← select_history history_data;
  sort_history history_data.

Definition history_tab (up : Upstream) (TID : string) : M unit :=
  emit (with_tab 1) ;;
  emit (st_header "Your Performance History") ;;
  history_data ←
    try_except
      (df ← fetch_history up TID; ret (Some df))
      (fun e => if is_runtime_error e
                then Some (emit (st_error e) ;; ret None)
                else None);
  match history_data with
  | Some history_data =>
      if negb (empty history_data) then
        history_data ← shape_history history_data;
        emit (st_dataframe history_data) ;;
        emit (st_subheader "Total Points Over Gameweeks") ;;
        plot_total_points_over_weeks history_data ;;
        emit (st_subheader "Rank Over Gameweeks") ;;
        plot_rank_over_weeks history_data ;;
        emit (st_download_button "Download Performance History as CSV" history_data
                                 "fpl_performance_history.csv")
      else emit (st_info "No performance history data available for this Team ID.")
  | None => emit (st_info "No performance history data available for this Team ID.")
  end.

(** *** main

    [TID] is what [st.sidebar.text_input] returns; [st.stop()] ends the
    run with [StopException]. *)
Definition main (up : Upstream) (TID : string) : M unit :=
  emit st_set_page_config ;;
  emit (st_title "Fantasy Premier League Team Analyzer") ;;
  emit (st_write "Welcome to the **Fantasy Premier League Team Analyzer**! Enter your Team ID to view your transfer history and performance across gameweeks.") ;;
  emit (st_text_input "Enter your Team ID (e.g., 7108828):") ;;
  (if truthy TID then
     if isdigit TID then
       player_id_to_name ←
         try_except
           (emit (st_spinner "Fetching player data...") ;; fetch_players up)
           (fun e => if is_runtime_error e
                     then Some (emit (st_error e) ;; raise StopException)
                     else None);
       emit (st_tabs ["Transfer History"; "Performance History"]) ;;
       transfers_tab up player_id_to_name TID ;;
       history_tab up TID
     else emit (st_info "Please enter your Team ID to proceed.")
   else ret tt) ;;
  emit st_divider ;;
  emit donate_message.

End WithLibrary.

End App.

(** ** Two libraries

    Both sort with stdpp's [merge_sort] over the pairs (position, key):
    [stable_library] breaks ties by ascending position, as numpy's
    'stable' kind does; [reversing_library] breaks them by descending
    position, which the contract of 'quicksort' allows as well. *)
Module Libraries.

Definition tie_break : Type := nat -> nat -> bool.

Definition key_le (tie : tie_break) (a b : nat * value) : Prop :=
  value_leb (snd a) (snd b) = true /\
  (value_leb (snd b) (snd a) = true -> tie (fst a) (fst b) = true).

#[global] Instance key_le_dec tie : RelDecision (key_le tie).
Proof. intros a b. unfold key_le. apply _. Defined.

Definition argsort_by (tie : tie_break) (keys : list value) : list nat :=
  map fst (merge_sort (key_le tie) (combine (seq 0 (length keys)) keys)).

Definition digit_of (c : ascii) : option Z :=
  let n := nat_of_ascii c in
  if (48 <=? n)%nat && (n <=? 57)%nat then Some (Z.of_nat n - 48) else None.

Fixpoint number_of (s : list ascii) (acc : Z) : option Z :=
  match s with
  | [] => Some acc
  | c :: s' =>
      match digit_of c with
      | Some d => number_of s' (10 * acc + d)
      | None => None
      end
  end.

(** Days from 1970-01-01 to the civil date, proleptic Gregorian. *)
Definition days_from_civil (y m d : Z) : Z :=
  let y' := if m <=? 2 then y - 1 else y in
  let era := y' / 400 in
  let yoe := y' - era * 400 in
  let mp := (m + 9) mod 12 in
  let doy := (153 * mp + 2) / 5 + d - 1 in
  let doe := yoe * 365 + yoe / 4 - yoe / 100 + doy in
  era * 146097 + doe - 719468.

(** A parser for the form [YYYY-MM-DDTHH:MM:SSZ], in seconds since the
    epoch; every other string is unreadable to it. *)
Definition parse_iso (s : string) : option Z :=
  match list_ascii_of_string s with
  | [y1; y2; y3; y4; "-"%char; m1; m2; "-"%char; d1; d2; "T"%char;
     h1; h2; ":"%char; i1; i2; ":"%char; s1; s2; "Z"%char] =>
      y ← number_of [y1; y2; y3; y4] 0;
      m ← number_of [m1; m2] 0;
      d ← number_of [d1; d2] 0;
      h ← number_of [h1; h2] 0;
      i ← number_of [i1; i2] 0;
      sec ← number_of [s1; s2] 0;
      if (1 <=? m) && (m <=? 12) && (1 <=? d) && (d <=? 31)
         && (h <? 24) && (i <? 60) && (sec <? 60)
      then Some (days_from_civil y m d * 86400 + h * 3600 + i * 60 + sec)
      else None
  | _ => None
  end.

Definition stable_library : Library :=
  {| np_argsort := argsort_by Nat.leb; parse_datetime := parse_iso |}.

Definition reversing_library : Library :=
  {| np_argsort := argsort_by (fun i j => Nat.leb j i); parse_datetime := parse_iso |}.

End Libraries.

Import App Libraries.

(** * Vocabulary of the statements *)

Definition key_order (ascending : bool) (a b : value) : Prop :=
  if ascending then value_leb a b = true else value_leb b a = true.

Definition sorted_nulls_last (ascending : bool) (keys : list value) : Prop :=
  exists ks k,
    keys = ks ++ repeat VNull k
    /\ Forall (fun v => isna v = false) ks
    /\ Sorted (key_order ascending) ks.

Definition coerce_cell {L : Library} (v : value) : value :=
  match to_datetime_cell errors_coerce v with
  | inr v' => v'
  | inl _ => VNull
  end.

Definition column (c : string) (df : DataFrame) : list value :=
  default [] (assoc c (cols df)).

Definition with_column (c : string) (f : value -> value) (df : DataFrame) : DataFrame :=
  set_column c (map f (column c df)) df.







Definition display (labels : list (string * string)) (c : string) : string :=
  default c (assoc c labels).

Definition available_in (present desired : list string) : list string :=
  filter (fun c => bool_decide (c ∈ present)) desired.

Definition missing_from (present desired : list string) : gset string :=
  list_to_set desired ∖ list_to_set (available_in present desired).

Definition warning_for (text : string) (missing : gset string) : list event :=
  if bool_decide (missing ≠ ∅) then [st_warning text missing] else [].

Definition renamed_history (history_data : DataFrame) : DataFrame :=
  rename (filter (fun kv => has_column (fst kv) history_data) history_labels) history_data.

Definition gameweek_points_rows (rows : list (Z * Z)) : list json_row :=
  map (fun gp => [("event", VInt (fst gp)); ("points", VInt (snd gp))]) rows.

Definition is_error_status (status : Z) : bool :=
  (400 <=? status) && (status <? 600).

Definition http_message (what : string) (cause : exn) : string :=
  "HTTP error occurred while fetching " +:+ what +:+ ": " +:+ exn_str cause.

Definition other_message (what : string) (cause : exn) : string :=
  "Other error occurred while fetching " +:+ what +:+ ": " +:+ exn_str cause.

(** The error contract of one fetch [f] that reads endpoint [o] at [url]. *)
Definition two_tier_errors {J A} (what url : string) (o : http_outcome J) (f : M A)
    : Prop :=
  trace f = [requests_get url]
  /\ (forall e, outcome f = inl e ->
        exists cause,
          (e = RuntimeError (http_message what cause) cause
           /\ is_http_error cause = true
           /\ exists status reason body,
                o = Response status reason body /\ is_error_status status = true)
          \/ (e = RuntimeError (other_message what cause) cause
              /\ is_http_error cause = false
              /\ forall status reason body,
                   o = Response status reason body -> is_error_status status = false))
  /\ (forall status reason body,
        o = Response status reason body -> is_error_status status = true ->
        exists e, outcome f = inl e)
  /\ (forall msg,
        o = NoResponse msg ->
        outcome f = inl (RuntimeError (other_message what (ConnectionError msg))
                                      (ConnectionError msg)))
  /\ (forall status reason,
        o = Response status reason None -> is_error_status status = false ->
        exists m, outcome f = inl (RuntimeError (other_message what (JSONDecodeError m))
                                                (JSONDecodeError m))).

(** The common shape of the three fetches: GET, status check, decoding,
    then a computation on the decoded body that makes no further call. *)
Definition fetch_with {J A} (what url : string) (o : http_outcome J)
    (process : J -> result A) : M A :=
  try_except
    (response ← get url o;
     raise_for_status url response ;;
     data ← json response;
     lift (process data))
    (wrap_errors what).

(** What each fetch does with the decoded body. *)
Definition process_players (players_data : bootstrap_json) : result (gmap value value) :=
  rbind (match elements players_data with
         | Some l => inr l
         | None => inl (KeyError "elements")
         end) (fun players => player_dict players ∅).

Definition process_transfers {L : Library} (transfers_data : list json_row)
    : result DataFrame :=
  let df_transfers := json_normalize transfers_data in
  if has_column "time" df_transfers then
    rbind (get_column "time" df_transfers) (fun time =>
    rbind (to_datetime errors_raise time) (fun time =>
    inr (set_column "time" time df_transfers)))
  else inr (set_scalar "time" VNull df_transfers).

Definition process_history (history_data : history_json) : result DataFrame :=
  match all_history history_data with
  | [] => inr empty_frame
  | _ => inr (json_normalize (all_history history_data))
  end.

(** What [raise_for_status] raises for an error status. *)
Definition status_error (url : string) (status : Z) (reason : string) : exn :=
  HTTPError (pretty status
             +:+ (if status <? 500 then " Client Error: " else " Server Error: ")
             +:+ reason +:+ " for url: " +:+ url).

Definition decode_error : exn :=
  JSONDecodeError "Expecting value: line 1 column 1 (char 0)".

Definition wrapped (what : string) (cause : exn) : exn :=
  RuntimeError (if is_http_error cause then http_message what cause
                else other_message what cause) cause.

(** The result of a fetch, read off the outcome of its one GET. *)
Definition fetch_result {J A} (what url : string) (o : http_outcome J)
    (process : J -> result A) : result A :=
  match o with
  | NoResponse msg => inl (wrapped what (ConnectionError msg))
  | Response status reason body =>
      if is_error_status status then inl (wrapped what (status_error url status reason))
      else
        match body with
        | None => inl (wrapped what decode_error)
        | Some j =>
            match process j with
            | inl e => inl (wrapped what e)
            | inr a => inr a
            end
        end
  end.

Definition is_request (ev : event) : bool :=
  match ev with requests_get _ => true | _ => false end.

Definition is_tabs (ev : event) : bool :=
  match ev with st_tabs _ | with_tab _ => true | _ => false end.

Definition is_error_message (ev : event) : bool :=
  match ev with st_error _ => true | _ => false end.

(** What every run shows before it looks at the identifier. *)
Definition page_top : list event :=
  [st_set_page_config;
   st_title "Fantasy Premier League Team Analyzer";
   st_write "Welcome to the **Fantasy Premier League Team Analyzer**! Enter your Team ID to view your transfer history and performance across gameweeks.";
   st_text_input "Enter your Team ID (e.g., 7108828):"].

(** The cells a list of records holds under key [c], [NaN] where a record
    lacks the key. *)
Definition cells (c : string) (records : list json_row) : list value :=
  map (fun r => default VNull (assoc c r)) records.

Definition player_labels : list string :=
  ["Player In"; "Player Out"; "element_in"; "element_out"].

(** The count cell of player [p] in the name column [s]. *)
Definition count_cell (s : list value) (p : value) : value :=
  VInt (Z.of_nat (occurrences p s)).

(** The row of the summary for player [p]. *)
Definition summary_row (player_in player_out : list value) (p : value) : list value :=
  [p; count_cell player_in p; count_cell player_out p].



(** Sample responses of the three endpoints. *)
Definition sample_players : bootstrap_json :=
  {| elements :=
       Some [[("id", VInt 1); ("web_name", VStr "Salah")];
             [("id", VInt 2); ("web_name", VStr "Haaland")];
             [("id", VInt 3); ("web_name", VStr "Saka")]] |}.

Definition sample_transfers : list json_row :=
  [[("element_in", VInt 1); ("element_out", VInt 2); ("entry", VInt 7108828);
    ("event", VInt 3); ("time", VStr "2024-08-30T10:15:00Z")];
   [("element_in", VInt 3); ("element_out", VInt 1); ("entry", VInt 7108828);
    ("event", VInt 5); ("time", VStr "2024-09-20T18:05:30Z")]].

Definition untimed_transfers : list json_row :=
  [[("element_in", VInt 1); ("element_out", VInt 2); ("entry", VInt 7108828);
    ("event", VInt 3)];
   [("element_in", VInt 3); ("element_out", VInt 1); ("entry", VInt 7108828);
    ("event", VInt 5)]].


Definition sample_history : history_json :=
  {| current :=
       Some [[("event", VInt 2); ("points", VInt 61); ("total_points", VInt 130)];
             [("event", VInt 1); ("points", VInt 69); ("total_points", VInt 69)]];
     past :=
       Some [{| season_history := None |};
             {| season_history := Some [[("event", VInt 38); ("points", VInt 40)]] |}] |}.

Definition upstream_ok : Upstream :=
  {| players_endpoint := Response 200 "OK" (Some sample_players);
     transfers_endpoint := fun _ => Response 200 "OK" (Some sample_transfers);
     history_endpoint := fun _ => Response 200 "OK" (Some sample_history) |}.

(** The directory answers 500; the other endpoints are up. *)
Definition upstream_down : Upstream :=
  {| players_endpoint := Response 500 "Internal Server Error" None;
     transfers_endpoint := fun _ => Response 200 "OK" (Some sample_transfers);
     history_endpoint := fun _ => Response 200 "OK" (Some sample_history) |}.

Definition upstream_untimed : Upstream :=
  {| players_endpoint := Response 200 "OK" (Some sample_players);
     transfers_endpoint := fun _ => Response 200 "OK" (Some untimed_transfers);
     history_endpoint := fun _ => Response 200 "OK" (Some sample_history) |}.



(** The frame a successful run of a computation ends with. *)
Definition frame_of (r : result DataFrame) : DataFrame :=
  match r with
  | inr df => df
  | inl _ => empty_frame
  end.

(** The directory lookup of [series.map]: the name of an id, null for an
    id the directory does not know. *)
Definition name_of (player_id_to_name : gmap value value) (id : value) : value :=
  default VNull (player_id_to_name !! id).


(** A directory of one player, and a table that names a second. *)
Definition one_player : gmap value value := {[ VInt 1 := VStr "Salah" ]}.

Definition two_ids : DataFrame :=
  mkDF 2 [("element_in", [VInt 1; VInt 9]); ("element_out", [VInt 9; VInt 1]);
          ("event", [VInt 3; VInt 4])].

(** A shaped table of four transfers, one of them without a gameweek. *)
Definition four_transfers : DataFrame :=
  mkDF 4 [("Player In", [VStr "Salah"; VStr "Saka"; VStr "Salah"; VStr "Foden"]);
          ("Gameweek", [VInt 3; VInt 5; VInt 3; VNull])].

(** A shaped history of three gameweeks, out of order. *)
Definition three_gameweeks : DataFrame :=
  mkDF 3 [("Gameweek", [VInt 2; VInt 3; VInt 1]);
          ("Rank", [VInt 500; VInt 400; VInt 900]);
          ("Total Points", [VInt 130; VInt 190; VInt 69])].

(** The display labels of the history tab. *)
Definition history_display_labels : list string := map snd history_labels.

(** The cells other than null. *)
Definition non_null (s : list value) : list value :=
  filter (fun v => negb (isna v)) s.

(** The cells other than null are of one kind, so that any two of them
    can be compared. *)
Definition of_one_kind (s : list value) : Prop :=
  forall a b, a ∈ s -> b ∈ s -> isna a = false -> isna b = false -> same_kind a b = true.

(** A response in which one gameweek is a number and another a string. *)
Definition mixed_history : history_json :=
  {| current := Some [[("event", VInt 1); ("points", VInt 69)];
                      [("event", VStr "2"); ("points", VInt 61)]];
     past := None |}.

Definition upstream_mixed : Upstream :=
  {| players_endpoint := Response 200 "OK" (Some sample_players);
     transfers_endpoint := fun _ => Response 200 "OK" (Some sample_transfers);
     history_endpoint := fun _ => Response 200 "OK" (Some mixed_history) |}.

(** What a tab shows after its request: errors, warnings, tables, plots,
    the download button and the two messages that no data is available. *)
Definition tab_display (ev : event) : bool :=
  match ev with
  | st_error _ | st_warning _ _ | st_dataframe _ | st_subheader _
  | st_plotly_chart _ | st_download_button _ _ _ => true
  | st_info text => negb (String.eqb text "Please enter your Team ID to proceed.")
  | _ => false
  end.

Definition is_footer (ev : event) : bool :=
  match ev with st_divider | donate_message => true | _ => false end.

(** Integers and times, the kinds whose order is that of the integers. *)
Definition numeric (v : value) : bool :=
  match v with VInt _ | VTime _ => true | _ => false end.

Definition numeric_le (a b : value) : Prop :=
  match a, b with
  | VInt x, VInt y | VTime x, VTime y => (x <= y)%Z
  | _, _ => False
  end.




(** * Proof steps used throughout *)

Ltac run :=
  unfold mbind, M_bind, mret, M_ret, bind, ret, lift, emit, raise, outcome, trace;
  simpl.

Ltac find_event :=
  simpl;
  first
    [ apply list_elem_of_here
    | apply list_elem_of_further; find_event
    | apply elem_of_app; first [ left; find_event | right; find_event ] ].

Ltac by_decide := refine (bool_decide_unpack _ _); vm_compute; exact I.

Ltac fetch_cases :=
  unfold fetch_with, get, raise_for_status, json, wrap_errors;
  match goal with
  | |- context [match ?o with NoResponse _ => _ | Response _ _ _ => _ end] =>
      destruct o as [?|? ? [?|]]
  end; run; try done;
  repeat match goal with
         | |- context [(?a <=? ?s) && (?s <? ?b)] =>
             destruct ((a <=? s) && (s <? b)); simpl; try done
         end.

(** * Facts about frames *)
Section FrameFacts.

Lemma has_column_spec c df : has_column c df = true <-> c ∈ columns df.
Proof. unfold has_column. by rewrite bool_decide_eq_true. Qed.

Lemma has_column_false c df : has_column c df = false <-> c ∉ columns df.
Proof. unfold has_column. by rewrite bool_decide_eq_false. Qed.

Lemma assoc_None {A} c (l : list (string * A)) :
  assoc c l = None <-> c ∉ map fst l.
Proof.
  induction l as [|[k v] l IH]; simpl.
  - split; [intros _; apply not_elem_of_nil | done].
  - destruct (String.eqb_spec k c) as [->|Hne].
    + split; [done | intros H; exfalso; apply H; left].
    + rewrite IH, not_elem_of_cons. split; [auto | by intros [_ ?]].
Qed.

Lemma assoc_is_Some {A} c (l : list (string * A)) :
  is_Some (assoc c l) <-> c ∈ map fst l.
Proof.
  rewrite <- not_eq_None_Some, assoc_None.
  split; [apply dec_stable | auto].
Qed.

Lemma get_column_ok c df :
  c ∈ columns df -> exists s, get_column c df = inr s /\ assoc c (cols df) = Some s.
Proof.
  intros H. apply assoc_is_Some in H as [s Hs].
  exists s. unfold get_column. by rewrite Hs.
Qed.

Lemma filter_label_absent (c : string) (l : list (string * list value)) :
  c ∉ map fst l -> filter (fun kv => String.eqb (fst kv) c) l = [].
Proof.
  induction l as [|[k v] l IH]; simpl; intros Hin; [done|].
  apply not_elem_of_cons in Hin as [Hne Hin].
  rewrite filter_cons_False; [auto|].
  simpl. rewrite Is_true_true, String.eqb_eq. congruence.
Qed.

Lemma filter_label_unique (c : string) (l : list (string * list value)) :
  NoDup (map fst l) -> c ∈ map fst l ->
  exists s, filter (fun kv => String.eqb (fst kv) c) l = [(c, s)]
            /\ assoc c l = Some s.
Proof.
  induction l as [|[k v] l IH]; simpl; intros Hnd Hin.
  - by apply elem_of_nil in Hin.
  - apply NoDup_cons in Hnd as [Hk Hnd].
    destruct (String.eqb_spec k c) as [->|Hne].
    + exists v. split; [|done].
      rewrite filter_cons_True by (simpl; by rewrite Is_true_true, String.eqb_eq).
      by rewrite filter_label_absent.
    + apply elem_of_cons in Hin as [->|Hin]; [done|].
      destruct (IH Hnd Hin) as (s & Hf & Ha). exists s. split; [|done].
      rewrite filter_cons_False; [done|].
      simpl. rewrite Is_true_true, String.eqb_eq. congruence.
Qed.

Lemma columns_rename m df :
  columns (rename m df) = map (fun c => default c (assoc c m)) (columns df).
Proof. unfold columns, rename. simpl. by rewrite !map_map. Qed.

Lemma columns_take idx df : columns (take idx df) = columns df.
Proof. unfold columns, take. simpl. by rewrite map_map. Qed.

Lemma nrows_take idx df : nrows (take idx df) = length idx.
Proof. done. Qed.

Lemma columns_replace c s l :
  map fst (replace_column c s l) = map fst l.
Proof.
  induction l as [|[k v] l IH]; simpl; [done|].
  destruct (String.eqb k c); simpl; by rewrite IH.
Qed.

Lemma columns_set_column c s df :
  columns (set_column c s df) =
  if has_column c df then columns df else columns df ++ [c].
Proof.
  unfold set_column, columns.
  destruct (has_column c df); simpl.
  - apply columns_replace.
  - by rewrite map_app.
Qed.

Lemma nrows_set_column c s df : nrows (set_column c s df) = nrows df.
Proof. unfold set_column. by destruct (has_column c df). Qed.

Lemma assoc_replace_eq c s l :
  c ∈ map fst l -> assoc c (replace_column c s l) = Some s.
Proof.
  induction l as [|[k v] l IH]; simpl; intros Hin.
  - by apply elem_of_nil in Hin.
  - destruct (String.eqb_spec k c) as [->|Hne]; simpl.
    + by rewrite String.eqb_refl.
    + apply elem_of_cons in Hin as [->|Hin]; [done|].
      destruct (String.eqb_spec k c); [done | auto].
Qed.

Lemma assoc_replace_ne c c' s l :
  c' <> c -> assoc c' (replace_column c s l) = assoc c' l.
Proof.
  intros Hne. induction l as [|[k v] l IH]; simpl; [done|].
  destruct (String.eqb_spec k c) as [->|Hkc]; simpl.
  - destruct (String.eqb_spec c c'); [congruence | done].
  - destruct (String.eqb_spec k c'); [done | auto].
Qed.

Lemma assoc_app_fresh {A} c (s : A) l :
  c ∉ map fst l -> assoc c (l ++ [(c, s)]) = Some s.
Proof.
  induction l as [|[k v] l IH]; simpl; intros Hin.
  - by rewrite String.eqb_refl.
  - apply not_elem_of_cons in Hin as [Hne Hin].
    destruct (String.eqb_spec k c); [congruence | auto].
Qed.

Lemma assoc_app_ne {A} c c' (s : A) l :
  c' <> c -> assoc c' (l ++ [(c, s)]) = assoc c' l.
Proof.
  intros Hne. induction l as [|[k v] l IH]; simpl.
  - destruct (String.eqb_spec c c'); [congruence | done].
  - destruct (String.eqb_spec k c'); [done | auto].
Qed.

Lemma assoc_set_column_eq c s df : assoc c (cols (set_column c s df)) = Some s.
Proof.
  unfold set_column.
  destruct (has_column c df) eqn:E; simpl.
  - apply has_column_spec in E. by rewrite assoc_replace_eq.
  - apply has_column_false in E. by rewrite assoc_app_fresh.
Qed.

Lemma assoc_set_column_ne c c' s df :
  c' <> c -> assoc c' (cols (set_column c s df)) = assoc c' (cols df).
Proof.
  intros Hne. unfold set_column.
  destruct (has_column c df); simpl.
  - by rewrite assoc_replace_ne.
  - by rewrite assoc_app_ne.
Qed.

Lemma select_present labels df :
  Forall (fun c => c ∈ columns df) labels ->
  select labels df =
  inr (mkDF (nrows df)
         (concat (map (fun c => filter (fun kv => String.eqb (fst kv) c) (cols df))
                      labels))).
Proof.
  intros H. unfold select.
  replace (filter (fun c => negb (has_column c df)) labels) with (@nil string); [done|].
  symmetry. induction H as [|c l Hc Hl IH]; [done|].
  rewrite filter_cons_False; [done|].
  apply has_column_spec in Hc. rewrite Hc. simpl. auto.
Qed.

End FrameFacts.

Section SortingFacts.
Context {L : Library}.
Hypothesis contract : argsort_contract L.

Lemma map_nth_seq {A} (l : list A) d :
  map (fun i => nth i l d) (seq 0 (length l)) = l.
Proof.
  induction l as [|x l IH]; simpl; [done|].
  f_equal. rewrite <- seq_shift, map_map. exact IH.
Qed.

Lemma permuted_indices {A} (l : list A) d (idx : list nat) :
  Permutation idx (seq 0 (length l)) ->
  Permutation (map (fun i => nth i l d) idx) l.
Proof.
  intros H. pose proof (Permutation_map (fun i => nth i l d) H) as H'.
  by rewrite map_nth_seq in H'.
Qed.

Lemma filter_partition {A} (p : A -> bool) (l : list A) :
  Permutation (filter (fun x => negb (p x)) l ++ filter (fun x => p x) l) l.
Proof.
  induction l as [|x l IH]; [done|].
  destruct (p x) eqn:E.
  - rewrite filter_cons_False, filter_cons_True by (rewrite E; simpl; tauto).
    rewrite <- Permutation_middle. by constructor.
  - rewrite filter_cons_True, filter_cons_False by (rewrite E; simpl; tauto).
    simpl. by constructor.
Qed.

Lemma indices_in_range (idx : list nat) n :
  Permutation idx (seq 0 n) -> Forall (fun i => (i < n)%nat) idx.
Proof.
  intros H. apply Forall_forall. intros i Hi.
  rewrite H in Hi. apply elem_of_seq in Hi. lia.
Qed.

Lemma nargsort_unfold ascending items idx :
  nargsort ascending items = inr idx ->
  exists positions nulls,
    Permutation (positions ++ nulls) (seq 0 (length items))
    /\ Forall (fun i => isna (nth i items VNull) = false) positions
    /\ Forall (fun i => isna (nth i items VNull) = true) nulls
    /\ nulls = filter (fun i => isna (nth i items VNull)) (seq 0 (length items))
    /\ comparableb (map (fun i => nth i items VNull) positions) = true
    /\ idx =
       (if ascending
        then map (fun i => nth i positions 0%nat)
                 (np_argsort (map (fun i => nth i items VNull) positions))
        else rev (map (fun i => nth i positions 0%nat)
                      (np_argsort (map (fun i => nth i items VNull) positions))))
       ++ nulls.
Proof.
  unfold nargsort. cbv zeta.
  set (nn := filter (fun i => negb (isna (nth i items VNull))) (seq 0 (length items))).
  set (na := filter (fun i => isna (nth i items VNull)) (seq 0 (length items))).
  set (nn' := if ascending then nn else rev nn).
  destruct (comparableb _) eqn:Hc; [|done].
  intros [= <-]. exists nn', na.
  assert (Hnn : Forall (fun i => isna (nth i items VNull) = false) nn).
  { apply Forall_forall. intros i Hi. apply list_elem_of_filter in Hi as [Hi _].
    by apply negb_prop_elim, Is_true_false in Hi. }
  split_and!; try done.
  - etrans; [|apply (filter_partition (fun i => isna (nth i items VNull)))].
    apply Permutation_app_tail. subst nn'. destruct ascending; [done|].
    symmetry. apply Permutation_rev.
  - subst nn'. destruct ascending; [done|]. by apply Forall_rev.
  - apply Forall_forall. intros i Hi. apply list_elem_of_filter in Hi as [Hi _].
    by apply Is_true_true in Hi.
Qed.

Lemma nulls_read_back items (nulls : list nat) :
  Forall (fun i => isna (nth i items VNull) = true) nulls ->
  map (fun i => nth i items VNull) nulls = repeat VNull (length nulls).
Proof.
  induction 1 as [|i l Hi Hl IH]; simpl; [done|].
  rewrite IH. f_equal. by destruct (nth i items VNull).
Qed.

Lemma sorted_positions_read_back items (positions : list nat) :
  let keys := map (fun i => nth i items VNull) positions in
  comparableb keys = true ->
  map (fun i => nth i items VNull)
      (map (fun j => nth j positions 0%nat) (np_argsort keys))
  = map (fun j => nth j keys VNull) (np_argsort keys).
Proof.
  intros keys Hc. destruct (contract keys Hc) as [Hperm _].
  rewrite map_map. apply map_ext_in. intros j Hj.
  apply (Permutation_in _ Hperm), in_seq in Hj.
  subst keys. rewrite length_map in Hj.
  apply nth_nth_nth_map. left. lia.
Qed.

Lemma nargsort_Permutation ascending items idx :
  nargsort ascending items = inr idx ->
  Permutation idx (seq 0 (length items)).
Proof.
  intros H. apply nargsort_unfold in H
    as (positions & nulls & Hperm & _ & _ & _ & Hc & ->).
  etrans; [|exact Hperm]. apply Permutation_app_tail.
  destruct (contract _ Hc) as [Hs _]. rewrite length_map in Hs.
  pose proof (permuted_indices positions 0%nat _ Hs) as Hp.
  destruct ascending; [done|]. etrans; [|exact Hp].
  symmetry. apply Permutation_rev.
Qed.

Lemma nargsort_length ascending items idx :
  nargsort ascending items = inr idx -> length idx = length items.
Proof.
  intros H. apply nargsort_Permutation, Permutation_length in H.
  by rewrite length_seq in H.
Qed.

Lemma nargsort_sorted ascending items idx :
  nargsort ascending items = inr idx ->
  sorted_nulls_last ascending (map (fun i => nth i items VNull) idx).
Proof.
  intros H. apply nargsort_unfold in H
    as (positions & nulls & _ & Hpos & Hnulls & _ & Hc & ->).
  set (keys := map (fun i => nth i items VNull) positions) in *.
  destruct (contract keys Hc) as [Hperm Hsorted].
  assert (Hnn : Forall (fun v => isna v = false)
                       (map (fun j => nth j keys VNull) (np_argsort keys))).
  { pose proof (permuted_indices keys VNull _ Hperm) as Hp.
    rewrite Hp. subst keys. by apply Forall_map. }
  rewrite map_app, (nulls_read_back _ _ Hnulls).
  destruct ascending.
  - exists (map (fun j => nth j keys VNull) (np_argsort keys)), (length nulls).
    split_and!; [|done|done].
    f_equal. by apply sorted_positions_read_back.
  - exists (rev (map (fun j => nth j keys VNull) (np_argsort keys))), (length nulls).
    split_and!.
    + f_equal. rewrite map_rev. f_equal. by apply sorted_positions_read_back.
    + by apply Forall_rev.
    + rewrite rev_alt. by apply (Sorted_reverse _ _ Hsorted).
Qed.

Lemma same_kind_trans k a b :
  same_kind k a = true -> same_kind k b = true -> same_kind a b = true.
Proof. by destruct k, a, b. Qed.

Lemma comparableb_of_kind k (keys : list value) :
  Forall (fun v => same_kind k v = true) keys -> comparableb keys = true.
Proof.
  intros H. destruct keys as [|v keys]; [done|].
  unfold comparableb. apply forallb_forall. intros w Hw.
  rewrite Forall_forall in H.
  apply (same_kind_trans k); apply H; [left | by apply list_elem_of_In].
Qed.

(** A column whose cells are null or of one kind can be sorted. *)
Lemma nargsort_ok k ascending items :
  Forall (fun v => isna v = true \/ same_kind k v = true) items ->
  exists idx, nargsort ascending items = inr idx.
Proof.
  intros H. unfold nargsort. cbv zeta.
  set (nn := filter (fun i => negb (isna (nth i items VNull))) (seq 0 (length items))).
  set (nn' := if ascending then nn else rev nn).
  assert (Hk : Forall (fun v => same_kind k v = true)
                      (map (fun i => nth i items VNull) nn')).
  { apply Forall_map, Forall_forall. intros i Hi.
    assert (Hi' : i ∈ nn).
    { subst nn'. destruct ascending; [done|].
      apply list_elem_of_In. apply list_elem_of_In in Hi. by apply in_rev. }
    apply list_elem_of_filter in Hi' as [Hna Hi'].
    apply elem_of_seq in Hi'. rewrite Forall_forall in H.
    destruct (H (nth i items VNull)) as [Hn|Hn]; [|by rewrite Hn in Hna|done].
    apply list_elem_of_In, nth_In. lia. }
  rewrite (comparableb_of_kind k _ Hk). eauto.
Qed.

Lemma row_take idx df j :
  (j < length idx)%nat -> row (take idx df) j = row df (nth j idx 0%nat).
Proof.
  intros Hj. unfold row, take. simpl. rewrite map_map. apply map_ext.
  intros kv. simpl.
  rewrite (nth_indep _ VNull (nth 0%nat (snd kv) VNull)) by (by rewrite length_map).
  apply (map_nth (fun i => nth i (snd kv) VNull)).
Qed.

Lemma rows_take idx df : rows (take idx df) = map (row df) idx.
Proof.
  unfold rows. rewrite nrows_take.
  transitivity (map (row df) (map (fun j => nth j idx 0%nat) (seq 0 (length idx)))).
  - rewrite map_map. apply map_ext_in. intros j Hj. apply in_seq in Hj.
    apply row_take. lia.
  - by rewrite map_nth_seq.
Qed.

Lemma rows_take_Permutation idx df :
  Permutation idx (seq 0 (nrows df)) -> Permutation (rows (take idx df)) (rows df).
Proof. intros H. rewrite rows_take. unfold rows. by apply Permutation_map. Qed.

Lemma assoc_take c idx l :
  assoc c (map (fun kv : string * list value =>
                  (fst kv, map (fun i => nth i (snd kv) VNull) idx)) l)
  = option_map (fun s => map (fun i => nth i s VNull) idx) (assoc c l).
Proof.
  induction l as [|[k v] l IH]; simpl; [done|].
  by destruct (String.eqb k c).
Qed.

Lemma sort_values_unfold label ascending df df' :
  sort_values label ascending df = inr df' ->
  exists keys idx,
    assoc label (cols df) = Some keys
    /\ nargsort ascending keys = inr idx
    /\ df' = take idx df.
Proof.
  unfold sort_values.
  destruct (filter _ (cols df)) as [|[k keys] [|? ?]] eqn:Hf; try done.
  destruct (nargsort ascending keys) as [e|idx] eqn:Hn; simpl; [done|].
  intros [= <-]. exists keys, idx. split_and!; try done.
  clear Hn. induction (cols df) as [|[k' v'] l IH]; [done|].
  simpl. rewrite filter_cons in Hf. simpl in Hf.
  destruct (String.eqb_spec k' label) as [->|Hne].
  - rewrite decide_True in Hf by done. by injection Hf as <- <- _.
  - rewrite decide_False in Hf; [auto|]. by intros ?.
Qed.

Lemma sort_values_ok k label ascending df keys :
  NoDup (columns df) ->
  assoc label (cols df) = Some keys ->
  Forall (fun v => isna v = true \/ same_kind k v = true) keys ->
  exists idx, nargsort ascending keys = inr idx
              /\ sort_values label ascending df = inr (take idx df).
Proof.
  intros Hnd Ha Hk. destruct (nargsort_ok k ascending keys Hk) as [idx Hidx].
  exists idx. split; [done|]. unfold sort_values.
  destruct (filter_label_unique label (cols df) Hnd) as (s & -> & Hs).
  { apply assoc_is_Some. by rewrite Ha. }
  rewrite Ha in Hs. injection Hs as <-. by rewrite Hidx.
Qed.

End SortingFacts.

(** * The two libraries meet the contract *)
Section LibraryFacts.

Lemma value_leb_total a b : value_leb a b = true \/ value_leb b a = true.
Proof.
  destruct a as [|x|x|x], b as [|y|y|y]; simpl; auto;
    try (apply String.leb_total); rewrite !Z.leb_le; lia.
Qed.

Lemma combine_seq_fst {A} (l : list A) s :
  map fst (combine (seq s (length l)) l) = seq s (length l).
Proof.
  revert s. induction l as [|x l IH]; intros s; simpl; [done|]. by rewrite IH.
Qed.

Lemma combine_seq_nth {A} (l : list A) d s i k :
  In (i, k) (combine (seq s (length l)) l) ->
  (s <= i)%nat /\ nth (i - s) l d = k.
Proof.
  revert s. induction l as [|x l IH]; intros s; simpl; [done|].
  intros [[= <- <-]|Hin].
  - split; [lia|]. by rewrite Nat.sub_diag.
  - apply IH in Hin as [Hle Hn]. split; [lia|].
    replace (i - s)%nat with (S (i - S s)) by lia. done.
Qed.

Lemma key_le_total tie :
  (forall i j, tie i j = true \/ tie j i = true) -> Total (key_le tie).
Proof.
  intros Ht [i a] [j b]. unfold key_le. simpl.
  destruct (value_leb a b) eqn:Hab, (value_leb b a) eqn:Hba.
  - destruct (Ht i j); [left | right]; done.
  - left. done.
  - right. done.
  - destruct (value_leb_total a b); congruence.
Qed.

Lemma argsort_by_contract tie keys :
  (forall i j, tie i j = true \/ tie j i = true) ->
  Permutation (argsort_by tie keys) (seq 0 (length keys)) /\
  Sorted (fun a b => value_leb a b = true)
         (map (fun i => nth i keys VNull) (argsort_by tie keys)).
Proof.
  intros Ht. pose proof (key_le_total tie Ht) as Htot.
  unfold argsort_by.
  set (pairs := combine (seq 0 (length keys)) keys).
  pose proof (merge_sort_Permutation (key_le tie) pairs) as Hperm.
  split.
  - rewrite <- (combine_seq_fst keys 0). by apply Permutation_map.
  - rewrite map_map.
    rewrite (map_ext_in _ snd).
    + apply (Sorted_fmap snd (key_le tie)); [by intros ?? [? _]|].
      by apply Sorted_merge_sort.
    + intros [i k] Hin. simpl.
      apply (Permutation_in _ Hperm) in Hin.
      apply (combine_seq_nth keys VNull) in Hin as [_ Hn].
      by rewrite Nat.sub_0_r in Hn.
Qed.

Lemma stable_library_contract : argsort_contract stable_library.
Proof.
  intros keys _. apply argsort_by_contract. intros i j. simpl.
  rewrite !Nat.leb_le. lia.
Qed.

Lemma reversing_library_contract : argsort_contract reversing_library.
Proof.
  intros keys _. apply argsort_by_contract. intros i j. simpl.
  rewrite !Nat.leb_le. lia.
Qed.

End LibraryFacts.

Section C2.

Lemma to_datetime_coerce {L : Library} s :
  to_datetime errors_coerce s = inr (map coerce_cell s).
Proof.
  induction s as [|v s IH]; simpl; [done|].
  rewrite IH. unfold coerce_cell.
  destruct v as [| |x|]; simpl; try done.
  by destruct (parse_datetime x).
Qed.


Lemma length_replace_column c s l n :
  length s = n ->
  Forall (fun kv : string * list value => length (snd kv) = n) l ->
  Forall (fun kv : string * list value => length (snd kv) = n) (replace_column c s l).
Proof.
  intros Hs. induction 1 as [|[k v] l Hk Hl IH]; simpl; [done|].
  destruct (String.eqb k c); constructor; auto.
Qed.

Lemma wf_set_column c s df :
  wf df -> length s = nrows df -> wf (set_column c s df).
Proof.
  intros [Hnd Hlen] Hs. split.
  - rewrite columns_set_column. destruct (has_column c df) eqn:E; [done|].
    apply has_column_false in E. apply NoDup_app. split_and!; [done| |apply NoDup_singleton].
    intros x Hx Hx'. apply list_elem_of_singleton in Hx'. by subst.
  - unfold set_column. destruct (has_column c df); simpl.
    + by apply length_replace_column.
    + apply Forall_app. split; [done|]. by constructor.
Qed.

Lemma wf_column_length c df s :
  wf df -> assoc c (cols df) = Some s -> length s = nrows df.
Proof.
  intros [_ Hlen] Ha. induction Hlen as [|[k v] l Hk Hl IH]; simpl in *; [done|].
  destruct (String.eqb k c); [by injection Ha as <- | auto].
Qed.

Lemma sort_step {L : Library} (contract : argsort_contract L) k label ascending d keys :
  wf d ->
  assoc label (cols d) = Some keys ->
  Forall (fun v => isna v = true \/ same_kind k v = true) keys ->
  exists d' sorted_keys,
    sort_values label ascending d = inr d'
    /\ Permutation (rows d') (rows d)
    /\ get_column label d' = inr sorted_keys
    /\ Permutation sorted_keys keys
    /\ sorted_nulls_last ascending sorted_keys.
Proof.
  intros Hwf Ha Hk.
  destruct (sort_values_ok k label ascending d keys (proj1 Hwf) Ha Hk)
    as (idx & Hidx & Hsort).
  pose proof (nargsort_Permutation contract _ _ _ Hidx) as Hperm.
  exists (take idx d), (map (fun i => nth i keys VNull) idx).
  split_and!; [done| | | |].
  - apply rows_take_Permutation.
    by rewrite <- (wf_column_length label d keys).
  - unfold get_column, take. simpl. by rewrite assoc_take, Ha.
  - by apply permuted_indices.
  - by apply (nargsort_sorted contract).
Qed.

Lemma sort_step_inv {L : Library} (contract : argsort_contract L) label ascending d d' :
  wf d ->
  sort_values label ascending d = inr d' ->
  exists keys sorted_keys,
    assoc label (cols d) = Some keys
    /\ Permutation (rows d') (rows d)
    /\ get_column label d' = inr sorted_keys
    /\ Permutation sorted_keys keys
    /\ sorted_nulls_last ascending sorted_keys.
Proof.
  intros Hwf Hs. apply sort_values_unfold in Hs as (keys & idx & Ha & Hidx & ->).
  pose proof (nargsort_Permutation contract _ _ _ Hidx) as Hperm.
  exists keys, (map (fun i => nth i keys VNull) idx).
  split_and!; [done| | | |].
  - apply rows_take_Permutation.
    by rewrite <- (wf_column_length label d keys).
  - unfold get_column, take. simpl. by rewrite assoc_take, Ha.
  - by apply permuted_indices.
  - by apply (nargsort_sorted contract).
Qed.

Lemma coerce_cell_kind {L : Library} v :
  isna (coerce_cell v) = true \/ same_kind (VTime 0) (coerce_cell v) = true.
Proof.
  unfold coerce_cell. destruct v as [| |x|]; simpl; auto.
  destruct (parse_datetime x); simpl; auto.
Qed.

Lemma sort_transfers_spec {L : Library} (contract : argsort_contract L) d :
  wf d -> has_column "Transfer Time" d = true ->
  exists d' times,
    sort_transfers d = ([], inr d')
    /\ Permutation (rows d') (rows (with_column "Transfer Time" coerce_cell d))
    /\ get_column "Transfer Time" d' = inr times
    /\ Permutation times (map coerce_cell (column "Transfer Time" d))
    /\ sorted_nulls_last false times.
Proof.
  intros Hwf Hc. unfold sort_transfers.
  destruct (get_column_ok "Transfer Time" d) as (s & Hg & Ha);
    [by apply has_column_spec|].
  rewrite Hc, Hg. run. rewrite to_datetime_coerce. simpl.
  set (d1 := set_column "Transfer Time" (map coerce_cell s) d).
  assert (Hc1 : has_column "Transfer Time" d1 = true).
  { apply has_column_spec. subst d1. rewrite columns_set_column, Hc.
    by apply has_column_spec. }
  assert (Hwf1 : wf d1).
  { apply wf_set_column; [done|]. rewrite length_map.
    by apply (wf_column_length "Transfer Time"). }
  assert (Ha1 : assoc "Transfer Time" (cols d1) = Some (map coerce_cell s)).
  { apply assoc_set_column_eq. }
  destruct (sort_step contract (VTime 0) "Transfer Time" false d1 _ Hwf1 Ha1)
    as (d' & times & Hs & Hrows & Hget & Hperm & Hsorted).
  { apply Forall_map, Forall_forall. intros v _. apply coerce_cell_kind. }
  rewrite Hc1, Hs. exists d', times. split_and!; try done.
  - unfold with_column, column. by rewrite Ha.
  - unfold column. by rewrite Ha.
Qed.




End C2.

Section C1.

Lemma select_NoDup labels df :
  NoDup (columns df) ->
  Forall (fun c => c ∈ columns df) labels ->
  select labels df = inr (mkDF (nrows df) (map (fun c => (c, column c df)) labels)).
Proof.
  intros Hnd Hl. rewrite select_present by done. do 2 f_equal.
  induction Hl as [|c l Hc Hl IH]; simpl; [done|].
  rewrite IH. destruct (filter_label_unique c (cols df) Hnd Hc) as (s & -> & Hs).
  unfold column. by rewrite Hs.
Qed.

Lemma available_present present desired :
  Forall (fun c => c ∈ present) (available_in present desired).
Proof.
  apply Forall_forall. intros c Hc. apply list_elem_of_filter in Hc as [Hc _].
  by apply bool_decide_unpack in Hc.
Qed.

Lemma elem_of_available present desired c :
  c ∈ available_in present desired <-> c ∈ desired /\ c ∈ present.
Proof.
  unfold available_in. rewrite list_elem_of_filter.
  split; intros [H1 H2]; split; try done.
  - by apply bool_decide_unpack in H1.
  - by apply bool_decide_pack.
Qed.

Lemma elem_of_missing present desired c :
  c ∈ missing_from present desired <-> c ∈ desired /\ c ∉ present.
Proof.
  unfold missing_from.
  rewrite elem_of_difference, !elem_of_list_to_set, elem_of_available.
  split; [intros [H1 H2]; split; [done|]; intros H3; apply H2; done
         | intros [H1 H2]; split; [done|]; by intros [_ H3]].
Qed.

Lemma select_transfers_spec d :
  NoDup (columns d) ->
  select_transfers d =
  (warning_for "The following columns are missing and will be excluded: "
               (missing_from (columns d) desired_columns),
   inr (mkDF (nrows d)
          (map (fun c => (display transfers_labels c, column c d))
               (available_in (columns d) desired_columns)))).
Proof.
  intros Hnd. unfold select_transfers.
  change (filter (fun col => has_column col d) desired_columns)
    with (available_in (columns d) desired_columns).
  change (list_to_set desired_columns ∖ list_to_set (available_in (columns d) desired_columns))
    with (missing_from (columns d) desired_columns).
  rewrite (select_NoDup _ d Hnd (available_present _ _)).
  unfold warning_for, rename, display.
  destruct (bool_decide _); run; by rewrite ?app_nil_r, !map_map.
Qed.

Lemma select_history_spec d :
  NoDup (columns (renamed_history d)) ->
  select_history d =
  (warning_for "The following history columns are missing and will be excluded: "
               (missing_from (columns (renamed_history d)) desired_history_columns),
   inr (mkDF (nrows d)
          (map (fun c => (c, column c (renamed_history d)))
               (available_in (columns (renamed_history d)) desired_history_columns)))).
Proof.
  intros Hnd. unfold select_history. cbv zeta. fold (renamed_history d).
  change (filter (fun col => has_column col (renamed_history d)) desired_history_columns)
    with (available_in (columns (renamed_history d)) desired_history_columns).
  change (list_to_set desired_history_columns
          ∖ list_to_set (available_in (columns (renamed_history d)) desired_history_columns))
    with (missing_from (columns (renamed_history d)) desired_history_columns).
  rewrite (select_NoDup _ _ Hnd (available_present _ _)).
  unfold warning_for. destruct (bool_decide _); run; by rewrite ?app_nil_r.
Qed.

End C1.

Section C1b.
Context {L : Library}.

Lemma unique_gameweek_points l :
  unique (concat (map (map fst) (gameweek_points_rows l))) =
  match l with [] => [] | _ => ["event"; "points"] end.
Proof.
  induction l as [|gp l IH]; [done|].
  simpl. fold (gameweek_points_rows l). rewrite IH. by destruct l.
Qed.

Lemma json_normalize_gameweek_points gp rest :
  json_normalize (gameweek_points_rows (gp :: rest)) =
  mkDF (S (length rest))
       [("event", map (fun gp => VInt (fst gp)) (gp :: rest));
        ("points", map (fun gp => VInt (snd gp)) (gp :: rest))].
Proof.
  unfold json_normalize. rewrite unique_gameweek_points.
  unfold gameweek_points_rows. rewrite length_map. simpl.
  by rewrite !map_map.
Qed.

Lemma sort_keeps_columns label ascending d d' :
  sort_values label ascending d = inr d' -> columns d' = columns d.
Proof.
  intros H. apply sort_values_unfold in H as (? & ? & _ & _ & ->).
  apply columns_take.
Qed.

Lemma sort_transfers_columns d d' :
  outcome (sort_transfers d) = inr d' -> columns d' = columns d.
Proof.
  unfold sort_transfers. destruct (has_column "Transfer Time" d) eqn:Hc.
  - destruct (get_column_ok "Transfer Time" d) as (s & Hg & Ha);
      [by apply has_column_spec|].
    rewrite Hg. run. rewrite to_datetime_coerce. simpl.
    assert (Hcols : columns (set_column "Transfer Time" (map coerce_cell s) d) = columns d)
      by (by rewrite columns_set_column, Hc).
    destruct (has_column "Transfer Time" (set_column _ _ d)); simpl.
    + destruct (sort_values _ _ _) as [e|d1] eqn:Hs; simpl; [done|].
      intros [= <-]. by rewrite (sort_keeps_columns _ _ _ _ Hs).
    + by intros [= <-].
  - run. rewrite Hc. simpl. by intros [= <-].
Qed.

Lemma sort_history_columns d d' :
  outcome (sort_history d) = inr d' -> columns d' = columns d.
Proof.
  unfold sort_history. destruct (has_column "Gameweek" d); run.
  - intros Hs. by apply sort_keeps_columns in Hs.
  - by intros [= <-].
Qed.

(** C1.  The selection step of either tab keeps exactly the desired columns
    that the table has, in the order of the desired list and with the cells
    of the input, and reports the others in one warning; no exception is
    raised, and the sort that follows leaves the columns as they are.  A
    history response whose rows hold [event] and [points] is shaped into
    the columns Gameweek and Points, with the seven other display columns
    reported missing. *)
Theorem columns_available_or_reported :
  (forall d, NoDup (columns d) ->
     select_transfers d =
     (warning_for "The following columns are missing and will be excluded: "
                  (missing_from (columns d) desired_columns),
      inr (mkDF (nrows d)
             (map (fun c => (display transfers_labels c, column c d))
                  (available_in (columns d) desired_columns)))))
  /\ (forall d, NoDup (columns (renamed_history d)) ->
        select_history d =
        (warning_for "The following history columns are missing and will be excluded: "
                     (missing_from (columns (renamed_history d)) desired_history_columns),
         inr (mkDF (nrows d)
                (map (fun c => (c, column c (renamed_history d)))
                     (available_in (columns (renamed_history d))
                                   desired_history_columns)))))
  /\ (forall present desired c,
        (c ∈ available_in present desired <-> c ∈ desired /\ c ∈ present)
        /\ (c ∈ missing_from present desired <-> c ∈ desired /\ c ∉ present))
  /\ (forall d d', outcome (sort_transfers d) = inr d' -> columns d' = columns d)
  /\ (forall d d', outcome (sort_history d) = inr d' -> columns d' = columns d)
  /\ (forall gp rest,
        exists d',
          shape_history (json_normalize (gameweek_points_rows (gp :: rest))) =
          ([st_warning "The following history columns are missing and will be excluded: "
              (list_to_set ["Overall Rank"; "Rank"; "Total Points"; "Bank";
                            "Transfers"; "Transfers Cost"; "Bench Points"])],
           inr d')
          /\ columns d' = ["Gameweek"; "Points"]).
Proof.
  split_and!.
  - apply select_transfers_spec.
  - apply select_history_spec.
  - intros. split; [apply elem_of_available | apply elem_of_missing].
  - apply sort_transfers_columns.
  - apply sort_history_columns.
  - intros gp rest. rewrite json_normalize_gameweek_points.
    set (n := S (length rest)).
    set (e := map (fun gp => VInt (fst gp)) (gp :: rest)).
    set (p := map (fun gp => VInt (snd gp)) (gp :: rest)).
    unfold shape_history.
    assert (Hsel : select_history (mkDF n [("event", e); ("points", p)]) =
      ([st_warning "The following history columns are missing and will be excluded: "
          (list_to_set ["Overall Rank"; "Rank"; "Total Points"; "Bank";
                        "Transfers"; "Transfers Cost"; "Bench Points"])],
       inr (mkDF n [("Gameweek", e); ("Points", p)]))).
    { vm_compute. reflexivity. }
    rewrite Hsel. run.
    destruct (sort_values_ok (VInt 0) "Gameweek" true
                (mkDF n [("Gameweek", e); ("Points", p)]) e) as (idx & _ & Hs).
    + by_decide.
    + done.
    + subst e. apply Forall_map, Forall_forall. intros; simpl; auto.
    + unfold sort_history.
      replace (has_column "Gameweek" (mkDF n [("Gameweek", e); ("Points", p)]))
        with true by (by vm_compute).
      run. rewrite Hs. eexists. split; [reflexivity|]. by rewrite columns_take.
Qed.

End C1b.

Section C3.
Context {L : Library}.

Lemma fetch_with_run {J A} what url (o : http_outcome J) (process : J -> result A) :
  fetch_with what url o process = ([requests_get url], fetch_result what url o process).
Proof.
  unfold fetch_with, fetch_result, get, raise_for_status, json, wrap_errors,
    is_error_status, status_error, wrapped, http_message, other_message.
  destruct o as [msg|status reason body]; run; [done|].
  destruct (400 <=? status) eqn:H4, (status <? 500) eqn:H5; simpl.
  - assert (Hlt : (status <? 600) = true) by (apply Z.ltb_lt; apply Z.ltb_lt in H5; lia).
    by rewrite Hlt.
  - assert (H6 : (500 <=? status) = true) by (apply Z.leb_le; apply Z.ltb_ge in H5; lia).
    rewrite H6. simpl. destruct (status <? 600); simpl; [done|].
    destruct body as [j|]; simpl; [|done].
    destruct (process j) as [e|a]; simpl; [|done]. by destruct (is_http_error e).
  - assert (H6 : (500 <=? status) = false) by (apply Z.leb_gt; apply Z.leb_gt in H4; lia).
    rewrite H6. simpl. destruct body as [j|]; simpl; [|done].
    destruct (process j) as [e|a]; simpl; [|done]. by destruct (is_http_error e).
  - assert (H6 : (500 <=? status) = false) by (apply Z.leb_gt; apply Z.leb_gt in H4; lia).
    rewrite H6. simpl. destruct body as [j|]; simpl; [|done].
    destruct (process j) as [e|a]; simpl; [|done]. by destruct (is_http_error e).
Qed.

Lemma fetch_with_errors {J A} what url (o : http_outcome J) (process : J -> result A) :
  (forall j e, process j = inl e -> is_http_error e = false) ->
  two_tier_errors what url o (fetch_with what url o process).
Proof.
  intros Hproc. rewrite fetch_with_run. unfold two_tier_errors, outcome, trace. simpl.
  split; [done|]. unfold fetch_result.
  destruct o as [msg|status reason body].
  - split_and!.
    + intros e [= <-]. exists (ConnectionError msg). right. by split_and!.
    + done.
    + by intros ? [= <-].
    + done.
  - destruct (is_error_status status) eqn:Hs.
    + split_and!.
      * intros e [= <-]. eexists. left. split_and!; [reflexivity|done|]. eauto.
      * eauto.
      * done.
      * intros; simplify_eq; congruence.
    + destruct body as [j|]; [destruct (process j) as [e|a] eqn:Hp|].
      * split_and!.
        -- intros e' [= <-]. exists e. right. unfold wrapped.
           rewrite (Hproc _ _ Hp). split_and!; try done.
           intros. by simplify_eq.
        -- intros; simplify_eq; congruence.
        -- done.
        -- intros; simplify_eq; congruence.
      * split_and!.
        -- done.
        -- intros; simplify_eq; congruence.
        -- done.
        -- intros; simplify_eq; congruence.
      * split_and!.
        -- intros e' [= <-]. exists decode_error. right. split_and!; try done.
           intros. by simplify_eq.
        -- intros; simplify_eq; congruence.
        -- done.
        -- intros. eauto.
Qed.

Lemma fetch_players_with up :
  fetch_players up =
  fetch_with "players" players_url (players_endpoint up) process_players.
Proof.
  unfold fetch_players, process_players. fetch_cases.
  destruct (elements _); simpl; [|done].
  by destruct (player_dict _ _).
Qed.

Lemma fetch_transfers_with up TID :
  fetch_transfers up TID =
  fetch_with "transfers" (transfers_url TID) (transfers_endpoint up TID)
             process_transfers.
Proof.
  unfold fetch_transfers, process_transfers. fetch_cases;
    (destruct (has_column _ _); simpl; [|done];
     destruct (get_column _ _); simpl; [done|];
     by destruct (to_datetime _ _)).
Qed.

Lemma fetch_history_with up TID :
  fetch_history up TID =
  fetch_with "history" (history_url TID) (history_endpoint up TID) process_history.
Proof.
  unfold fetch_history, process_history. fetch_cases; by destruct (all_history _).
Qed.

Lemma player_dict_error players acc e :
  player_dict players acc = inl e -> is_http_error e = false.
Proof.
  revert acc. induction players as [|p l IH]; intros acc; simpl; [done|].
  destruct (assoc "id" p); [|by intros [= <-]].
  destruct (assoc "web_name" p); [|by intros [= <-]]. apply IH.
Qed.

Lemma process_players_error j e :
  process_players j = inl e -> is_http_error e = false.
Proof.
  unfold process_players. destruct (elements j); simpl; [|by intros [= <-]].
  apply player_dict_error.
Qed.

Lemma to_datetime_error errors s e :
  to_datetime errors s = inl e -> is_http_error e = false.
Proof.
  induction s as [|v s IH]; simpl; [done|].
  destruct (to_datetime_cell errors v) as [e'|v'] eqn:Hv; simpl.
  - intros [= <-]. destruct v as [| |x|]; simpl in Hv; try done.
    destruct (parse_datetime x); [done|]. destruct errors; [|done].
    by injection Hv as <-.
  - destruct (to_datetime errors s); simpl; [|done]. intros [= <-]. by apply IH.
Qed.

Lemma process_transfers_error j e :
  process_transfers j = inl e -> is_http_error e = false.
Proof.
  unfold process_transfers. cbv zeta. destruct (has_column _ _); [|done].
  unfold get_column. destruct (assoc _ _); simpl; [|by intros [= <-]].
  destruct (to_datetime _ _) eqn:Ht; simpl; [|done].
  intros [= <-]. by apply to_datetime_error in Ht.
Qed.

Lemma process_history_error j e :
  process_history j = inl e -> is_http_error e = false.
Proof. unfold process_history. by destruct (all_history j). Qed.

End C3.

Section Runs.
Context {L : Library}.

Lemma fetch_players_run up :
  fetch_players up =
  ([requests_get players_url],
   fetch_result "players" players_url (players_endpoint up) process_players).
Proof. by rewrite fetch_players_with, fetch_with_run. Qed.

Lemma fetch_transfers_run up TID :
  fetch_transfers up TID =
  ([requests_get (transfers_url TID)],
   fetch_result "transfers" (transfers_url TID) (transfers_endpoint up TID)
                process_transfers).
Proof. by rewrite fetch_transfers_with, fetch_with_run. Qed.

Lemma fetch_history_run up TID :
  fetch_history up TID =
  ([requests_get (history_url TID)],
   fetch_result "history" (history_url TID) (history_endpoint up TID) process_history).
Proof. by rewrite fetch_history_with, fetch_with_run. Qed.

Lemma fetch_result_error {J A} what url (o : http_outcome J) (process : J -> result A) e :
  fetch_result what url o process = inl e -> is_runtime_error e = true.
Proof.
  unfold fetch_result, wrapped.
  destruct o as [|status reason [j|]]; [by intros [= <-]| |].
  - destruct (is_error_status status); [by intros [= <-]|].
    destruct (process j); [by intros [= <-] | done].
  - destruct (is_error_status status); by intros [= <-].
Qed.

Lemma transfers_tab_failed up players TID e :
  outcome (fetch_transfers up TID) = inl e ->
  transfers_tab up players TID =
  ([with_tab 0; st_header "Your Transfer History"; requests_get (transfers_url TID);
    st_error e; st_info "No transfer data available for this Team ID."], inr tt).
Proof.
  unfold transfers_tab. rewrite fetch_transfers_run. unfold outcome. simpl. intros He.
  pose proof (fetch_result_error _ _ _ _ _ He) as Hr.
  unfold try_except. run. rewrite He. simpl. by rewrite Hr.
Qed.

Lemma history_tab_failed up TID e :
  outcome (fetch_history up TID) = inl e ->
  history_tab up TID =
  ([with_tab 1; st_header "Your Performance History"; requests_get (history_url TID);
    st_error e; st_info "No performance history data available for this Team ID."],
   inr tt).
Proof.
  unfold history_tab. rewrite fetch_history_run. unfold outcome. simpl. intros He.
  pose proof (fetch_result_error _ _ _ _ _ He) as Hr.
  unfold try_except. run. rewrite He. simpl. by rewrite Hr.
Qed.

Lemma main_directory_failed up TID e :
  isdigit TID = true ->
  outcome (fetch_players up) = inl e ->
  main up TID =
  (page_top ++ [st_spinner "Fetching player data..."; requests_get players_url; st_error e],
   inl StopException).
Proof.
  intros Hd. unfold main. rewrite fetch_players_run. unfold outcome. simpl. intros He.
  pose proof (fetch_result_error _ _ _ _ _ He) as Hr.
  assert (Ht : truthy TID = true) by (by destruct TID).
  rewrite Ht, Hd. unfold try_except. run. rewrite He. simpl. by rewrite Hr.
Qed.

Lemma main_not_numeric up TID :
  TID <> "" ->
  isdigit TID = false ->
  main up TID =
  (page_top ++ [st_info "Please enter your Team ID to proceed."; st_divider; donate_message],
   inr tt).
Proof.
  intros Hne Hd. unfold main.
  assert (Ht : truthy TID = true) by (by destruct TID).
  by rewrite Ht, Hd.
Qed.

End Runs.

Section FetchFacts.
Context {L : Library}.

Lemma elem_of_unique {A} `{EqDecision A} (l : list A) x : x ∈ unique l <-> x ∈ l.
Proof.
  induction l as [|y l IH]; simpl; [done|].
  rewrite !elem_of_cons, list_elem_of_filter, IH.
  destruct (decide (x = y)) as [->|Hne]; [by split; auto|].
  split; [intros [?|[_ ?]]; auto | intros [?|?]; auto].
Qed.

Lemma NoDup_unique {A} `{EqDecision A} (l : list A) : NoDup (unique l).
Proof.
  induction l as [|y l IH]; simpl; [constructor|].
  constructor; [|by apply NoDup_filter].
  rewrite list_elem_of_filter. by intros [? _].
Qed.

Lemma assoc_tabulate {A} (f : string -> A) (l : list string) c :
  assoc c (map (fun c => (c, f c)) l) = if decide (c ∈ l) then Some (f c) else None.
Proof.
  induction l as [|k l IH]; simpl; [done|].
  destruct (String.eqb_spec k c) as [->|Hne].
  - by rewrite decide_True by left.
  - rewrite IH. destruct (decide (c ∈ l)).
    + by rewrite decide_True by (by right).
    + rewrite decide_False; [done|]. rewrite elem_of_cons. by intros [?|?].
Qed.

Lemma columns_json_normalize records :
  columns (json_normalize records) = unique (concat (map (map fst) records)).
Proof. unfold columns, json_normalize. simpl. rewrite map_map. simpl. apply map_id. Qed.

Lemma elem_of_columns_json_normalize records c :
  c ∈ columns (json_normalize records)
  <-> exists r, r ∈ records /\ is_Some (assoc c r).
Proof.
  rewrite columns_json_normalize, elem_of_unique, list_elem_of_In, in_concat.
  split.
  - intros (ks & Hks & Hc). apply in_map_iff in Hks as (r & <- & Hr).
    exists r. split; [by apply list_elem_of_In|].
    by apply assoc_is_Some, list_elem_of_In.
  - intros (r & Hr & Hc). exists (map fst r). split.
    + apply in_map. by apply list_elem_of_In.
    + by apply list_elem_of_In, assoc_is_Some.
Qed.

Lemma column_json_normalize records c :
  c ∈ columns (json_normalize records) ->
  assoc c (cols (json_normalize records)) = Some (cells c records).
Proof.
  rewrite columns_json_normalize. intros Hc. unfold json_normalize. simpl.
  rewrite (assoc_tabulate (fun c => map (fun r => default VNull (assoc c r)) records)).
  by rewrite decide_True.
Qed.

Lemma wf_json_normalize records : wf (json_normalize records).
Proof.
  split.
  - rewrite columns_json_normalize. apply NoDup_unique.
  - unfold json_normalize. simpl. apply Forall_map, Forall_forall.
    intros c _. simpl. by rewrite length_map.
Qed.



Lemma length_to_datetime errors s s' :
  to_datetime errors s = inr s' -> length s' = length s.
Proof.
  revert s'. induction s as [|v s IH]; intros s'; simpl; [by intros [= <-]|].
  destruct (to_datetime_cell errors v); simpl; [done|].
  destruct (to_datetime errors s); simpl; [done|].
  intros [= <-]. simpl. f_equal. by apply IH.
Qed.

(** The table [fetch_transfers] builds from decoded records. *)
Lemma process_transfers_ok records df :
  process_transfers records = inr df ->
  wf df
  /\ nrows df = length records
  /\ columns df = (if has_column "time" (json_normalize records)
                   then columns (json_normalize records)
                   else columns (json_normalize records) ++ ["time"])
  /\ (forall c, c <> "time" ->
        assoc c (cols df) = assoc c (cols (json_normalize records)))
  /\ exists time,
       assoc "time" (cols df) = Some time
       /\ (if has_column "time" (json_normalize records)
           then to_datetime errors_raise (cells "time" records) = inr time
           else time = repeat VNull (length records)).
Proof.
  unfold process_transfers. cbv zeta.
  pose proof (wf_json_normalize records) as Hwf.
  destruct (has_column "time" (json_normalize records)) eqn:Hc.
  - apply has_column_spec in Hc as Hc'.
    unfold get_column. rewrite (column_json_normalize _ _ Hc'). simpl.
    destruct (to_datetime errors_raise (cells "time" records)) as [e|time] eqn:Ht;
      simpl; [done|].
    intros [= <-]. split_and!.
    + apply wf_set_column; [done|]. rewrite (length_to_datetime _ _ _ Ht).
      unfold cells. by rewrite length_map.
    + by rewrite nrows_set_column.
    + by rewrite columns_set_column, Hc.
    + intros c Hne. by apply assoc_set_column_ne.
    + exists time. split; [|done]. apply assoc_set_column_eq.
  - intros [= <-]. unfold set_scalar. split_and!.
    + apply wf_set_column; [done|]. by rewrite repeat_length.
    + by rewrite nrows_set_column.
    + by rewrite columns_set_column, Hc.
    + intros c Hne. by apply assoc_set_column_ne.
    + exists (repeat VNull (length records)). split; [|done]. apply assoc_set_column_eq.
Qed.

Lemma fetch_result_ok {J A} what url (o : http_outcome J) (process : J -> result A) a :
  fetch_result what url o process = inr a ->
  exists status reason j,
    o = Response status reason (Some j)
    /\ is_error_status status = false
    /\ process j = inr a.
Proof.
  unfold fetch_result. destruct o as [|status reason [j|]]; [done| |].
  - destruct (is_error_status status) eqn:Hs; [done|].
    destruct (process j) eqn:Hp; [done|]. intros [= <-]. by exists status, reason, j.
  - by destruct (is_error_status status).
Qed.

Lemma fetch_result_response {J A} what url status reason (j : J) (process : J -> result A) :
  is_error_status status = false ->
  fetch_result what url (Response status reason (Some j)) process =
  match process j with
  | inl e => inl (wrapped what e)
  | inr a => inr a
  end.
Proof. intros Hs. unfold fetch_result. by rewrite Hs. Qed.

End FetchFacts.

Section FetchTheorems.
Context {L : Library}.

(** C4.  From a decoded history response, [fetch_history] makes one table
    whose rows are the records of [current] followed by the records of the
    nested [history] array of every entry of [past], in that order: one row
    per record, one column per key met, each cell the record's value for the
    key.  When there is no such record the result is the empty table, not an
    error, and the tab reports that no performance history is available. *)
Theorem history_rows_flattened (up : Upstream) (TID : string)
    (status : Z) (reason : string) (history_data : history_json) :
  history_endpoint up TID = Response status reason (Some history_data) ->
  is_error_status status = false ->
  let records :=
    default [] (current history_data)
    ++ concat (map (fun season => default [] (season_history season))
                   (default [] (past history_data))) in
  (exists df,
     fetch_history up TID = ([requests_get (history_url TID)], inr df)
     /\ nrows df = length records
     /\ (forall c, c ∈ columns df <-> exists r, r ∈ records /\ is_Some (assoc c r))
     /\ (forall c, c ∈ columns df -> column c df = cells c records))
  /\ (records = [] ->
      fetch_history up TID = ([requests_get (history_url TID)], inr empty_frame)
      /\ history_tab up TID =
         ([with_tab 1; st_header "Your Performance History";
           requests_get (history_url TID);
           st_info "No performance history data available for this Team ID."],
          inr tt)).
Proof.
  intros Ho Hs records.
  assert (Hrun : fetch_history up TID =
                 ([requests_get (history_url TID)],
                  inr (match records with
                       | [] => empty_frame
                       | _ => json_normalize records
                       end))).
  { rewrite fetch_history_run, Ho, (fetch_result_response _ _ _ _ _ _ Hs).
    unfold process_history. fold records. change (all_history history_data) with records.
    by destruct records. }
  split.
  - rewrite Hrun. eexists. split; [reflexivity|].
    destruct records as [|r records'] eqn:Hr.
    + split_and!; [done| |].
      * intros c. split; [by intros ?%elem_of_nil|]. by intros (? & ?%elem_of_nil & _).
      * by intros c ?%elem_of_nil.
    + rewrite <- Hr. split_and!; [done| |].
      * apply elem_of_columns_json_normalize.
      * intros c Hc. unfold column. by rewrite (column_json_normalize _ _ Hc).
  - intros Hnil. rewrite Hnil in Hrun. split; [done|].
    unfold history_tab. rewrite Hrun. by run.
Qed.



End FetchTheorems.

Section C7.
Context {L : Library}.
Hypothesis contract : argsort_contract L.

Lemma drop_present labels df :
  Forall (fun c => c ∈ columns df) labels ->
  drop labels df =
  inr (mkDF (nrows df)
         (filter (fun kv => negb (bool_decide (fst kv ∈ labels))) (cols df))).
Proof.
  intros H. unfold drop.
  replace (filter (fun c => negb (has_column c df)) labels) with (@nil string); [done|].
  symmetry. induction H as [|c l Hc Hl IH]; [done|].
  rewrite filter_cons_False; [done|].
  apply has_column_spec in Hc. rewrite Hc. simpl. auto.
Qed.

Lemma assoc_filter_keep (labels : list string) c (l : list (string * list value)) :
  c ∉ labels ->
  assoc c (filter (fun kv => negb (bool_decide (fst kv ∈ labels))) l) = assoc c l.
Proof.
  intros Hc. induction l as [|[k v] l IH]; [done|].
  destruct (decide (k ∈ labels)) as [Hk|Hk].
  - rewrite filter_cons_False.
    2: { simpl. rewrite bool_decide_eq_true_2 by done. simpl. tauto. }
    rewrite IH. simpl. destruct (String.eqb_spec k c); [congruence | done].
  - rewrite filter_cons_True.
    2: { simpl. by rewrite bool_decide_eq_false_2 by done. }
    simpl. by rewrite IH.
Qed.

Lemma NoDup_map_filter {A B} (g : A -> B) (P : A -> Prop)
    `{forall x, Decision (P x)} (l : list A) :
  NoDup (map g l) -> NoDup (map g (filter P l)).
Proof.
  induction l as [|x l IH]; simpl; intros Hnd; [done|].
  apply NoDup_cons in Hnd as [Hx Hnd]. rewrite filter_cons.
  destruct (decide (P x)); simpl; [|auto].
  apply NoDup_cons. split; [|auto].
  intros Hin. apply Hx. apply list_elem_of_In, in_map_iff.
  apply list_elem_of_In, in_map_iff in Hin as (y & Hy & Hin).
  exists y. split; [done|]. apply list_elem_of_In.
  apply list_elem_of_In, list_elem_of_filter in Hin. tauto.
Qed.

Lemma wf_filter_columns (P : string * list value -> Prop) `{forall kv, Decision (P kv)} n l :
  NoDup (map fst l) ->
  Forall (fun kv : string * list value => length (snd kv) = n) l ->
  NoDup (map fst (filter P l))
  /\ Forall (fun kv : string * list value => length (snd kv) = n) (filter P l).
Proof.
  intros Hnd Hlen. split.
  - by apply NoDup_map_filter.
  - apply Forall_forall. intros kv Hkv. apply list_elem_of_filter in Hkv as [_ Hkv].
    rewrite Forall_forall in Hlen. auto.
Qed.

Lemma length_series_map m s : length (series_map m s) = length s.
Proof. unfold series_map. apply length_map. Qed.

(** Naming the players never fails and touches no other column. *)
Lemma name_players_spec players d :
  wf d ->
  exists tr d1,
    name_players players d = (tr, inr d1)
    /\ wf d1
    /\ nrows d1 = nrows d
    /\ forall c, c ∉ player_labels -> assoc c (cols d1) = assoc c (cols d).
Proof.
  intros Hwf. unfold name_players.
  destruct (has_column "element_in" d && has_column "element_out" d) eqn:Hboth.
  - apply andb_true_iff in Hboth as [Hin Hout].
    apply has_column_spec in Hin, Hout.
    destruct (get_column_ok _ _ Hin) as (ein & Hgin & Hain).
    rewrite Hgin. run.
    set (d2 := set_column "Player In" (series_map players ein) d).
    assert (Hwf2 : wf d2).
    { apply wf_set_column; [done|]. rewrite length_series_map.
      by apply (wf_column_length "element_in"). }
    assert (Hout2 : "element_out" ∈ columns d2).
    { apply assoc_is_Some. subst d2. rewrite assoc_set_column_ne by done.
      by apply assoc_is_Some. }
    destruct (get_column_ok _ _ Hout2) as (eout & Hgout & Haout).
    rewrite Hgout. run.
    set (d3 := set_column "Player Out" (series_map players eout) d2).
    assert (Hwf3 : wf d3).
    { apply wf_set_column; [done|]. rewrite length_series_map.
      by apply (wf_column_length "element_out"). }
    assert (Hin3 : "element_in" ∈ columns d3).
    { apply assoc_is_Some. subst d3 d2. rewrite !assoc_set_column_ne by done.
      by apply assoc_is_Some. }
    assert (Hout3 : "element_out" ∈ columns d3).
    { apply assoc_is_Some. subst d3. rewrite assoc_set_column_ne by done.
      by apply assoc_is_Some. }
    pose proof (proj2 (has_column_spec _ _) Hin3) as ->.
    pose proof (proj2 (has_column_spec _ _) Hout3) as ->. simpl.
    rewrite drop_present by (repeat constructor; done). simpl.
    eexists _, _. split; [reflexivity|].
    destruct Hwf3 as [Hnd3 Hlen3].
    destruct (wf_filter_columns
                (fun kv => negb (bool_decide (fst kv ∈ ["element_in"; "element_out"])))
                (nrows d3) (cols d3) Hnd3 Hlen3) as [Hnd4 Hlen4].
    split_and!.
    + by split.
    + subst d3 d2. by rewrite !nrows_set_column.
    + intros c Hc. simpl.
      assert (c <> "Player In" /\ c <> "Player Out" /\ c <> "element_in" /\ c <> "element_out")
        as (H1 & H2 & H3 & H4).
      { unfold player_labels in Hc. rewrite !not_elem_of_cons in Hc. tauto. }
      rewrite assoc_filter_keep.
      * subst d3 d2. by rewrite !assoc_set_column_ne.
      * rewrite !not_elem_of_cons. split_and!; try done. apply not_elem_of_nil.
  - run. rewrite Hboth. simpl. eexists _, _. split; [reflexivity|]. by split_and!.
Qed.

Lemma assoc_relabel {A} (g : string -> string) (f : string -> A) (l : list string) c :
  NoDup (map g l) -> c ∈ l ->
  assoc (g c) (map (fun c => (g c, f c)) l) = Some (f c).
Proof.
  induction l as [|k l IH]; simpl; intros Hnd Hc; [by apply elem_of_nil in Hc|].
  apply NoDup_cons in Hnd as [Hk Hnd].
  destruct (String.eqb_spec (g k) (g c)) as [Heq|Hne].
  - apply elem_of_cons in Hc as [->|Hc]; [done|].
    exfalso. apply Hk. rewrite Heq. apply list_elem_of_In, in_map.
    by apply list_elem_of_In.
  - apply elem_of_cons in Hc as [->|Hc]; [done | auto].
Qed.

(** The table that reaches the sort of the transfers tab. *)
Lemma select_transfers_time d :
  wf d -> has_column "time" d = true ->
  exists tr d2,
    select_transfers d = (tr, inr d2)
    /\ wf d2
    /\ nrows d2 = nrows d
    /\ assoc "Transfer Time" (cols d2) = assoc "time" (cols d).
Proof.
  intros [Hnd Hlen] Hc. rewrite (select_transfers_spec d Hnd).
  eexists _, _. split; [reflexivity|].
  assert (Hnd2 : NoDup (map (display transfers_labels)
                            (available_in (columns d) desired_columns))).
  { apply NoDup_map_filter. by_decide. }
  assert (Ht : "time" ∈ available_in (columns d) desired_columns).
  { apply elem_of_available. split; [|by apply has_column_spec].
    unfold desired_columns. rewrite !elem_of_cons. tauto. }
  split_and!.
  - split.
    + unfold columns. simpl. by rewrite map_map.
    + simpl. apply Forall_map, Forall_forall. intros c Hin. simpl.
      apply elem_of_available in Hin as [_ Hin].
      apply assoc_is_Some in Hin as [s Hs]. unfold column. rewrite Hs. simpl.
      by apply (wf_column_length c d s).
  - done.
  - simpl.
    change "Transfer Time" with (display transfers_labels "time").
    rewrite (assoc_relabel (display transfers_labels) (fun c => column c d)) by done.
    unfold column. apply has_column_spec, assoc_is_Some in Hc as [s Hs]. by rewrite Hs.
Qed.

Lemma coerce_nulls n : map coerce_cell (repeat VNull n) = repeat VNull n.
Proof. induction n as [|n IH]; simpl; [done|]. by rewrite IH. Qed.

End C7.

Section C8.
Context {L : Library}.
Hypothesis contract : argsort_contract L.

Lemma nth_map_in_range {A B} (f : A -> B) (l : list A) i d d' :
  (i < length l)%nat -> nth i (map f l) d' = f (nth i l d).
Proof.
  intros Hi. rewrite (nth_indep _ d' (f d)) by (by rewrite length_map).
  apply map_nth.
Qed.

Lemma take_two_columns kl cl (keys : list value) (f : value -> value) idx :
  Forall (fun i => (i < length keys)%nat) idx ->
  take idx (mkDF (length keys) [(kl, keys); (cl, map f keys)]) =
  mkDF (length (map (fun i => nth i keys VNull) idx))
       [(kl, map (fun i => nth i keys VNull) idx);
        (cl, map f (map (fun i => nth i keys VNull) idx))].
Proof.
  intros Hidx. unfold take. simpl. rewrite length_map. do 3 f_equal.
  f_equal. rewrite map_map. apply map_ext_in. intros i Hi.
  rewrite Forall_forall in Hidx. apply nth_map_in_range, Hidx.
  by apply list_elem_of_In.
Qed.

Lemma count_cells_kind s keys :
  Forall (fun v => isna v = true \/ same_kind (VInt 0) v = true) (map (count_cell s) keys).
Proof. apply Forall_map, Forall_forall. intros; simpl; auto. Qed.

(** The value counts of a column: its distinct non-null cells, in some
    order, each with its number of occurrences. *)
Lemma value_counts_spec kl cl s :
  exists K,
    value_counts kl cl s = inr (mkDF (length K) [(kl, K); (cl, map (count_cell s) K)])
    /\ Permutation K (unique (filter (fun v => negb (isna v)) s)).
Proof.
  unfold value_counts. cbv zeta.
  set (keys := unique (filter (fun v => negb (isna v)) s)).
  change (map (fun k => VInt (Z.of_nat (occurrences k s))) keys)
    with (map (count_cell s) keys).
  destruct (nargsort_ok (VInt 0) false (map (count_cell s) keys) (count_cells_kind s keys))
    as [idx Hidx].
  rewrite Hidx. simpl.
  pose proof (nargsort_Permutation contract _ _ _ Hidx) as Hperm.
  rewrite length_map in Hperm.
  exists (map (fun i => nth i keys VNull) idx). split.
  - f_equal. apply take_two_columns. by apply indices_in_range.
  - by apply permuted_indices.
Qed.

Lemma assoc_value_tabulate (f : value -> value) (l : list value) k :
  assoc_value k (combine l (map f l)) = if decide (k ∈ l) then Some (f k) else None.
Proof.
  induction l as [|x l IH]; simpl; [done|].
  destruct (decide (x = k)) as [->|Hne].
  - by rewrite decide_True by left.
  - rewrite IH. destruct (decide (k ∈ l)).
    + by rewrite decide_True by (by right).
    + rewrite decide_False; [done|]. rewrite elem_of_cons. by intros [?|?].
Qed.

Lemma occurrences_absent p s : p ∉ s -> occurrences p s = 0%nat.
Proof.
  intros Hp. unfold occurrences.
  replace (filter (fun x => x = p) s) with (@nil value); [done|].
  symmetry. induction s as [|x s IH]; [done|].
  apply not_elem_of_cons in Hp as [Hne Hp].
  rewrite filter_cons_False by congruence. auto.
Qed.

Lemma elem_of_counted K s p :
  Permutation K (unique (filter (fun v => negb (isna v)) s)) ->
  p ∈ K <-> isna p = false /\ p ∈ s.
Proof.
  intros HK. rewrite HK, elem_of_unique, list_elem_of_filter.
  split; intros [H1 H2]; split; try done.
  - by apply negb_prop_elim, Is_true_false in H1.
  - rewrite H1. done.
Qed.

Lemma fillna_non_null v (s : list value) :
  Forall (fun x => isna x = false) s -> fillna v s = s.
Proof.
  induction 1 as [|x l Hx Hl IH]; simpl; [done|]. by rewrite Hx, IH.
Qed.

Lemma astype_int_counts s K : astype_int (map (count_cell s) K) = inr (map (count_cell s) K).
Proof.
  unfold astype_int.
  replace (forallb _ (map (count_cell s) K)) with true; [done|].
  symmetry. apply forallb_forall. intros x Hx. apply in_map_iff in Hx as (k & <- & _). done.
Qed.

Lemma Sorted_map_inv {A B} (R : B -> B -> Prop) (f : A -> B) (l : list A) :
  Sorted R (map f l) -> Sorted (fun a b => R (f a) (f b)) l.
Proof.
  induction l as [|x l IH]; simpl; intros H; [constructor|].
  apply Sorted_inv in H as [Hs Hh]. constructor; [auto|].
  destruct l; simpl in *; constructor. by apply HdRel_inv in Hh.
Qed.

Lemma rows_three_columns (K : list value) (f g : value -> value) :
  rows (mkDF (length K) [("Player", K); ("Transfers In", map f K);
                         ("Transfers Out", map g K)])
  = map (fun p => [p; f p; g p]) K.
Proof.
  unfold rows. simpl.
  transitivity (map (fun p => [p; f p; g p]) (map (fun i => nth i K VNull) (seq 0 (length K)))).
  - rewrite map_map. apply map_ext_in. intros i Hi. apply in_seq in Hi.
    unfold row. simpl.
    by rewrite !(nth_map_in_range _ K i VNull VNull) by lia.
  - by rewrite map_nth_seq.
Qed.

Lemma rows_head n df : rows (head n df) = firstn n (rows df).
Proof.
  unfold rows, head. simpl.
  rewrite firstn_map, take_seq. apply map_ext_in. intros i Hi.
  apply in_seq in Hi. unfold row. simpl. rewrite map_map. apply map_ext.
  intros kv. simpl. rewrite nth_firstn.
  replace (i <? n)%nat with true; [done|]. symmetry. apply Nat.ltb_lt. lia.
Qed.

Lemma counted_cell K s p :
  Permutation K (unique (filter (fun v => negb (isna v)) s)) ->
  isna p = false ->
  (let cell := default VNull (assoc_value p (combine K (map (count_cell s) K))) in
   if isna cell then VInt 0 else cell) = count_cell s p.
Proof.
  intros HK Hp. simpl. rewrite assoc_value_tabulate.
  destruct (decide (p ∈ K)) as [Hin|Hnin]; simpl; [done|].
  unfold count_cell. rewrite occurrences_absent; [done|].
  intros Hs. apply Hnin. by apply (elem_of_counted K s p HK).
Qed.

Lemma set_in_column n (a b c s : list value) :
  set_column "Transfers In" s
    (mkDF n [("Player", a); ("Transfers In", b); ("Transfers Out", c)])
  = mkDF n [("Player", a); ("Transfers In", s); ("Transfers Out", c)].
Proof. done. Qed.

Lemma set_out_column n (a b c s : list value) :
  set_column "Transfers Out" s
    (mkDF n [("Player", a); ("Transfers In", b); ("Transfers Out", c)])
  = mkDF n [("Player", a); ("Transfers In", b); ("Transfers Out", s)].
Proof. done. Qed.

Lemma merged_keys (Kin Kout : list value) :
  let keys0 := Kin ++ filter (fun k => k ∉ Kin) Kout in
  let keys :=
    match nargsort true keys0 with
    | inr indexer => map (fun i => nth i keys0 VNull) indexer
    | inl _ => keys0
    end in
  Permutation keys keys0.
Proof.
  intros keys0 keys. subst keys.
  destruct (nargsort true keys0) as [e|idx] eqn:Hidx; [done|].
  apply permuted_indices. by apply (nargsort_Permutation contract _ _ _ Hidx).
Qed.

(** The merged counts: one row per player named in either column, with the
    number of occurrences in each. *)
Lemma players_summary_spec df player_in player_out :
  assoc "Player In" (cols df) = Some player_in ->
  assoc "Player Out" (cols df) = Some player_out ->
  exists players,
    players_summary df =
    inr (mkDF (length players)
           [("Player", players);
            ("Transfers In", map (count_cell player_in) players);
            ("Transfers Out", map (count_cell player_out) players)])
    /\ NoDup players
    /\ forall p, p ∈ players <->
                 isna p = false /\ (p ∈ player_in \/ p ∈ player_out).
Proof.
  intros Hin Hout. unfold players_summary, get_column. rewrite Hin, Hout. simpl.
  destruct (value_counts_spec "Player" "Transfers In" player_in) as (Kin & -> & HKin).
  destruct (value_counts_spec "Player" "Transfers Out" player_out) as (Kout & -> & HKout).
  simpl. unfold merge_outer. simpl.
  pose proof (merged_keys Kin Kout) as Hkeys. cbv zeta in Hkeys.
  set (keys0 := Kin ++ filter (fun k => k ∉ Kin) Kout) in *.
  set (keys := match nargsort true keys0 with
               | inr indexer => map (fun i => nth i keys0 VNull) indexer
               | inl _ => keys0
               end) in *.
  assert (Hmem : forall p, p ∈ keys <->
                           isna p = false /\ (p ∈ player_in \/ p ∈ player_out)).
  { intros p. rewrite Hkeys. subst keys0.
    rewrite elem_of_app, list_elem_of_filter,
      (elem_of_counted Kin player_in p HKin), (elem_of_counted Kout player_out p HKout).
    destruct (decide (p ∈ Kin)) as [Hp|Hp].
    - apply (elem_of_counted Kin player_in p HKin) in Hp. tauto.
    - rewrite (elem_of_counted Kin player_in p HKin) in Hp. tauto. }
  assert (Hnn : Forall (fun x => isna x = false) keys).
  { apply Forall_forall. intros p Hp. by apply Hmem in Hp as [? _]. }
  exists keys. split_and!; [|  |done].
  - unfold fillna_frame, lookup_by_key. simpl.
    rewrite (fillna_non_null _ keys Hnn).
    assert (Hfill_in :
      fillna (VInt 0)
        (map (fun k => default VNull (assoc_value k (combine Kin (map (count_cell player_in) Kin))))
             keys) = map (count_cell player_in) keys).
    { unfold fillna. rewrite map_map. apply map_ext_in. intros p Hp.
      apply list_elem_of_In, Hmem in Hp as [Hp _].
      by apply (counted_cell Kin player_in p HKin). }
    assert (Hfill_out :
      fillna (VInt 0)
        (map (fun k => default VNull (assoc_value k (combine Kout (map (count_cell player_out) Kout))))
             keys) = map (count_cell player_out) keys).
    { unfold fillna. rewrite map_map. apply map_ext_in. intros p Hp.
      apply list_elem_of_In, Hmem in Hp as [Hp _].
      by apply (counted_cell Kout player_out p HKout). }
    rewrite Hfill_in, Hfill_out.
    unfold astype_int_column, get_column. simpl.
    rewrite astype_int_counts. simpl. rewrite set_in_column. simpl.
    rewrite astype_int_counts. simpl. by rewrite set_out_column.
  - rewrite Hkeys. subst keys0. apply NoDup_app. split_and!.
    + rewrite HKin. apply NoDup_unique.
    + intros p Hp Hp'. by apply list_elem_of_filter in Hp' as [? _].
    + apply NoDup_filter. rewrite HKout. apply NoDup_unique.
Qed.

Lemma take_three_columns (K : list value) (f g : value -> value) idx :
  Forall (fun i => (i < length K)%nat) idx ->
  take idx (mkDF (length K) [("Player", K); ("Transfers In", map f K);
                             ("Transfers Out", map g K)]) =
  mkDF (length (map (fun i => nth i K VNull) idx))
       [("Player", map (fun i => nth i K VNull) idx);
        ("Transfers In", map f (map (fun i => nth i K VNull) idx));
        ("Transfers Out", map g (map (fun i => nth i K VNull) idx))].
Proof.
  intros Hidx. unfold take. simpl. rewrite length_map.
  rewrite Forall_forall in Hidx.
  assert (Hcol : forall h : value -> value,
            map (fun i => nth i (map h K) VNull) idx
            = map h (map (fun i => nth i K VNull) idx)).
  { intros h. rewrite map_map. apply map_ext_in. intros i Hi.
    apply nth_map_in_range, Hidx. by apply list_elem_of_In. }
  by rewrite !Hcol.
Qed.

Lemma sorted_without_nulls ascending (l : list value) :
  Forall (fun v => isna v = false) l ->
  sorted_nulls_last ascending l -> Sorted (key_order ascending) l.
Proof.
  intros Hl (ks & k & -> & _ & Hs).
  destruct k as [|k]; [by rewrite app_nil_r|].
  apply Forall_app in Hl as [_ Hl]. by inversion Hl.
Qed.

Lemma Sorted_weaken {A} (R R' : A -> A -> Prop) (l : list A) :
  (forall a b, R a b -> R' a b) -> Sorted R l -> Sorted R' l.
Proof.
  intros HR. induction 1 as [|x l Hs IH Hh]; constructor; [done|].
  destruct Hh; constructor; auto.
Qed.

(** The ten rows of the chart: the first ten of the players ranked by
    transfers-in, each with its two counts. *)
Lemma top_players_spec df player_in player_out :
  assoc "Player In" (cols df) = Some player_in ->
  assoc "Player Out" (cols df) = Some player_out ->
  exists ranked top,
    top_players df = inr top
    /\ NoDup ranked
    /\ (forall p, p ∈ ranked <->
                  isna p = false /\ (p ∈ player_in \/ p ∈ player_out))
    /\ Sorted (fun p q => (occurrences q player_in <= occurrences p player_in)%nat) ranked
    /\ columns top = ["Player"; "Transfers In"; "Transfers Out"]
    /\ rows top = map (summary_row player_in player_out) (firstn 10 ranked).
Proof.
  intros Hin Hout.
  destruct (players_summary_spec df player_in player_out Hin Hout)
    as (players & Hsum & Hnd & Hmem).
  unfold top_players. rewrite Hsum. simpl.
  set (summary := mkDF (length players)
                    [("Player", players);
                     ("Transfers In", map (count_cell player_in) players);
                     ("Transfers Out", map (count_cell player_out) players)]).
  destruct (sort_values_ok (VInt 0) "Transfers In" false summary
              (map (count_cell player_in) players)) as (idx & Hidx & ->).
  { by_decide. }
  { done. }
  { apply count_cells_kind. }
  simpl.
  pose proof (nargsort_Permutation contract _ _ _ Hidx) as Hperm.
  pose proof (nargsort_sorted contract _ _ _ Hidx) as Hsorted.
  rewrite length_map in Hperm.
  pose proof (indices_in_range _ _ Hperm) as Hrange.
  set (ranked := map (fun i => nth i players VNull) idx) in *.
  assert (Hranked : Permutation ranked players) by (by apply permuted_indices).
  assert (Hcells : map (fun i => nth i (map (count_cell player_in) players) VNull) idx
                   = map (count_cell player_in) ranked).
  { subst ranked. rewrite map_map. apply map_ext_in. intros i Hi.
    rewrite Forall_forall in Hrange. apply nth_map_in_range, Hrange.
    by apply list_elem_of_In. }
  rewrite Hcells in Hsorted.
  exists ranked. eexists. split; [reflexivity|]. split_and!.
  - by rewrite Hranked.
  - intros p. by rewrite Hranked.
  - apply sorted_without_nulls in Hsorted.
    2: { apply Forall_map, Forall_forall. by intros. }
    apply Sorted_map_inv in Hsorted.
    apply (Sorted_weaken _ _ _) with (2 := Hsorted).
    intros p q H. simpl in H. apply Z.leb_le in H. lia.
  - done.
  - rewrite rows_head. subst summary.
    rewrite (take_three_columns players _ _ idx Hrange). fold ranked.
    rewrite (rows_three_columns ranked). by rewrite firstn_map.
Qed.

End C8.

Section C8Theorems.

Lemma get_column_assoc c df s : get_column c df = inr s -> assoc c (cols df) = Some s.
Proof. unfold get_column. destruct (assoc c (cols df)); by intros [= <-]. Qed.



End C8Theorems.

Section TransfersTab.
Context {L : Library}.
Hypothesis contract : argsort_contract L.

Lemma plot_transfers_per_gameweek_ok d :
  exists tr, plot_transfers_per_gameweek d = (tr, inr tt).
Proof.
  unfold plot_transfers_per_gameweek. destruct (has_column "Gameweek" d) eqn:Hc.
  - apply has_column_spec in Hc. destruct (get_column_ok _ _ Hc) as (s & -> & _).
    run. eauto.
  - run. eauto.
Qed.

Lemma plot_players_in_out_ok d :
  exists tr, plot_players_in_out d = (tr, inr tt).
Proof.
  unfold plot_players_in_out.
  destruct (has_column "Player In" d) eqn:Hin, (has_column "Player Out" d) eqn:Hout;
    simpl; try (run; eauto; fail).
  apply has_column_spec, assoc_is_Some in Hin as [s_in Hin].
  apply has_column_spec, assoc_is_Some in Hout as [s_out Hout].
  destruct (top_players_spec contract d s_in s_out Hin Hout) as (? & top & -> & _).
  run. eauto.
Qed.

(** What the transfers tab does with a table that was fetched. *)
Lemma shape_transfers_ok players df :
  wf df -> has_column "time" df = true ->
  exists tr shaped,
    shape_transfers players df = (tr, inr shaped)
    /\ nrows shaped = nrows df
    /\ exists times,
         get_column "Transfer Time" shaped = inr times
         /\ Permutation times (map coerce_cell (column "time" df)).
Proof.
  intros Hwf Hc.
  destruct (name_players_spec players df Hwf) as (tr1 & d1 & Hname & Hwf1 & Hn1 & Hkeep).
  assert (Ha1 : assoc "time" (cols d1) = assoc "time" (cols df)).
  { apply Hkeep. unfold player_labels. rewrite !not_elem_of_cons.
    split_and!; try done. apply not_elem_of_nil. }
  apply has_column_spec, assoc_is_Some in Hc as [time Htime].
  rewrite Htime in Ha1.
  destruct (select_transfers_time d1 Hwf1) as (tr2 & d2 & Hsel & Hwf2 & Hn2 & Ha2).
  { apply has_column_spec, assoc_is_Some. by rewrite Ha1. }
  rewrite Ha1 in Ha2.
  destruct (sort_transfers_spec contract d2 Hwf2)
    as (d' & times & Hsort & Hrows & Hget & Hperm & _).
  { apply has_column_spec, assoc_is_Some. by rewrite Ha2. }
  unfold column in Hperm. rewrite Ha2 in Hperm. simpl in Hperm.
  eexists _, d'. split_and!.
  - unfold shape_transfers. rewrite Hname. run. rewrite Hsel. run. rewrite Hsort.
    reflexivity.
  - apply Permutation_length in Hrows. unfold rows in Hrows.
    rewrite !length_map, !length_seq in Hrows. unfold with_column in Hrows.
    rewrite nrows_set_column in Hrows. lia.
  - exists times. split; [done|]. unfold column. by rewrite Htime.
Qed.

Lemma transfers_tab_fetched up players TID df :
  fetch_transfers up TID = ([requests_get (transfers_url TID)], inr df) ->
  wf df -> has_column "time" df = true ->
  exists tr,
    transfers_tab up players TID = (tr, inr tt)
    /\ (nrows df <> 0%nat ->
        exists shaped before after,
          outcome (shape_transfers players df) = inr shaped
          /\ tr = before ++ st_dataframe shaped :: after).
Proof.
  intros Hf Hwf Hc. unfold transfers_tab. rewrite Hf. unfold try_except. run.
  destruct (empty df) eqn:Hempty; simpl.
  - eexists. split; [reflexivity|]. intros Hn. exfalso.
    unfold empty in Hempty. apply orb_true_iff in Hempty as [He|He].
    + apply Nat.eqb_eq in He. done.
    + apply Nat.eqb_eq in He. apply has_column_spec in Hc. unfold columns in Hc.
      destruct (cols df); [by apply elem_of_nil in Hc | done].
  - destruct (shape_transfers_ok players df Hwf Hc) as (tr & shaped & Hshape & _).
    rewrite Hshape. simpl.
    destruct (plot_transfers_per_gameweek_ok shaped) as [tr1 ->].
    destruct (plot_players_in_out_ok shaped) as [tr2 ->]. simpl.
    eexists. split; [reflexivity|]. intros _.
    exists shaped. eexists (_ :: _ :: _ :: tr), _. split; [done|]. reflexivity.
Qed.

(** The transfers tab always ends normally, after its one GET. *)
Lemma transfers_tab_total up players TID :
  exists tr,
    transfers_tab up players TID =
    (with_tab 0 :: st_header "Your Transfer History"
       :: requests_get (transfers_url TID) :: tr, inr tt).
Proof.
  destruct (outcome (fetch_transfers up TID)) as [e|df] eqn:Hf.
  - rewrite (transfers_tab_failed up players TID e Hf). eauto.
  - assert (Hrun : fetch_transfers up TID = ([requests_get (transfers_url TID)], inr df)).
    { rewrite fetch_transfers_run in *. unfold outcome in Hf. simpl in Hf. by rewrite Hf. }
    rewrite fetch_transfers_run in Hf. unfold outcome in Hf. simpl in Hf.
    apply fetch_result_ok in Hf as (status & reason & records & Ho & _ & Hp).
    destruct (process_transfers_ok _ _ Hp) as (Hwf & _ & _ & _ & time & Ha & _).
    assert (Hc : has_column "time" df = true).
    { apply has_column_spec, assoc_is_Some. by rewrite Ha. }
    destruct (transfers_tab_fetched up players TID df Hrun Hwf Hc) as (tr & Htab & _).
    revert Htab. unfold transfers_tab. rewrite Hrun. unfold try_except. run.
    destruct (empty df); simpl.
    + intros [= <-]. eauto.
    + destruct (shape_transfers players df) as [tr0 [e|shaped]]; simpl; [done|].
      destruct (plot_transfers_per_gameweek shaped) as [tr1 [e|[]]]; simpl; [done|].
      destruct (plot_players_in_out shaped) as [tr2 [e|[]]]; simpl; [done|].
      intros [= <-]. eauto.
Qed.

(** The history tab always makes its one GET. *)
Lemma history_tab_requests up TID :
  exists tr r,
    history_tab up TID =
    (with_tab 1 :: st_header "Your Performance History"
       :: requests_get (history_url TID) :: tr, r).
Proof.
  unfold history_tab. rewrite fetch_history_run. unfold try_except. run.
  destruct (fetch_result _ _ _ _) as [e|df]; simpl.
  - destruct (is_runtime_error e); simpl; eauto.
  - destruct (empty df); simpl; [eauto|].
    destruct (shape_history df) as [tr0 [e|shaped]]; simpl; [eauto|].
    destruct (plot_total_points_over_weeks shaped) as [tr1 [e|[]]]; simpl; [eauto|].
    destruct (plot_rank_over_weeks shaped) as [tr2 [e|[]]]; simpl; eauto.
Qed.

(** With the directory at hand, both tabs make their request, whatever
    the outcome of the other. *)
Lemma main_requests_both up TID players :
  isdigit TID = true ->
  outcome (fetch_players up) = inr players ->
  requests_get (transfers_url TID) ∈ trace (main up TID)
  /\ requests_get (history_url TID) ∈ trace (main up TID).
Proof.
  intros Hd. rewrite fetch_players_run. unfold outcome. simpl. intros Hp.
  assert (Ht : truthy TID = true) by (by destruct TID).
  unfold main. rewrite Ht, Hd, fetch_players_run. unfold try_except. run.
  rewrite Hp. simpl.
  destruct (transfers_tab_total up players TID) as [tr1 ->].
  destruct (history_tab_requests up TID) as (tr2 & r & ->). simpl.
  destruct r as [e|[]]; simpl; unfold trace; simpl; split; find_event.
Qed.

End TransfersTab.

Section MainTheorems.
Context {L : Library}.

(** C3.  Each of the three fetches makes one GET and, when it fails, fails
    with a [RuntimeError] of one of two kinds that carries its message and
    its cause: the HTTP kind exactly when the response has an error status
    (400 to 599, what [raise_for_status] rejects), the other kind for a
    missing response, a body that does not decode, or any exception raised
    while the body is processed.  A failed transfers or history fetch ends
    its tab with an error and an information message and the run goes on; a
    failed directory fetch is shown and the run is stopped by [st.stop()],
    so no [RuntimeError] leaves [main]; and once the directory is there,
    each tab makes its request whatever happens in the other (under the
    contract of the library sort, on which the charts rely). *)
Theorem fetch_errors_two_tier (up : Upstream) (TID : string) :
  two_tier_errors "players" players_url (players_endpoint up) (fetch_players up)
  /\ two_tier_errors "transfers" (transfers_url TID) (transfers_endpoint up TID)
                     (fetch_transfers up TID)
  /\ two_tier_errors "history" (history_url TID) (history_endpoint up TID)
                     (fetch_history up TID)
  /\ (forall players e,
        outcome (fetch_transfers up TID) = inl e ->
        transfers_tab up players TID =
        ([with_tab 0; st_header "Your Transfer History";
          requests_get (transfers_url TID); st_error e;
          st_info "No transfer data available for this Team ID."], inr tt))
  /\ (forall e,
        outcome (fetch_history up TID) = inl e ->
        history_tab up TID =
        ([with_tab 1; st_header "Your Performance History";
          requests_get (history_url TID); st_error e;
          st_info "No performance history data available for this Team ID."], inr tt))
  /\ (forall e,
        isdigit TID = true ->
        outcome (fetch_players up) = inl e ->
        outcome (main up TID) = inl StopException)
  /\ (forall players,
        argsort_contract L ->
        isdigit TID = true ->
        outcome (fetch_players up) = inr players ->
        requests_get (transfers_url TID) ∈ trace (main up TID)
        /\ requests_get (history_url TID) ∈ trace (main up TID)).
Proof.
  split_and!.
  - rewrite fetch_players_with. apply fetch_with_errors, process_players_error.
  - rewrite fetch_transfers_with. apply fetch_with_errors, process_transfers_error.
  - rewrite fetch_history_with. apply fetch_with_errors, process_history_error.
  - intros. by apply transfers_tab_failed.
  - intros. by apply history_tab_failed.
  - intros e Hd He. by rewrite (main_directory_failed up TID e Hd He).
  - intros players contract Hd Hp. by apply (main_requests_both contract up TID players).
Qed.

(** C5.  When the directory fetch fails for a numeric identifier, the run
    shows the page top and the spinner, makes the one GET of the directory,
    shows the error and stops: no other network call, no tabs, one error
    message. *)
Theorem directory_failure_stops_run (up : Upstream) (TID : string) (e : exn) :
  isdigit TID = true ->
  outcome (fetch_players up) = inl e ->
  main up TID =
    (page_top ++ [st_spinner "Fetching player data..."; requests_get players_url;
                  st_error e],
     inl StopException)
  /\ filter (fun ev => is_request ev) (trace (main up TID)) = [requests_get players_url]
  /\ filter (fun ev => is_tabs ev) (trace (main up TID)) = []
  /\ filter (fun ev => is_error_message ev) (trace (main up TID)) = [st_error e].
Proof.
  intros Hd He. rewrite (main_directory_failed up TID e Hd He). by split_and!.
Qed.

(** C6.  For an identifier that is not empty and not all digits the run
    shows the page top, the prompt, the divider and the donation message,
    and nothing else: no network call is made and no tab is opened. *)
Theorem non_numeric_identifier_prompts (up : Upstream) (TID : string) :
  TID <> "" ->
  isdigit TID = false ->
  main up TID =
    (page_top ++ [st_info "Please enter your Team ID to proceed."; st_divider;
                  donate_message],
     inr tt)
  /\ filter (fun ev => is_request ev) (trace (main up TID)) = []
  /\ filter (fun ev => is_tabs ev) (trace (main up TID)) = [].
Proof.
  intros Hne Hd. rewrite (main_not_numeric up TID Hne Hd). by split_and!.
Qed.

End MainTheorems.

Section C7Theorem.
Context {L : Library}.
Hypothesis contract : argsort_contract L.

(** C7.  Under the contract of the library sort: for a decoded transfers
    response none of whose records has a [time], the fetch and the shaping
    step both succeed, the shaped table has a Transfer Time column of
    nulls, one per record, and the transfers tab ends normally, showing
    that table when there is a record; and the shaping step replaces every cell of a
    Transfer Time column by its coerced value, a time for a string the
    parser reads and null for one it does not, without raising. *)
Theorem missing_time_null_and_strings_coerced :
  (forall (up : Upstream) (players : gmap value value) (TID : string)
          (status : Z) (reason : string) (records : list json_row),
     transfers_endpoint up TID = Response status reason (Some records) ->
     is_error_status status = false ->
     (forall r, r ∈ records -> assoc "time" r = None) ->
     exists df tr shaped,
       fetch_transfers up TID = ([requests_get (transfers_url TID)], inr df)
       /\ shape_transfers players df = (tr, inr shaped)
       /\ nrows shaped = length records
       /\ get_column "Transfer Time" shaped = inr (repeat VNull (length records))
       /\ exists events,
            transfers_tab up players TID = (events, inr tt)
            /\ (records <> [] -> st_dataframe shaped ∈ events))
  /\ (forall d, wf d -> has_column "Transfer Time" d = true ->
        exists d' times,
          sort_transfers d = ([], inr d')
          /\ Permutation (rows d') (rows (with_column "Transfer Time" coerce_cell d))
          /\ get_column "Transfer Time" d' = inr times
          /\ Permutation times (map coerce_cell (column "Transfer Time" d)))
  /\ (forall s,
        coerce_cell (VStr s) =
        match parse_datetime s with Some t => VTime t | None => VNull end)
  /\ coerce_cell VNull = VNull.
Proof.
  split_and!.
  - intros up players TID status reason records Ho Hs Hnone.
    assert (Hc : has_column "time" (json_normalize records) = false).
    { apply has_column_false. rewrite elem_of_columns_json_normalize.
      intros (r & Hr & Hsome). rewrite (Hnone r Hr) in Hsome. by destruct Hsome. }
    destruct (process_transfers records) as [e|df] eqn:Hp.
    { unfold process_transfers in Hp. cbv zeta in Hp. by rewrite Hc in Hp. }
    destruct (process_transfers_ok _ _ Hp) as (Hwf & Hn & _ & _ & time & Ha & Ht).
    rewrite Hc in Ht. subst time.
    destruct (name_players_spec players df Hwf) as (tr1 & d1 & Hname & Hwf1 & Hn1 & Hkeep).
    assert (Ha1 : assoc "time" (cols d1) = Some (repeat VNull (length records))).
    { rewrite Hkeep; [done|]. unfold player_labels. rewrite !not_elem_of_cons.
      split_and!; try done. apply not_elem_of_nil. }
    destruct (select_transfers_time d1 Hwf1) as (tr2 & d2 & Hsel & Hwf2 & Hn2 & Ha2).
    { apply has_column_spec, assoc_is_Some. by rewrite Ha1. }
    rewrite Ha1 in Ha2.
    destruct (sort_transfers_spec contract d2 Hwf2)
      as (d' & times & Hsort & Hrows & Hget & Hperm & _).
    { apply has_column_spec, assoc_is_Some. by rewrite Ha2. }
    unfold column in Hperm. rewrite Ha2 in Hperm. simpl in Hperm.
    rewrite coerce_nulls in Hperm. apply Permutation_repeat in Hperm. subst times.
    exists df. eexists _, d'. split_and!.
    + by rewrite fetch_transfers_run, Ho, (fetch_result_response _ _ _ _ _ _ Hs), Hp.
    + unfold shape_transfers. rewrite Hname. run. rewrite Hsel. run. rewrite Hsort.
      reflexivity.
    + apply Permutation_length in Hrows. unfold rows in Hrows.
      rewrite !length_map, !length_seq in Hrows. unfold with_column in Hrows.
      rewrite nrows_set_column in Hrows. lia.
    + done.
    + assert (Hrun : fetch_transfers up TID = ([requests_get (transfers_url TID)], inr df)).
      { by rewrite fetch_transfers_run, Ho, (fetch_result_response _ _ _ _ _ _ Hs), Hp. }
      assert (Hct : has_column "time" df = true).
      { apply has_column_spec, assoc_is_Some. by rewrite Ha. }
      destruct (transfers_tab_fetched contract up players TID df Hrun Hwf Hct)
        as (events & Htab & Hshown).
      exists events. split; [done|]. intros Hne.
      destruct Hshown as (shaped' & before & after & Hshaped & ->).
      { rewrite Hn. by destruct records. }
      assert (Hsame : shape_transfers players df = (tr1 ++ tr2 ++ [], inr d')).
      { unfold shape_transfers. rewrite Hname. run. rewrite Hsel. run. by rewrite Hsort. }
      rewrite Hsame in Hshaped. unfold outcome in Hshaped. simpl in Hshaped.
      injection Hshaped as <-. find_event.
  - intros d Hwf Hc.
    destruct (sort_transfers_spec contract d Hwf Hc)
      as (d' & times & Hsort & Hrows & Hget & Hperm & _).
    by exists d', times.
  - intros s. unfold coerce_cell. simpl. by destruct (parse_datetime s).
  - done.
Qed.

End C7Theorem.

(** * The theorems at sample inputs *)
Section Witnesses.


Lemma history_rows_flattened_witness :
  exists df,
    fetch_history upstream_ok "7108828"
    = ([requests_get (history_url "7108828")], inr df)
    /\ nrows df = 3%nat.
Proof.
  destruct (@history_rows_flattened stable_library upstream_ok "7108828" 200 "OK"
              sample_history eq_refl eq_refl) as [(df & Hrun & Hn & _) _].
  exists df. split; [exact Hrun | exact Hn].
Defined.

Lemma directory_failure_stops_run_witness :
  filter (fun ev => is_request ev)
         (trace (@main stable_library upstream_down "7108828"))
  = [requests_get players_url]
  /\ filter (fun ev => is_tabs ev)
            (trace (@main stable_library upstream_down "7108828")) = []
  /\ length (filter (fun ev => is_error_message ev)
                    (trace (@main stable_library upstream_down "7108828"))) = 1%nat.
Proof.
  destruct (@directory_failure_stops_run stable_library upstream_down "7108828"
              (wrapped "players" (status_error players_url 500 "Internal Server Error"))
              eq_refl eq_refl) as (_ & Hreq & Htabs & Herr).
  split; [exact Hreq|]. split; [exact Htabs|]. rewrite Herr. reflexivity.
Defined.

Lemma non_numeric_identifier_prompts_witness :
  @main stable_library upstream_ok "team7"
  = (page_top ++ [st_info "Please enter your Team ID to proceed."; st_divider;
                  donate_message],
     inr tt).
Proof.
  apply (@non_numeric_identifier_prompts stable_library upstream_ok "team7");
    [discriminate | reflexivity].
Defined.

Lemma missing_time_null_and_strings_coerced_witness :
  exists df tr shaped,
    @fetch_transfers stable_library upstream_untimed "7108828"
    = ([requests_get (transfers_url "7108828")], inr df)
    /\ @shape_transfers stable_library ∅ df = (tr, inr shaped)
    /\ get_column "Transfer Time" shaped = inr [VNull; VNull].
Proof.
  destruct (proj1 (@missing_time_null_and_strings_coerced stable_library
                     stable_library_contract)
              upstream_untimed ∅ "7108828" 200 "OK" untimed_transfers eq_refl eq_refl)
    as (df & tr & shaped & Hrun & Hshape & _ & Htime & _).
  - intros r Hr. unfold untimed_transfers in Hr.
    apply elem_of_cons in Hr as [->|Hr]; [reflexivity|].
    apply elem_of_cons in Hr as [->|Hr]; [reflexivity|].
    by apply elem_of_nil in Hr.
  - exists df, tr, shaped. split; [exact Hrun|]. split; [exact Hshape | exact Htime].
Defined.




End Witnesses.

Section Directory.

Lemma player_dict_ok players acc :
  Forall (fun p => is_Some (assoc "id" p) /\ is_Some (assoc "web_name" p)) players ->
  exists d, player_dict players acc = inr d.
Proof.
  intros H. revert acc. induction H as [|p l [[k Hk] [n Hn]] _ IH]; intros acc; simpl.
  - eauto.
  - rewrite Hk, Hn. apply IH.
Qed.

Lemma player_dict_inv players acc d :
  player_dict players acc = inr d ->
  Forall (fun p => is_Some (assoc "id" p) /\ is_Some (assoc "web_name" p)) players.
Proof.
  revert acc. induction players as [|p l IH]; intros acc; simpl; [by constructor|].
  destruct (assoc "id" p) as [k|] eqn:Hk; [|done].
  destruct (assoc "web_name" p) as [n|] eqn:Hn; [|done].
  intros H. constructor; [by split | eauto].
Qed.

Lemma player_dict_keys players acc d k :
  player_dict players acc = inr d ->
  is_Some (d !! k) <->
  is_Some (acc !! k) \/ exists p, p ∈ players /\ assoc "id" p = Some k.
Proof.
  revert acc. induction players as [|p l IH]; intros acc; simpl.
  - intros [= <-]. split; [auto|]. intros [?|(p & Hp & _)]; [done|].
    by apply elem_of_nil in Hp.
  - destruct (assoc "id" p) as [k'|] eqn:Hk; [|done].
    destruct (assoc "web_name" p) as [n|] eqn:Hn; [|done].
    intros H. rewrite (IH _ H). rewrite lookup_insert_is_Some. split.
    + intros [[->|[_ ?]]|(q & Hq & Hid)]; [right|by left|right].
      * exists p. split; [by left | done].
      * exists q. split; [by right | done].
    + intros [Hacc|(q & Hq & Hid)].
      * left. destruct (decide (k' = k)); [by left | by right].
      * apply elem_of_cons in Hq as [->|Hq].
        -- left. left. congruence.
        -- right. by exists q.
Qed.

Lemma player_dict_later players acc d k :
  player_dict players acc = inr d ->
  (forall q, q ∈ players -> assoc "id" q <> Some k) ->
  d !! k = acc !! k.
Proof.
  revert acc. induction players as [|p l IH]; intros acc; simpl.
  - by intros [= <-].
  - destruct (assoc "id" p) as [k'|] eqn:Hk; [|done].
    destruct (assoc "web_name" p) as [n|] eqn:Hn; [|done].
    intros H Hq. rewrite (IH _ H) by (intros q ?; apply Hq; by right).
    apply lookup_insert_ne. intros ->. apply (Hq p); [by left | done].
Qed.

Lemma player_dict_last before p after acc d k n :
  player_dict (before ++ p :: after) acc = inr d ->
  assoc "id" p = Some k ->
  assoc "web_name" p = Some n ->
  (forall q, q ∈ after -> assoc "id" q <> Some k) ->
  d !! k = Some n.
Proof.
  revert acc. induction before as [|b l IH]; intros acc; simpl.
  - intros H Hk Hn Hq. rewrite Hk, Hn in H.
    rewrite (player_dict_later _ _ _ _ H Hq). apply lookup_insert_eq.
  - destruct (assoc "id" b); [|done]. destruct (assoc "web_name" b); [|done]. eauto.
Qed.

(** X1.  [fetch_players] returns a directory exactly when the endpoint
    answers with a status outside 400 to 599 and a body that decodes to an
    object with an [elements] array each of whose entries has both an [id]
    and a [web_name]: one entry without either key fails the whole
    fetch. *)
Theorem fetch_players_succeeds_iff (up : Upstream) :
  (exists player_id_to_name, outcome (fetch_players up) = inr player_id_to_name)
  <-> exists status reason players_data players,
        players_endpoint up = Response status reason (Some players_data)
        /\ is_error_status status = false
        /\ elements players_data = Some players
        /\ Forall (fun player => is_Some (assoc "id" player)
                                 /\ is_Some (assoc "web_name" player)) players.
Proof.
  rewrite fetch_players_run. unfold outcome. simpl. split.
  - intros [d Hd].
    apply fetch_result_ok in Hd as (status & reason & j & Ho & Hs & Hp).
    unfold process_players in Hp. destruct (elements j) as [players|] eqn:He; [|done].
    simpl in Hp. exists status, reason, j, players. split_and!; try done.
    by apply (player_dict_inv _ _ _ Hp).
  - intros (status & reason & j & players & -> & Hs & He & Hall).
    rewrite (fetch_result_response _ _ _ _ _ _ Hs). unfold process_players.
    rewrite He. simpl. destruct (player_dict_ok players ∅ Hall) as [d ->]. eauto.
Qed.

(** X2.  The directory [fetch_players] returns has an entry for an id
    exactly when some element of the response carries that id, and the name
    it gives is the [web_name] of the last such element: a later element
    overrides an earlier one with the same id. *)
Theorem directory_maps_ids_to_names (up : Upstream)
    (player_id_to_name : gmap value value) :
  outcome (fetch_players up) = inr player_id_to_name ->
  exists status reason players_data players,
    players_endpoint up = Response status reason (Some players_data)
    /\ elements players_data = Some players
    /\ (forall id, is_Some (player_id_to_name !! id)
                   <-> exists player, player ∈ players /\ assoc "id" player = Some id)
    /\ (forall before player after id name,
          players = before ++ player :: after ->
          assoc "id" player = Some id ->
          assoc "web_name" player = Some name ->
          (forall later, later ∈ after -> assoc "id" later <> Some id) ->
          player_id_to_name !! id = Some name).
Proof.
  rewrite fetch_players_run. unfold outcome. simpl. intros Hd.
  apply fetch_result_ok in Hd as (status & reason & j & Ho & Hs & Hp).
  unfold process_players in Hp. destruct (elements j) as [players|] eqn:He; [|done].
  simpl in Hp. exists status, reason, j, players. split_and!; try done.
  - intros id. rewrite (player_dict_keys _ _ _ id Hp). rewrite lookup_empty.
    split; [intros [[? ?]|?]; done | auto].
  - intros before player after id name -> Hk Hn Hlater.
    by apply (player_dict_last _ _ _ _ _ _ _ Hp).
Qed.

End Directory.

Section TransfersTable.
Context {L : Library}.






End TransfersTable.

Section Shaping.
Context {L : Library}.
Hypothesis contract : argsort_contract L.

Lemma filtered_labels_absent (labels : list string) c (l : list (string * list value)) :
  c ∈ labels ->
  c ∉ map fst (filter (fun kv => negb (bool_decide (fst kv ∈ labels))) l).
Proof.
  intros Hc Hin. apply list_elem_of_In, in_map_iff in Hin as ([k v] & Hk & Hin).
  simpl in Hk. subst k. apply list_elem_of_In, list_elem_of_filter in Hin as [Hin _].
  simpl in Hin. by rewrite bool_decide_eq_true_2 in Hin.
Qed.

(** With both id columns at hand, the names are looked up and the id
    columns leave the table; nothing is shown. *)
Lemma name_players_named players d element_in element_out :
  wf d ->
  assoc "element_in" (cols d) = Some element_in ->
  assoc "element_out" (cols d) = Some element_out ->
  exists named,
    name_players players d = ([], inr named)
    /\ wf named
    /\ nrows named = nrows d
    /\ assoc "Player In" (cols named) = Some (map (name_of players) element_in)
    /\ assoc "Player Out" (cols named) = Some (map (name_of players) element_out)
    /\ assoc "element_in" (cols named) = None
    /\ assoc "element_out" (cols named) = None
    /\ (forall c, c ∉ player_labels -> assoc c (cols named) = assoc c (cols d)).
Proof.
  intros Hwf Hin Hout. unfold name_players.
  assert (Hcin : has_column "element_in" d = true).
  { apply has_column_spec, assoc_is_Some. by rewrite Hin. }
  assert (Hcout : has_column "element_out" d = true).
  { apply has_column_spec, assoc_is_Some. by rewrite Hout. }
  rewrite Hcin, Hcout. simpl. unfold get_column at 1. rewrite Hin. run.
  set (d2 := set_column "Player In" (series_map players element_in) d).
  assert (Hwf2 : wf d2).
  { apply wf_set_column; [done|]. rewrite length_series_map.
    by apply (wf_column_length "element_in"). }
  assert (Hout2 : assoc "element_out" (cols d2) = Some element_out).
  { subst d2. by rewrite assoc_set_column_ne. }
  unfold get_column at 1. rewrite Hout2. run.
  set (d3 := set_column "Player Out" (series_map players element_out) d2).
  assert (Hwf3 : wf d3).
  { apply wf_set_column; [done|]. rewrite length_series_map.
    by apply (wf_column_length "element_out" d2). }
  assert (Hin3 : has_column "element_in" d3 = true).
  { apply has_column_spec, assoc_is_Some. subst d3 d2.
    rewrite !assoc_set_column_ne by done. by rewrite Hin. }
  assert (Hout3 : has_column "element_out" d3 = true).
  { apply has_column_spec, assoc_is_Some. subst d3.
    rewrite assoc_set_column_ne by done. by rewrite Hout2. }
  rewrite Hin3, Hout3. simpl.
  rewrite drop_present
    by (repeat constructor; by apply has_column_spec). simpl.
  eexists. split; [reflexivity|].
  destruct Hwf3 as [Hnd3 Hlen3].
  destruct (wf_filter_columns
              (fun kv => negb (bool_decide (fst kv ∈ ["element_in"; "element_out"])))
              (nrows d3) (cols d3) Hnd3 Hlen3) as [Hnd4 Hlen4].
  assert (Hkeep : forall c, c <> "element_in" -> c <> "element_out" ->
            assoc c (cols (mkDF (nrows d3)
                             (filter (fun kv => negb (bool_decide
                                        (fst kv ∈ ["element_in"; "element_out"])))
                                     (cols d3))))
            = assoc c (cols d3)).
  { intros c H1 H2. simpl. apply assoc_filter_keep.
    rewrite !not_elem_of_cons. split_and!; try done. apply not_elem_of_nil. }
  split_and!.
  - by split.
  - subst d3 d2. by rewrite !nrows_set_column.
  - rewrite Hkeep by done. subst d3. rewrite assoc_set_column_ne by done.
    subst d2. apply assoc_set_column_eq.
  - rewrite Hkeep by done. subst d3. apply assoc_set_column_eq.
  - apply assoc_None. simpl. apply filtered_labels_absent. by left.
  - apply assoc_None. simpl. apply filtered_labels_absent. right. by left.
  - intros c Hc. unfold player_labels in Hc. rewrite !not_elem_of_cons in Hc.
    destruct Hc as (H1 & H2 & H3 & H4 & _).
    rewrite Hkeep by done. subst d3 d2. by rewrite !assoc_set_column_ne.
Qed.

End Shaping.

Section ShapingTheorems.
Context {L : Library}.

(** X5.  When the table has both id columns, the shaping step adds the
    columns Player In and Player Out, each cell the directory's name for
    the id in the same row and null for an id the directory does not know,
    removes the two id columns, leaves every other column as it was and
    shows nothing.  When either id column is missing, it shows one warning
    and leaves the table as it was: an id column that is there alone is
    neither named nor removed. *)
Theorem player_ids_become_names (player_id_to_name : gmap value value)
    (transfers_data : DataFrame) :
  wf transfers_data ->
  (forall element_in element_out,
     get_column "element_in" transfers_data = inr element_in ->
     get_column "element_out" transfers_data = inr element_out ->
     exists named,
       name_players player_id_to_name transfers_data = ([], inr named)
       /\ wf named
       /\ nrows named = nrows transfers_data
       /\ get_column "Player In" named
          = inr (map (fun id => default VNull (player_id_to_name !! id)) element_in)
       /\ get_column "Player Out" named
          = inr (map (fun id => default VNull (player_id_to_name !! id)) element_out)
       /\ has_column "element_in" named = false
       /\ has_column "element_out" named = false
       /\ (forall c, c ∉ ["Player In"; "Player Out"; "element_in"; "element_out"] ->
                     assoc c (cols named) = assoc c (cols transfers_data)))
  /\ (has_column "element_in" transfers_data && has_column "element_out" transfers_data
      = false ->
      name_players player_id_to_name transfers_data =
      ([st_warning "Transfer data does not contain expected player ID columns." ∅],
       inr transfers_data)).
Proof.
  intros Hwf. split.
  - intros element_in element_out Hin Hout. apply get_column_assoc in Hin, Hout.
    destruct (name_players_named player_id_to_name transfers_data _ _ Hwf Hin Hout)
      as (named & Hrun & Hwf' & Hn & Hpin & Hpout & Hnin & Hnout & Hkeep).
    exists named. split_and!; try done.
    + unfold get_column. by rewrite Hpin.
    + unfold get_column. by rewrite Hpout.
    + by apply has_column_false, assoc_None.
    + by apply has_column_false, assoc_None.
  - intros Hmiss. unfold name_players. rewrite Hmiss. run. by rewrite Hmiss.
Qed.

End ShapingTheorems.

Lemma player_ids_become_names_witness :
  exists named,
    name_players one_player two_ids = ([], inr named)
    /\ get_column "Player In" named = inr [VStr "Salah"; VNull]
    /\ has_column "element_in" named = false.
Proof.
  assert (Hwf : wf two_ids) by (split; by_decide).
  destruct (proj1 (player_ids_become_names one_player two_ids Hwf)
              [VInt 1; VInt 9] [VInt 9; VInt 1] eq_refl eq_refl)
    as (named & Hrun & _ & _ & Hin & _ & Hgone & _).
  exists named. split; [exact Hrun|]. split; [exact Hin | exact Hgone].
Defined.

Section ShownTransfers.
Context {L : Library}.
Hypothesis contract : argsort_contract L.




End ShownTransfers.

Section TransfersTabTheorems.
Context {L : Library}.
Hypothesis contract : argsort_contract L.




End TransfersTabTheorems.

Section PerGameweek.

Lemma occurrences_cons x k (l : list value) :
  occurrences k (x :: l) = ((if decide (x = k) then 1 else 0) + occurrences k l)%nat.
Proof.
  unfold occurrences. rewrite filter_cons. by destruct (decide (x = k)).
Qed.

Lemma occurrences_positive k (l : list value) : k ∈ l -> (0 < occurrences k l)%nat.
Proof.
  induction 1 as [x l|x y l _ IH]; rewrite occurrences_cons.
  - rewrite decide_True by done. lia.
  - lia.
Qed.

Lemma occurrences_filter (P : value -> Prop) `{forall v, Decision (P v)} k (l : list value) :
  P k -> occurrences k (filter P l) = occurrences k l.
Proof.
  intros Hk. induction l as [|x l IH]; [done|]. rewrite filter_cons.
  destruct (decide (P x)) as [Hx|Hx].
  - by rewrite !occurrences_cons, IH.
  - rewrite occurrences_cons, IH. rewrite decide_False; [done|]. by intros ->.
Qed.

Lemma sum_without (f : value -> nat) x (u : list value) :
  NoDup u ->
  sum_list (map f u)
  = (sum_list (map f (filter (fun y => y <> x) u)) + (if decide (x ∈ u) then f x else 0))%nat.
Proof.
  induction 1 as [|y u Hy Hnd IH]; simpl; [done|]. rewrite filter_cons.
  destruct (decide (y = x)) as [->|Hne].
  - rewrite decide_False by (by intros H; apply H).
    rewrite decide_True by left. rewrite IH. rewrite decide_False by done. lia.
  - rewrite decide_True by done. simpl. rewrite IH.
    destruct (decide (x ∈ u)) as [Hin|Hin].
    + rewrite decide_True by (by right). lia.
    + rewrite decide_False; [lia|]. rewrite elem_of_cons. by intros [?|?].
Qed.

Lemma sum_map_ext (f g : value -> nat) (u : list value) :
  (forall k, k ∈ u -> f k = g k) -> sum_list (map f u) = sum_list (map g u).
Proof.
  induction u as [|y u IH]; simpl; intros H; [done|].
  rewrite (H y) by left. rewrite IH; [done|]. intros k Hk. apply H. by right.
Qed.

(** Every cell is counted once, under its own value. *)
Lemma sum_occurrences (l : list value) :
  sum_list (map (fun k => occurrences k l) (unique l)) = length l.
Proof.
  induction l as [|x l IH]; simpl; [done|].
  rewrite occurrences_cons, decide_True by done.
  rewrite (sum_map_ext _ (fun k => occurrences k l)).
  - pose proof (sum_without (fun k => occurrences k l) x (unique l) (NoDup_unique l)) as Hs.
    rewrite IH in Hs.
    destruct (decide (x ∈ unique l)) as [Hin|Hin]; [lia|].
    rewrite elem_of_unique in Hin. rewrite (occurrences_absent x l Hin). lia.
  - intros k Hk. apply list_elem_of_filter in Hk as [Hne _].
    rewrite occurrences_cons. rewrite decide_False; [done|]. by intros ->.
Qed.

Lemma groupby_size_lookup (s : list value) k n :
  groupby_size s !! k = Some n
  <-> isna k = false /\ k ∈ s /\ n = occurrences k s.
Proof.
  unfold groupby_size. rewrite <- elem_of_list_to_map.
  - rewrite list_elem_of_In, in_map_iff. split.
    + intros (k' & [= <- <-] & Hk). apply list_elem_of_In in Hk.
      rewrite elem_of_unique, list_elem_of_filter in Hk. destruct Hk as [Hn Hk].
      split_and!; try done. by destruct (isna k').
    + intros (Hn & Hk & ->). exists k. split; [done|].
      apply list_elem_of_In. rewrite elem_of_unique, list_elem_of_filter.
      split; [by rewrite Hn | done].
  - rewrite <- list_fmap_compose. simpl.
    replace (fst ∘ (fun k0 => (k0, occurrences k0 s))) with (@id value) by done.
    rewrite list_fmap_id. apply NoDup_unique.
Qed.

Lemma groupby_size_total (s : list value) :
  sum_list (snd <$> map_to_list (groupby_size s))
  = length (filter (fun v => negb (isna v)) s).
Proof.
  unfold groupby_size.
  set (keys := unique (filter (fun v => negb (isna v)) s)).
  assert (Hnd : NoDup ((map (fun k => (k, occurrences k s)) keys).*1)).
  { rewrite <- list_fmap_compose. simpl.
    replace (fst ∘ (fun k0 => (k0, occurrences k0 s))) with (@id value) by done.
    rewrite list_fmap_id. apply NoDup_unique. }
  rewrite (map_to_list_to_map _ Hnd).
  rewrite <- list_fmap_compose. simpl.
  rewrite <- (sum_occurrences (filter (fun v => negb (isna v)) s)).
  apply sum_map_ext. intros k Hk. simpl.
  subst keys. rewrite elem_of_unique, list_elem_of_filter in Hk. destruct Hk as [Hn _].
  by rewrite (occurrences_filter (fun v => negb (isna v)) k s Hn).
Qed.

(** X8.  [plot_transfers_per_gameweek] never raises.  For a table with a
    Gameweek column it draws one bar chart that has a bar exactly for the
    values, other than null, that occur in the column, each as high as the
    number of rows with that value, so that the heights add up to the
    number of rows whose gameweek is not null; for a table without the
    column it shows one warning and draws nothing. *)
Theorem transfers_counted_per_gameweek (df_transfers : DataFrame) :
  (forall gameweek,
     get_column "Gameweek" df_transfers = inr gameweek ->
     exists per_gw,
       plot_transfers_per_gameweek df_transfers =
       ([st_plotly_chart (px_bar_counts "Number of Transfers per Gameweek" per_gw)],
        inr tt)
       /\ (forall k n, per_gw !! k = Some n
                       <-> isna k = false /\ k ∈ gameweek /\ n = occurrences k gameweek)
       /\ sum_list (snd <$> map_to_list per_gw)
          = length (filter (fun v => negb (isna v)) gameweek))
  /\ (has_column "Gameweek" df_transfers = false ->
      plot_transfers_per_gameweek df_transfers =
      ([st_warning "'Gameweek' column not found for plotting transfers per gameweek." ∅],
       inr tt)).
Proof.
  split.
  - intros gameweek Hg. exists (groupby_size gameweek). split_and!.
    + unfold plot_transfers_per_gameweek.
      assert (Hc : has_column "Gameweek" df_transfers = true).
      { apply has_column_spec, assoc_is_Some. apply get_column_assoc in Hg.
        by rewrite Hg. }
      rewrite Hc, Hg. by run.
    + apply groupby_size_lookup.
    + apply groupby_size_total.
  - intros Hc. unfold plot_transfers_per_gameweek. by rewrite Hc.
Qed.

Lemma transfers_counted_per_gameweek_witness :
  exists per_gw,
    plot_transfers_per_gameweek four_transfers =
    ([st_plotly_chart (px_bar_counts "Number of Transfers per Gameweek" per_gw)], inr tt)
    /\ per_gw !! VInt 3 = Some 2%nat
    /\ sum_list (snd <$> map_to_list per_gw) = 3%nat.
Proof.
  destruct (proj1 (transfers_counted_per_gameweek four_transfers)
              [VInt 3; VInt 5; VInt 3; VNull] eq_refl)
    as (per_gw & Hplot & Hbars & Hsum).
  exists per_gw. split; [exact Hplot|]. split; [|exact Hsum].
  apply Hbars. split; [reflexivity|]. split; [by_decide | reflexivity].
Defined.

End PerGameweek.

Section LineCharts.
Context {L : Library}.
Hypothesis contract : argsort_contract L.

(** X9.  Under the contract of the library sort, for a table with
    distinct labels, columns of equal length and a Gameweek column whose
    cells are null or of one kind: the two line plots draw the same table,
    which holds the rows of the given one by Gameweek ascending with the
    nulls last; [plot_total_points_over_weeks] draws Total Points over
    Gameweek, [plot_rank_over_weeks] draws Rank over Gameweek with the
    vertical axis reversed, each as its one chart.  Whatever the table, a
    plot whose Gameweek column or value column is missing shows one warning
    and draws nothing. *)
Theorem line_charts_follow_gameweeks (df_history : DataFrame) :
  (forall kind gameweek,
     wf df_history ->
     get_column "Gameweek" df_history = inr gameweek ->
     Forall (fun v => isna v = true \/ same_kind kind v = true) gameweek ->
     exists sorted,
       Permutation (rows sorted) (rows df_history)
       /\ columns sorted = columns df_history
       /\ sorted_nulls_last true (column "Gameweek" sorted)
       /\ (has_column "Total Points" df_history = true ->
           plot_total_points_over_weeks df_history =
           ([st_plotly_chart (px_line "Total Points Over Gameweeks" "Gameweek"
                                      "Total Points" sorted false)], inr tt))
       /\ (has_column "Rank" df_history = true ->
           plot_rank_over_weeks df_history =
           ([st_plotly_chart (px_line "Rank Over Gameweeks" "Gameweek" "Rank"
                                      sorted true)], inr tt)))
  /\ (has_column "Gameweek" df_history && has_column "Total Points" df_history = false ->
      plot_total_points_over_weeks df_history =
      ([st_warning
          "'event' or 'points' columns not found for plotting total points over weeks." ∅],
       inr tt))
  /\ (has_column "Gameweek" df_history && has_column "Rank" df_history = false ->
      plot_rank_over_weeks df_history =
      ([st_warning "'Gameweek' or 'Rank' columns not found for plotting rank over weeks." ∅],
       inr tt)).
Proof.
  split_and!.
  - intros kind gameweek Hwf Hg Hkind. apply get_column_assoc in Hg.
    destruct (sort_step contract kind "Gameweek" true df_history gameweek Hwf Hg Hkind)
      as (sorted & keys & Hsort & Hrows & Hget & _ & Hsorted).
    assert (Hc : has_column "Gameweek" df_history = true).
    { apply has_column_spec, assoc_is_Some. by rewrite Hg. }
    exists sorted. split_and!.
    + done.
    + by apply (sort_keeps_columns "Gameweek" true).
    + apply get_column_assoc in Hget. unfold column. by rewrite Hget.
    + intros Hp. unfold plot_total_points_over_weeks. rewrite Hc, Hp, Hsort. by run.
    + intros Hr. unfold plot_rank_over_weeks. rewrite Hc, Hr, Hsort. by run.
  - intros Hc. unfold plot_total_points_over_weeks. by rewrite Hc.
  - intros Hc. unfold plot_rank_over_weeks. by rewrite Hc.
Qed.

End LineCharts.

Lemma line_charts_follow_gameweeks_witness :
  exists sorted,
    column "Gameweek" sorted = [VInt 1; VInt 2; VInt 3]
    /\ @plot_rank_over_weeks stable_library three_gameweeks =
       ([st_plotly_chart (px_line "Rank Over Gameweeks" "Gameweek" "Rank" sorted true)],
        inr tt).
Proof.
  assert (Hwf : wf three_gameweeks) by (split; by_decide).
  destruct (proj1 (@line_charts_follow_gameweeks stable_library stable_library_contract
                     three_gameweeks)
              (VInt 0) [VInt 2; VInt 3; VInt 1] Hwf eq_refl)
    as (sorted & _ & _ & _ & _ & Hrank).
  - repeat constructor; right; reflexivity.
  - specialize (Hrank eq_refl). exists sorted. split; [|exact Hrank].
    vm_compute in Hrank. injection Hrank as <-. reflexivity.
Defined.

Section HistoryShape.
Context {L : Library}.
Hypothesis contract : argsort_contract L.

Lemma assoc_elem_of {A} c (l : list (string * A)) t :
  assoc c l = Some t -> (c, t) ∈ l.
Proof.
  induction l as [|[k v] l IH]; simpl; [done|].
  destruct (String.eqb_spec k c) as [->|Hne].
  - intros [= ->]. by left.
  - intros H. right. auto.
Qed.

Lemma targets_distinct (l : list (string * string)) a b t :
  NoDup (map snd l) -> (a, t) ∈ l -> (b, t) ∈ l -> a = b.
Proof.
  induction l as [|[k v] l IH]; simpl; intros Hnd Ha Hb; [by apply elem_of_nil in Ha|].
  apply NoDup_cons in Hnd as [Hv Hnd].
  assert (Hin : forall x, (x, t) ∈ l -> t ∈ map snd l).
  { intros x Hx. apply list_elem_of_In, in_map_iff. exists (x, t).
    split; [done | by apply list_elem_of_In]. }
  apply elem_of_cons in Ha as [Ea|Ha]; apply elem_of_cons in Hb as [Eb|Hb].
  - congruence.
  - injection Ea as -> ->. exfalso. apply Hv. by apply (Hin b).
  - injection Eb as -> ->. exfalso. apply Hv. by apply (Hin a).
  - by apply IH.
Qed.

Lemma display_inj (labels : list (string * string)) a b :
  NoDup (map snd labels) ->
  a ∉ map snd labels -> b ∉ map snd labels ->
  display labels a = display labels b -> a = b.
Proof.
  intros Hnd Ha Hb. unfold display.
  assert (Hin : forall x t, assoc x labels = Some t -> t ∈ map snd labels).
  { intros x t Hx. apply assoc_elem_of in Hx. apply list_elem_of_In, in_map_iff.
    exists (x, t). split; [done | by apply list_elem_of_In]. }
  destruct (assoc a labels) as [ta|] eqn:Ea, (assoc b labels) as [tb|] eqn:Eb; simpl.
  - intros ->. apply assoc_elem_of in Ea, Eb. by apply (targets_distinct labels a b tb).
  - intros ->. exfalso. apply Hb. by apply (Hin a).
  - intros <-. exfalso. apply Ha. by apply (Hin b).
  - done.
Qed.

Lemma assoc_filter_present {A} (P : string -> bool) c (l : list (string * A)) :
  P c = true -> assoc c (filter (fun kv => P (fst kv)) l) = assoc c l.
Proof.
  intros Hc. induction l as [|[k v] l IH]; [done|]. rewrite filter_cons. simpl.
  destruct (String.eqb_spec k c) as [->|Hne].
  - rewrite decide_True by (by rewrite Hc). simpl. by rewrite String.eqb_refl.
  - destruct (decide (P k)); simpl; [|done].
    destruct (String.eqb_spec k c); [done | auto].
Qed.

(** Renaming by the labels that are present is renaming by all of them. *)
Lemma cols_renamed_history d :
  cols (renamed_history d)
  = map (fun kv => (display history_labels (fst kv), snd kv)) (cols d).
Proof.
  unfold renamed_history, rename. simpl. apply map_ext_in. intros [k v] Hin. simpl.
  f_equal. unfold display. f_equal.
  apply (assoc_filter_present (fun c => has_column c d)).
  apply has_column_spec, list_elem_of_In, in_map_iff. by exists (k, v).
Qed.

Lemma columns_renamed_history d :
  columns (renamed_history d) = map (display history_labels) (columns d).
Proof. unfold columns. by rewrite cols_renamed_history, !map_map. Qed.

Lemma NoDup_renamed_history d :
  NoDup (columns d) ->
  (forall c, c ∈ columns d -> c ∉ history_display_labels) ->
  NoDup (columns (renamed_history d)).
Proof.
  intros Hnd Hfree. rewrite columns_renamed_history.
  apply (NoDup_fmap_2_strong (display history_labels)); [|done].
  intros a b Ha Hb. apply display_inj; [by_decide | by apply Hfree | by apply Hfree].
Qed.

Lemma assoc_renamed (g : string -> string) (l : list (string * list value)) c s :
  (forall a, a ∈ map fst l -> g a = g c -> a = c) ->
  assoc c l = Some s ->
  assoc (g c) (map (fun kv => (g (fst kv), snd kv)) l) = Some s.
Proof.
  induction l as [|[k v] l IH]; simpl; intros Hinj; [done|].
  destruct (String.eqb_spec k c) as [->|Hne].
  - intros [= ->]. by rewrite String.eqb_refl.
  - intros Ha. destruct (String.eqb_spec (g k) (g c)) as [Heq|_].
    + exfalso. apply Hne, Hinj; [by left | done].
    + apply IH; [|done]. intros a Hin. apply Hinj. by right.
Qed.

Lemma assoc_renamed_None (g : string -> string) (l : list (string * list value)) t :
  (forall a, a ∈ map fst l -> g a <> t) ->
  assoc t (map (fun kv => (g (fst kv), snd kv)) l) = None.
Proof.
  intros H. apply assoc_None. rewrite map_map. simpl.
  intros Hin. apply list_elem_of_In, in_map_iff in Hin as ([k v] & Hk & Hin).
  simpl in Hk. apply (H k); [|done].
  apply list_elem_of_In, in_map_iff. by exists (k, v).
Qed.

(** A display column of the renamed table is the column it is named
    after. *)
Lemma renamed_column d c t :
  (forall c, c ∈ columns d -> c ∉ history_display_labels) ->
  assoc c history_labels = Some t ->
  assoc t (cols (renamed_history d)) = assoc c (cols d).
Proof.
  intros Hfree Hct. rewrite cols_renamed_history.
  assert (Ht : display history_labels c = t) by (unfold display; by rewrite Hct).
  assert (Hinj : forall a, a ∈ map fst (cols d) ->
            display history_labels a = display history_labels c -> a = c).
  { intros a Ha Heq. rewrite Ht in Heq.
    unfold display in Heq. destruct (assoc a history_labels) as [t'|] eqn:Et; simpl in Heq.
    - subst t'. apply assoc_elem_of in Et, Hct.
      apply (targets_distinct history_labels a c t); [by_decide | done | done].
    - subst a. exfalso. apply (Hfree _ Ha). apply assoc_elem_of in Hct.
      apply list_elem_of_In, in_map_iff. exists (c, t). split; [done|].
      by apply list_elem_of_In. }
  destruct (assoc c (cols d)) as [s|] eqn:Ea.
  - rewrite <- Ht. by apply assoc_renamed.
  - rewrite <- Ht. apply assoc_renamed_None. intros a Ha Heq.
    apply assoc_None in Ea. apply Ea.
    rewrite <- (Hinj a Ha); done.
Qed.

(** The Gameweek column of the renamed table is the [event] column. *)
Lemma gameweek_of_renamed d :
  (forall c, c ∈ columns d -> c ∉ history_display_labels) ->
  assoc "Gameweek" (cols (renamed_history d)) = assoc "event" (cols d).
Proof. intros Hfree. by apply renamed_column. Qed.

End HistoryShape.

Section HistoryTab.
Context {L : Library}.
Hypothesis contract : argsort_contract L.

Lemma filtered_positions (P : value -> bool) (pre l : list value) :
  map (fun i => nth i (pre ++ l) VNull)
      (filter (fun i => P (nth i (pre ++ l) VNull)) (seq (length pre) (length l)))
  = filter (fun v => P v) l.
Proof.
  revert pre. induction l as [|x l IH]; intros pre; [done|].
  simpl. rewrite !filter_cons, nth_middle.
  specialize (IH (pre ++ [x])). rewrite <- app_assoc, length_app, Nat.add_comm in IH.
  simpl in IH. destruct (decide (P x)); simpl; [|done].
  by rewrite nth_middle, IH.
Qed.

Lemma non_null_positions (items : list value) :
  map (fun i => nth i items VNull)
      (filter (fun i => negb (isna (nth i items VNull))) (seq 0 (length items)))
  = non_null items.
Proof. apply (filtered_positions (fun v => negb (isna v)) [] items). Qed.

Lemma nargsort_ascending (items : list value) :
  nargsort true items =
  if comparableb (non_null items)
  then inr (map (fun i => nth i (filter (fun i => negb (isna (nth i items VNull)))
                                        (seq 0 (length items))) 0%nat)
                (np_argsort (non_null items))
            ++ filter (fun i => isna (nth i items VNull)) (seq 0 (length items)))
  else inl (TypeError "'<' not supported between instances").
Proof. unfold nargsort. cbv zeta. by rewrite non_null_positions. Qed.

Lemma elem_of_non_null (s : list value) v : v ∈ non_null s <-> v ∈ s /\ isna v = false.
Proof.
  unfold non_null. rewrite list_elem_of_filter. destruct (isna v); simpl; intuition congruence.
Qed.

Lemma comparable_kind (keys : list value) :
  comparableb (non_null keys) = true ->
  exists k, Forall (fun v => isna v = true \/ same_kind k v = true) keys.
Proof.
  intros Hc. destruct (non_null keys) as [|v0 rest] eqn:Hnn.
  - exists VNull. apply Forall_forall. intros v Hv.
    destruct (isna v) eqn:Hna; [by left|]. exfalso.
    assert (Hin : v ∈ non_null keys) by (by apply elem_of_non_null).
    rewrite Hnn in Hin. by apply elem_of_nil in Hin.
  - exists v0. apply Forall_forall. intros v Hv.
    destruct (isna v) eqn:Hna; [by left|]. right.
    assert (Hin : v ∈ non_null keys) by (by apply elem_of_non_null).
    rewrite Hnn in Hin. unfold comparableb in Hc.
    rewrite forallb_forall in Hc. apply Hc. by apply list_elem_of_In.
Qed.

Lemma comparableb_one_kind (s : list value) :
  comparableb (non_null s) = true <-> of_one_kind s.
Proof.
  split.
  - intros Hc a b Ha Hb Hna Hnb. destruct (comparable_kind s Hc) as [k Hk].
    rewrite Forall_forall in Hk.
    destruct (Hk a Ha) as [?|Hka]; [congruence|].
    destruct (Hk b Hb) as [?|Hkb]; [congruence|].
    by apply (same_kind_trans k).
  - intros Hone. destruct (non_null s) as [|v0 rest] eqn:Hnn; [done|].
    unfold comparableb. apply forallb_forall. intros w Hw.
    apply list_elem_of_In in Hw. rewrite <- Hnn in Hw.
    assert (H0 : v0 ∈ non_null s) by (rewrite Hnn; left).
    apply elem_of_non_null in Hw as [Hw Hnw], H0 as [H0 Hn0]. by apply Hone.
Qed.

Lemma wf_take idx df : NoDup (columns df) -> wf (take idx df).
Proof.
  intros Hnd. split.
  - by rewrite columns_take.
  - unfold take. simpl. apply Forall_map, Forall_forall. intros kv _. simpl.
    by rewrite length_map.
Qed.

Lemma sort_values_unique label ascending df keys :
  NoDup (columns df) ->
  assoc label (cols df) = Some keys ->
  sort_values label ascending df
  = rbind (nargsort ascending keys) (fun indexer => inr (take indexer df)).
Proof.
  intros Hnd Ha. unfold sort_values.
  destruct (filter_label_unique label (cols df) Hnd) as (s & -> & Hs).
  { apply assoc_is_Some. by rewrite Ha. }
  rewrite Ha in Hs. by injection Hs as <-.
Qed.

Lemma sort_values_missing label ascending df :
  assoc label (cols df) = None -> sort_values label ascending df = inl (KeyError label).
Proof.
  intros Ha. unfold sort_values. apply assoc_None in Ha.
  by rewrite (filter_label_absent label (cols df) Ha).
Qed.

(** The two line plots end normally on a table whose gameweeks can be
    compared. *)
Lemma line_plots_ok d :
  wf d ->
  of_one_kind (column "Gameweek" d) ->
  exists points rank,
    plot_total_points_over_weeks d = (points, inr tt)
    /\ plot_rank_over_weeks d = (rank, inr tt).
Proof.
  intros Hwf Hone. unfold plot_total_points_over_weeks, plot_rank_over_weeks.
  destruct (has_column "Gameweek" d) eqn:Hc; simpl; [|eauto].
  apply has_column_spec, assoc_is_Some in Hc as [gw Hgw].
  unfold column in Hone. rewrite Hgw in Hone. simpl in Hone.
  apply comparableb_one_kind, comparable_kind in Hone as [k Hk].
  destruct (sort_step contract k "Gameweek" true d gw Hwf Hgw Hk) as (d' & ? & -> & _).
  destruct (has_column "Total Points" d), (has_column "Rank" d); run; eauto.
Qed.

Lemma wf_renamed_history d :
  wf d ->
  (forall c, c ∈ columns d -> c ∉ history_display_labels) ->
  wf (renamed_history d).
Proof.
  intros [Hnd Hlen] Hfree. split; [by apply NoDup_renamed_history|].
  rewrite cols_renamed_history. by apply Forall_map.
Qed.

(** The selection of the history tab on a table none of whose labels is a
    display label. *)
Lemma select_history_frame d :
  wf d ->
  (forall c, c ∈ columns d -> c ∉ history_display_labels) ->
  exists selected,
    select_history d =
    (warning_for "The following history columns are missing and will be excluded: "
                 (missing_from (columns (renamed_history d)) desired_history_columns),
     inr selected)
    /\ wf selected
    /\ nrows selected = nrows d
    /\ assoc "Gameweek" (cols selected) = assoc "event" (cols d).
Proof.
  intros Hwf Hfree.
  pose proof (wf_renamed_history d Hwf Hfree) as Hwfr.
  rewrite (select_history_spec d (proj1 Hwfr)).
  set (rd := renamed_history d) in *.
  set (av := available_in (columns rd) desired_history_columns).
  eexists. split; [reflexivity|]. split_and!.
  - split.
    + unfold columns. simpl. rewrite map_map. simpl. rewrite map_id.
      apply NoDup_filter. by_decide.
    + simpl. apply Forall_map, Forall_forall. intros c Hc. simpl.
      apply elem_of_available in Hc as [_ Hc].
      apply assoc_is_Some in Hc as [s Hs]. unfold column. rewrite Hs. simpl.
      by apply (wf_column_length c rd s).
  - done.
  - simpl. rewrite (assoc_tabulate (fun c => column c rd)).
    pose proof (gameweek_of_renamed d Hfree) as Hg. fold rd in Hg.
    destruct (assoc "event" (cols d)) as [s|] eqn:He.
    + rewrite decide_True.
      * unfold column. by rewrite Hg.
      * apply elem_of_available. split; [by_decide|]. apply assoc_is_Some. by rewrite Hg.
    + rewrite decide_False; [done|]. intros Hin.
      apply elem_of_available in Hin as [_ Hin]. apply assoc_is_Some in Hin.
      rewrite Hg in Hin. by destruct Hin.
Qed.

Lemma nth_elem_or_null (l : list value) i :
  nth i l VNull ∈ l \/ nth i l VNull = VNull.
Proof.
  destruct (nth_in_or_default i l VNull) as [H|H]; [left; by apply list_elem_of_In | by right].
Qed.

Lemma shape_history_sorted d :
  wf d ->
  (forall c, c ∈ columns d -> c ∉ history_display_labels) ->
  of_one_kind (column "event" d) ->
  exists shaped,
    shape_history d =
    (warning_for "The following history columns are missing and will be excluded: "
                 (missing_from (columns (renamed_history d)) desired_history_columns),
     inr shaped)
    /\ wf shaped
    /\ nrows shaped = nrows d
    /\ of_one_kind (column "Gameweek" shaped).
Proof.
  intros Hwf Hfree Hone.
  destruct (select_history_frame d Hwf Hfree) as (selected & Hsel & Hwfs & Hn & Hg).
  unfold shape_history. rewrite Hsel. run. unfold sort_history.
  destruct (assoc "event" (cols d)) as [keys|] eqn:He.
  - assert (Hc : has_column "Gameweek" selected = true).
    { apply has_column_spec, assoc_is_Some. by rewrite Hg. }
    rewrite Hc. run. rewrite (sort_values_unique _ _ _ keys (proj1 Hwfs) Hg).
    unfold column in Hone. rewrite He in Hone. simpl in Hone.
    destruct (nargsort true keys) as [e|idx] eqn:Hidx.
    { rewrite nargsort_ascending in Hidx. apply comparableb_one_kind in Hone.
      by rewrite Hone in Hidx. }
    simpl. exists (take idx selected). rewrite app_nil_r. split_and!; try done.
    + apply wf_take, Hwfs.
    + rewrite nrows_take, (nargsort_length contract _ _ _ Hidx).
      rewrite (wf_column_length "Gameweek" selected keys Hwfs Hg). done.
    + unfold column, take. simpl. rewrite assoc_take, Hg. simpl.
      intros a b Ha Hb Hna Hnb.
      apply list_elem_of_In, in_map_iff in Ha as (i & <- & _).
      apply list_elem_of_In, in_map_iff in Hb as (j & <- & _).
      destruct (nth_elem_or_null keys i) as [Hi|Hi]; [|by rewrite Hi in Hna].
      destruct (nth_elem_or_null keys j) as [Hj|Hj]; [|by rewrite Hj in Hnb].
      by apply Hone.
  - assert (Hc : has_column "Gameweek" selected = false).
    { apply has_column_false, assoc_None. by rewrite Hg. }
    rewrite Hc. run. exists selected. rewrite app_nil_r. split_and!; try done.
    unfold column. rewrite Hg. simpl. by intros a b Ha%elem_of_nil.
Qed.

Lemma shape_history_fails d :
  wf d ->
  (forall c, c ∈ columns d -> c ∉ history_display_labels) ->
  ~ of_one_kind (column "event" d) ->
  shape_history d =
  (warning_for "The following history columns are missing and will be excluded: "
               (missing_from (columns (renamed_history d)) desired_history_columns),
   inl (TypeError "'<' not supported between instances")).
Proof.
  intros Hwf Hfree Hone.
  destruct (select_history_frame d Hwf Hfree) as (selected & Hsel & Hwfs & Hn & Hg).
  unfold shape_history. rewrite Hsel. run. unfold sort_history.
  destruct (assoc "event" (cols d)) as [keys|] eqn:He.
  - assert (Hc : has_column "Gameweek" selected = true).
    { apply has_column_spec, assoc_is_Some. by rewrite Hg. }
    rewrite Hc. run. rewrite (sort_values_unique _ _ _ keys (proj1 Hwfs) Hg).
    unfold column in Hone. rewrite He in Hone. simpl in Hone.
    rewrite nargsort_ascending.
    destruct (comparableb (non_null keys)) eqn:Hcmp.
    + exfalso. by apply Hone, comparableb_one_kind.
    + simpl. by rewrite app_nil_r.
  - exfalso. apply Hone. unfold column. rewrite He. simpl. by intros a b Ha%elem_of_nil.
Qed.

End HistoryTab.

Section HistoryTabTheorems.
Context {L : Library}.
Hypothesis contract : argsort_contract L.

Lemma fetched_history up TID status reason history_data :
  history_endpoint up TID = Response status reason (Some history_data) ->
  is_error_status status = false ->
  fetch_history up TID =
  ([requests_get (history_url TID)], inr (json_normalize (all_history history_data))).
Proof.
  intros Ho Hs. rewrite fetch_history_run, Ho, (fetch_result_response _ _ _ _ _ _ Hs).
  unfold process_history. by destruct (all_history history_data).
Qed.

Lemma empty_json_normalize records :
  empty (json_normalize records) = true <-> forall r, r ∈ records -> r = [].
Proof.
  unfold empty. rewrite orb_true_iff, !Nat.eqb_eq. split.
  - intros [Hn|Hc] r Hr.
    + simpl in Hn. destruct records; [by apply elem_of_nil in Hr | done].
    + destruct r as [|[k v] r']; [done|]. exfalso.
      assert (Hk : k ∈ columns (json_normalize records)).
      { apply elem_of_columns_json_normalize. exists ((k, v) :: r').
        split; [done|]. simpl. rewrite String.eqb_refl. eauto. }
      unfold columns in Hk. destruct (cols (json_normalize records)); [|done].
      by apply elem_of_nil in Hk.
  - intros Hall. right.
    destruct (cols (json_normalize records)) as [|[k v] l] eqn:Hcols; [done|]. exfalso.
    assert (Hk : k ∈ columns (json_normalize records)).
    { unfold columns. rewrite Hcols. by left. }
    apply elem_of_columns_json_normalize in Hk as (r & Hr & Hsome).
    rewrite (Hall r Hr) in Hsome. by destruct Hsome.
Qed.

Lemma non_null_nulls (s : list value) :
  Forall (fun v => isna v = true) s -> non_null s = [].
Proof.
  unfold non_null. induction 1 as [|v l Hv _ IH]; [done|].
  rewrite filter_cons_False; [done|]. rewrite Hv. simpl. tauto.
Qed.

Lemma non_null_event_column records :
  non_null (column "event" (json_normalize records)) = non_null (cells "event" records).
Proof.
  destruct (decide ("event" ∈ columns (json_normalize records))) as [Hc|Hc].
  - unfold column. by rewrite (column_json_normalize _ _ Hc).
  - unfold column. apply assoc_None in Hc as Ha. rewrite Ha. simpl.
    symmetry. apply non_null_nulls. unfold cells. apply Forall_map, Forall_forall.
    intros r Hr. destruct (assoc "event" r) as [v|] eqn:Hv; [|done].
    exfalso. apply Hc, elem_of_columns_json_normalize. exists r. by rewrite Hv.
Qed.

Lemma one_kind_non_null (s s' : list value) :
  non_null s = non_null s' -> of_one_kind s -> of_one_kind s'.
Proof.
  intros Heq Hone. apply comparableb_one_kind. rewrite <- Heq.
  by apply comparableb_one_kind.
Qed.

Lemma free_labels records :
  (forall r c, r ∈ records -> c ∈ history_display_labels -> assoc c r = None) ->
  forall c, c ∈ columns (json_normalize records) -> c ∉ history_display_labels.
Proof.
  intros Hfree c Hc Hl. apply elem_of_columns_json_normalize in Hc as (r & Hr & Hsome).
  rewrite (Hfree r c Hr Hl) in Hsome. by destruct Hsome.
Qed.

(** X10.  For a history response that was decoded, none of whose records
    has a key that is one of the tab's display labels: the history tab ends
    without an exception exactly when the [event] cells other than null are
    of one kind.  When two of them are of different kinds, say a number and
    a string, the sort by Gameweek raises a [TypeError]; it is no
    [RuntimeError], so it leaves the tab through its [try], after the
    warning about missing columns and before any table is shown. *)
Theorem history_tab_ends_normally_iff (up : Upstream) (TID : string)
    (status : Z) (reason : string) (history_data : history_json) :
  history_endpoint up TID = Response status reason (Some history_data) ->
  is_error_status status = false ->
  (forall r c, r ∈ all_history history_data -> c ∈ map snd history_labels ->
               assoc c r = None) ->
  (outcome (history_tab up TID) = inr tt
   <-> of_one_kind (cells "event" (all_history history_data)))
  /\ (~ of_one_kind (cells "event" (all_history history_data)) ->
      (exists msg, outcome (history_tab up TID) = inl (TypeError msg))
      /\ forall shown, st_dataframe shown ∉ trace (history_tab up TID)).
Proof.
  intros Ho Hs Hfree. set (records := all_history history_data) in *.
  pose proof (fetched_history up TID status reason history_data Ho Hs) as Hrun.
  fold records in Hrun.
  pose proof (wf_json_normalize records) as Hwf.
  pose proof (free_labels records Hfree) as Hfree'.
  pose proof (empty_json_normalize records) as Hem.
  pose proof (non_null_event_column records) as Hnn.
  remember (json_normalize records) as d eqn:Hd in *.
  assert (Hgood : of_one_kind (cells "event" records) ->
            outcome (history_tab up TID) = inr tt).
  { intros Hone. unfold history_tab. rewrite Hrun. unfold try_except. run.
    destruct (empty d); simpl; [done|].
    destruct (shape_history_sorted contract _ Hwf Hfree') as (shaped & -> & Hwfs & _ & Hk).
    { by apply (one_kind_non_null (cells "event" records)). }
    simpl. destruct (line_plots_ok contract shaped Hwfs Hk) as (points & rank & -> & ->).
    done. }
  assert (Hbad : ~ of_one_kind (cells "event" records) ->
            history_tab up TID =
            ([with_tab 1; st_header "Your Performance History";
              requests_get (history_url TID)]
             ++ warning_for "The following history columns are missing and will be excluded: "
                  (missing_from (columns (renamed_history d)) desired_history_columns),
             inl (TypeError "'<' not supported between instances"))).
  { intros Hone. unfold history_tab. rewrite Hrun. unfold try_except. run.
    destruct (empty d) eqn:Hempty; simpl.
    - exfalso. apply Hone. intros a b Ha _ Hna _.
      apply list_elem_of_In, in_map_iff in Ha as (r & <- & Hr).
      apply list_elem_of_In in Hr.
      rewrite (proj1 Hem eq_refl r Hr) in Hna. done.
    - rewrite (shape_history_fails _ Hwf Hfree'); [done|].
      intros H. apply Hone. by apply (one_kind_non_null (column "event" d)). }
  split_and!.
  - split; [|done]. intros Hok.
    destruct (comparableb (non_null (cells "event" records))) eqn:Hc.
    + by apply comparableb_one_kind.
    + exfalso. rewrite Hbad in Hok; [done|]. intros H.
      apply comparableb_one_kind in H. congruence.
  - intros Hone. rewrite (Hbad Hone). split; [by eexists|]. intros shown.
    unfold trace, warning_for. simpl. destruct (bool_decide _); simpl; intros H;
      repeat (apply elem_of_cons in H as [H|H]; [discriminate H|]);
      by apply elem_of_nil in H.
Qed.

(** X11.  Under the same conditions, when the gameweeks are of one kind:
    a response all of whose records are empty, or that has none, makes the
    tab show the message that no performance history is available, and
    nothing else; any other response makes it show, in this order, the
    warning of the selection step, the shaped table with one row per
    record, the two line plots, and the download button, which offers the
    very table that is shown. *)
Theorem history_tab_table_or_notice (up : Upstream) (TID : string)
    (status : Z) (reason : string) (history_data : history_json) :
  history_endpoint up TID = Response status reason (Some history_data) ->
  is_error_status status = false ->
  (forall r c, r ∈ all_history history_data -> c ∈ map snd history_labels ->
               assoc c r = None) ->
  of_one_kind (cells "event" (all_history history_data)) ->
  ((forall r, r ∈ all_history history_data -> r = []) ->
   history_tab up TID =
   ([with_tab 1; st_header "Your Performance History"; requests_get (history_url TID);
     st_info "No performance history data available for this Team ID."], inr tt))
  /\ ((exists r, r ∈ all_history history_data /\ r <> []) ->
      exists warnings shaped points rank,
        shape_history (json_normalize (all_history history_data)) = (warnings, inr shaped)
        /\ nrows shaped = length (all_history history_data)
        /\ plot_total_points_over_weeks shaped = (points, inr tt)
        /\ plot_rank_over_weeks shaped = (rank, inr tt)
        /\ history_tab up TID =
           ([with_tab 1; st_header "Your Performance History";
             requests_get (history_url TID)]
            ++ warnings
            ++ [st_dataframe shaped; st_subheader "Total Points Over Gameweeks"]
            ++ points
            ++ [st_subheader "Rank Over Gameweeks"]
            ++ rank
            ++ [st_download_button "Download Performance History as CSV" shaped
                                   "fpl_performance_history.csv"],
            inr tt)).
Proof.
  intros Ho Hs Hfree Hone. set (records := all_history history_data) in *.
  pose proof (fetched_history up TID status reason history_data Ho Hs) as Hrun.
  fold records in Hrun.
  pose proof (wf_json_normalize records) as Hwf.
  pose proof (free_labels records Hfree) as Hfree'.
  pose proof (empty_json_normalize records) as Hem.
  pose proof (non_null_event_column records) as Hnn.
  remember (json_normalize records) as d eqn:Hd in *.
  split.
  - intros Hall. apply Hem in Hall.
    unfold history_tab. rewrite Hrun. unfold try_except. run. by rewrite Hall.
  - intros (r & Hr & Hne).
    assert (Hempty : empty d = false).
    { destruct (empty d) eqn:He; [|done].
      exfalso. apply Hne. by apply (proj1 Hem eq_refl). }
    destruct (shape_history_sorted contract _ Hwf Hfree')
      as (shaped & Hshape & Hwfs & Hn & Hk).
    { by apply (one_kind_non_null (cells "event" records)). }
    destruct (line_plots_ok contract shaped Hwfs Hk) as (points & rank & Hp & Hrk).
    eexists _, shaped, points, rank. split_and!; try done.
    { rewrite Hn, Hd. unfold json_normalize. done. }
    unfold history_tab. rewrite Hrun. unfold try_except. run.
    rewrite Hempty, Hshape, Hp, Hrk. simpl. by rewrite <- ?app_assoc.
Qed.

End HistoryTabTheorems.

Lemma history_tab_ends_normally_iff_witness :
  exists msg,
    outcome (@history_tab stable_library upstream_mixed "7108828") = inl (TypeError msg).
Proof.
  apply (@history_tab_ends_normally_iff stable_library stable_library_contract
           upstream_mixed "7108828" 200 "OK" mixed_history eq_refl eq_refl).
  - intros r c Hr Hc. revert r Hr. apply Forall_forall.
    revert c Hc. apply Forall_forall. vm_compute. repeat constructor.
  - intros H. specialize (H (VInt 1) (VStr "2")). simpl in H.
    discriminate H; [by_decide | by_decide | reflexivity | reflexivity].
Defined.

Lemma history_tab_table_or_notice_witness :
  exists shaped,
    st_dataframe shaped ∈ trace (@history_tab stable_library upstream_ok "7108828")
    /\ st_download_button "Download Performance History as CSV" shaped
                          "fpl_performance_history.csv"
       ∈ trace (@history_tab stable_library upstream_ok "7108828")
    /\ nrows shaped = 3%nat.
Proof.
  destruct (proj2 (@history_tab_table_or_notice stable_library stable_library_contract
                     upstream_ok "7108828" 200 "OK" sample_history eq_refl eq_refl
                     ltac:(intros r c Hr Hc; revert r Hr; apply Forall_forall;
                           revert c Hc; apply Forall_forall; vm_compute;
                           repeat constructor)
                     ltac:(intros a b Ha Hb _ _; revert b Hb; apply Forall_forall;
                           revert a Ha; apply Forall_forall; vm_compute;
                           repeat constructor)))
    as (warnings & shaped & points & rank & _ & Hn & _ & _ & Htab).
  - exists [("event", VInt 2); ("points", VInt 61); ("total_points", VInt 130)].
    split; [by_decide | discriminate].
  - exists shaped. rewrite Htab. unfold trace. simpl. split_and!.
    + find_event.
    + find_event.
    + exact Hn.
Defined.

Lemma trace_bind (P : event -> Prop) {A B} (m : M A) (f : A -> M B) :
  Forall P (trace m) -> (forall a, Forall P (trace (f a))) ->
  Forall P (trace (m ≫= f)).
Proof.
  intros Hm Hf. unfold mbind, M_bind, bind, trace in *.
  destruct m as [log [e|a]]; simpl in *; [done|].
  specialize (Hf a). destruct (f a) as [log' r]. simpl in *. by apply Forall_app.
Qed.

Ltac shown :=
  repeat match goal with
         | |- Forall _ (trace (mbind _ _)) => apply trace_bind; [|intros ?]
         | |- Forall _ (trace (if ?b then _ else _)) => destruct b
         | |- Forall _ (trace (lift _)) => by constructor
         | |- Forall _ (trace (mret _)) => by constructor
         | |- Forall _ (trace (ret _)) => by constructor
         | |- Forall _ (trace (emit _)) => by repeat constructor
         end.

Ltac all_shown :=
  repeat first
    [ done
    | apply Forall_nil_2
    | apply Forall_cons_2; [reflexivity|]
    | apply Forall_app_2 ].

Section Traces.
Context {L : Library}.

Lemma name_players_shown players d :
  Forall (fun ev => tab_display ev = true) (trace (name_players players d)).
Proof. unfold name_players. shown. Qed.

Lemma select_transfers_shown d :
  Forall (fun ev => tab_display ev = true) (trace (select_transfers d)).
Proof. unfold select_transfers. cbv zeta. shown. Qed.

Lemma sort_transfers_shown d :
  Forall (fun ev => tab_display ev = true) (trace (sort_transfers d)).
Proof. unfold sort_transfers. shown. Qed.

Lemma shape_transfers_shown players d :
  Forall (fun ev => tab_display ev = true) (trace (shape_transfers players d)).
Proof.
  unfold shape_transfers. shown.
  - apply name_players_shown.
  - apply select_transfers_shown.
  - apply sort_transfers_shown.
Qed.

Lemma plot_transfers_per_gameweek_shown d :
  Forall (fun ev => tab_display ev = true) (trace (plot_transfers_per_gameweek d)).
Proof. unfold plot_transfers_per_gameweek. shown. Qed.

Lemma plot_players_in_out_shown d :
  Forall (fun ev => tab_display ev = true) (trace (plot_players_in_out d)).
Proof. unfold plot_players_in_out. shown. Qed.

Lemma plot_total_points_over_weeks_shown d :
  Forall (fun ev => tab_display ev = true) (trace (plot_total_points_over_weeks d)).
Proof. unfold plot_total_points_over_weeks. shown. Qed.

Lemma plot_rank_over_weeks_shown d :
  Forall (fun ev => tab_display ev = true) (trace (plot_rank_over_weeks d)).
Proof. unfold plot_rank_over_weeks. shown. Qed.

Lemma shape_history_shown d :
  Forall (fun ev => tab_display ev = true) (trace (shape_history d)).
Proof.
  unfold shape_history, select_history, sort_history. cbv zeta. shown.
Qed.

(** The transfers tab: its opening, its one request, then display only. *)
Lemma transfers_tab_shown up players TID :
  exists tr,
    trace (transfers_tab up players TID) =
    with_tab 0 :: st_header "Your Transfer History"
      :: requests_get (transfers_url TID) :: tr
    /\ Forall (fun ev => tab_display ev = true) tr.
Proof.
  unfold transfers_tab. rewrite fetch_transfers_run. unfold try_except. run.
  destruct (fetch_result _ _ _ _) as [e|df]; simpl.
  - destruct (is_runtime_error e); simpl; eexists; (split; [reflexivity|]);
      all_shown.
  - destruct (empty df); simpl.
    { eexists. split; [reflexivity|]. all_shown. }
    pose proof (shape_transfers_shown players df) as H0.
    destruct (shape_transfers players df) as [tr0 [e|shaped]]; simpl in *.
    { eexists. split; [reflexivity|]. all_shown. }
    pose proof (plot_transfers_per_gameweek_shown shaped) as H1.
    destruct (plot_transfers_per_gameweek shaped) as [tr1 [e|[]]]; simpl in *.
    { eexists. split; [reflexivity|]. all_shown. }
    pose proof (plot_players_in_out_shown shaped) as H2.
    destruct (plot_players_in_out shaped) as [tr2 [e|[]]]; simpl in *.
    { eexists. split; [reflexivity|]. all_shown. }
    eexists. split; [reflexivity|]. all_shown.
Qed.

(** The history tab: its opening, its one request, then display only. *)
Lemma history_tab_shown up TID :
  exists tr,
    trace (history_tab up TID) =
    with_tab 1 :: st_header "Your Performance History"
      :: requests_get (history_url TID) :: tr
    /\ Forall (fun ev => tab_display ev = true) tr.
Proof.
  unfold history_tab. rewrite fetch_history_run. unfold try_except. run.
  destruct (fetch_result _ _ _ _) as [e|df]; simpl.
  - destruct (is_runtime_error e); simpl; eexists; (split; [reflexivity|]);
      all_shown.
  - destruct (empty df); simpl.
    { eexists. split; [reflexivity|]. all_shown. }
    pose proof (shape_history_shown df) as H0.
    destruct (shape_history df) as [tr0 [e|shaped]]; simpl in *.
    { eexists. split; [reflexivity|]. all_shown. }
    pose proof (plot_total_points_over_weeks_shown shaped) as H1.
    destruct (plot_total_points_over_weeks shaped) as [tr1 [e|[]]]; simpl in *.
    { eexists. split; [reflexivity|]. all_shown. }
    pose proof (plot_rank_over_weeks_shown shaped) as H2.
    destruct (plot_rank_over_weeks shaped) as [tr2 [e|[]]]; simpl in *.
    { eexists. split; [reflexivity|]. all_shown. }
    eexists. split; [reflexivity|]. all_shown.
Qed.

End Traces.

Section MainRuns.
Context {L : Library}.
Hypothesis contract : argsort_contract L.

Lemma main_empty up : main up "" = (page_top ++ [st_divider; donate_message], inr tt).
Proof. done. Qed.

Lemma filter_shown (Q : event -> bool) (tr : list event) :
  (forall ev, tab_display ev = true -> Q ev = false) ->
  Forall (fun ev => tab_display ev = true) tr ->
  filter (fun ev => Q ev) tr = [].
Proof.
  intros HQ. induction 1 as [|ev tr Hev _ IH]; [done|].
  rewrite filter_cons_False; [done|]. rewrite (HQ ev Hev). simpl. tauto.
Qed.

Lemma not_shown (ev : event) (tr : list event) :
  tab_display ev = false ->
  Forall (fun ev => tab_display ev = true) tr -> ev ∉ tr.
Proof.
  intros Hev Htr Hin. rewrite Forall_forall in Htr. apply Htr in Hin. congruence.
Qed.

(** A run with the directory at hand: both tabs, in their order, and the
    footer when the history tab has ended normally. *)
Lemma main_with_directory up TID players :
  isdigit TID = true ->
  outcome (fetch_players up) = inr players ->
  exists tr1 tr2 r,
    Forall (fun ev => tab_display ev = true) tr1
    /\ Forall (fun ev => tab_display ev = true) tr2
    /\ history_tab up TID =
       (with_tab 1 :: st_header "Your Performance History"
          :: requests_get (history_url TID) :: tr2, r)
    /\ main up TID =
       (page_top
        ++ [st_spinner "Fetching player data..."; requests_get players_url;
            st_tabs ["Transfer History"; "Performance History"]]
        ++ (with_tab 0 :: st_header "Your Transfer History"
              :: requests_get (transfers_url TID) :: tr1)
        ++ (with_tab 1 :: st_header "Your Performance History"
              :: requests_get (history_url TID) :: tr2)
        ++ match r with inr _ => [st_divider; donate_message] | inl _ => [] end,
        match r with inr _ => inr tt | inl e => inl e end).
Proof.
  intros Hd. rewrite fetch_players_run. unfold outcome. simpl. intros Hp.
  assert (Ht : truthy TID = true) by (by destruct TID).
  destruct (transfers_tab_total contract up players TID) as [tr1 Htab].
  destruct (transfers_tab_shown up players TID) as (tr1' & Htr1 & Hshown1).
  rewrite Htab in Htr1. unfold trace in Htr1. simpl in Htr1.
  injection Htr1 as <-.
  destruct (history_tab_shown up TID) as (tr2 & Htr2 & Hshown2).
  destruct (history_tab up TID) as [trh r] eqn:Hh. unfold trace in Htr2. simpl in Htr2.
  subst trh. exists tr1, tr2, r. split_and!; try done.
  unfold main. rewrite Ht, Hd, fetch_players_run. unfold try_except. run.
  rewrite Hp. simpl. rewrite Htab. simpl. rewrite Hh. simpl.
  destruct r as [e|[]]; simpl.
  - by rewrite app_nil_r.
  - by rewrite <- app_assoc.
Qed.

Lemma filter_cons_bool (Q : event -> bool) (ev : event) (tr : list event) :
  filter (fun ev => Q ev) (ev :: tr)
  = if Q ev then ev :: filter (fun ev => Q ev) tr else filter (fun ev => Q ev) tr.
Proof. rewrite filter_cons. by destruct (Q ev). Qed.

Lemma shown_no_request ev : tab_display ev = true -> is_request ev = false.
Proof. by destruct ev. Qed.

Lemma shown_no_tabs ev : tab_display ev = true -> is_tabs ev = false.
Proof. by destruct ev. Qed.

Lemma shown_no_footer ev : tab_display ev = true -> is_footer ev = false.
Proof. by destruct ev. Qed.

(** X12.  Under the contract of the library sort, a run of [main] makes
    no request unless the identifier is all digits; for such an identifier
    it requests the directory, and only when that fetch succeeded does it
    open the two tabs, Transfer History before Performance History, and
    request the transfers and then the history of the identifier: three
    requests at most, each URL once, and none after a failed directory
    fetch. *)
Theorem main_requests_by_input (up : Upstream) (TID : string) :
  filter (fun ev => is_request ev) (trace (main up TID)) =
  (if isdigit TID then
     match outcome (fetch_players up) with
     | inr _ => [requests_get players_url; requests_get (transfers_url TID);
                 requests_get (history_url TID)]
     | inl _ => [requests_get players_url]
     end
   else [])
  /\ filter (fun ev => is_tabs ev) (trace (main up TID)) =
     (if isdigit TID then
        match outcome (fetch_players up) with
        | inr _ => [st_tabs ["Transfer History"; "Performance History"];
                    with_tab 0; with_tab 1]
        | inl _ => []
        end
      else []).
Proof.
  destruct (isdigit TID) eqn:Hd.
  - destruct (outcome (fetch_players up)) as [e|players] eqn:Hp.
    + by rewrite (main_directory_failed up TID e Hd Hp).
    + destruct (main_with_directory up TID players Hd Hp)
        as (tr1 & tr2 & r & H1 & H2 & _ & ->).
      unfold trace. simpl.
      repeat (rewrite ?filter_app, ?filter_cons_bool; simpl).
      rewrite !(filter_shown _ tr1 shown_no_request H1), !(filter_shown _ tr2 shown_no_request H2),
        !(filter_shown _ tr1 shown_no_tabs H1), !(filter_shown _ tr2 shown_no_tabs H2).
      by destruct r as [e|[]].
  - destruct TID as [|c s]; [done|].
    by rewrite (main_not_numeric up (String c s)).
Qed.

(** X13.  Under the contract of the library sort: a run of [main] ends
    with the divider and the donation message exactly when it ends without
    an exception, and shows neither of them otherwise, that is, after
    [st.stop()] or after an exception of the history tab; with an empty
    identifier it shows the page top and this footer and nothing else, not
    even the prompt, since the prompt for a Team ID is shown exactly for an
    identifier that is not empty and not all digits. *)
Theorem footer_and_prompt (up : Upstream) (TID : string) :
  (TID = "" -> main up TID = (page_top ++ [st_divider; donate_message], inr tt))
  /\ (outcome (main up TID) = inr tt ->
      exists shown,
        trace (main up TID) = page_top ++ shown ++ [st_divider; donate_message]
        /\ filter (fun ev => is_footer ev) shown = [])
  /\ (outcome (main up TID) <> inr tt ->
      filter (fun ev => is_footer ev) (trace (main up TID)) = [])
  /\ (st_info "Please enter your Team ID to proceed." ∈ trace (main up TID)
      <-> TID <> "" /\ isdigit TID = false).
Proof.
  split; [by intros ->|].
  destruct (isdigit TID) eqn:Hd.
  - assert (Hne : TID <> "") by (by intros ->).
    destruct (outcome (fetch_players up)) as [e|players] eqn:Hp.
    + rewrite (main_directory_failed up TID e Hd Hp). split_and!; try done.
      split; [|by intros [_ ?]]. unfold trace. simpl. intros H.
      repeat (apply elem_of_cons in H as [H|H]; [discriminate H|]).
      by apply elem_of_nil in H.
    + destruct (main_with_directory up TID players Hd Hp)
        as (tr1 & tr2 & r & H1 & H2 & _ & ->).
      unfold trace, outcome. simpl. split_and!.
      * destruct r as [e|[]]; [done|]. intros _.
        eexists (_ :: _ :: _ :: _ :: _ :: _ :: tr1 ++ _ :: _ :: _ :: tr2). split.
        -- simpl. by rewrite <- app_assoc.
        -- repeat (rewrite ?filter_app, ?filter_cons_bool; simpl).
           by rewrite (filter_shown _ tr1 shown_no_footer H1),
             (filter_shown _ tr2 shown_no_footer H2).
      * destruct r as [e|[]]; [|done]. intros _.
        repeat (rewrite ?filter_app, ?filter_cons_bool; simpl).
        by rewrite (filter_shown _ tr1 shown_no_footer H1),
          (filter_shown _ tr2 shown_no_footer H2).
      * split; [|by intros [_ ?]]. intros H.
        repeat (apply elem_of_cons in H as [H|H]; [discriminate H|]).
        apply elem_of_app in H as [H|H]; [by apply (not_shown _ tr1) in H|].
        repeat (apply elem_of_cons in H as [H|H]; [discriminate H|]).
        apply elem_of_app in H as [H|H]; [by apply (not_shown _ tr2) in H|].
        destruct r as [e|[]]; [by apply elem_of_nil in H|].
        repeat (apply elem_of_cons in H as [H|H]; [discriminate H|]).
        by apply elem_of_nil in H.
  - destruct TID as [|c s].
    + rewrite main_empty. split_and!; try done.
      * intros _. by exists [].
      * split; [|by intros [? _]]. unfold trace. simpl. intros H.
        repeat (apply elem_of_cons in H as [H|H]; [discriminate H|]).
        by apply elem_of_nil in H.
    + rewrite (main_not_numeric up (String c s)) by done. split_and!; try done.
      * intros _. by exists [st_info "Please enter your Team ID to proceed."].
      * split; [done|]. intros _. unfold trace. simpl. find_event.
Qed.

End MainRuns.

Lemma main_requests_by_input_witness :
  filter (fun ev => is_request ev) (trace (@main stable_library upstream_ok "7108828"))
  = [requests_get players_url; requests_get (transfers_url "7108828");
     requests_get (history_url "7108828")].
Proof.
  exact (proj1 (@main_requests_by_input stable_library stable_library_contract
                  upstream_ok "7108828")).
Defined.

Lemma footer_and_prompt_witness :
  filter (fun ev => is_footer ev) (trace (@main stable_library upstream_mixed "7108828"))
  = [].
Proof.
  apply (@footer_and_prompt stable_library stable_library_contract upstream_mixed
           "7108828").
  vm_compute. discriminate.
Defined.

Section OneOrder.

#[local] Instance numeric_le_trans : Transitive numeric_le.
Proof. intros [| | |] [| | |] [| | |]; simpl; try done; lia. Qed.

#[local] Instance numeric_le_antisym : AntiSymm eq numeric_le.
Proof. intros [| | |] [| | |]; simpl; try done; intros; f_equal; lia. Qed.

Lemma Sorted_on {A} (P : A -> Prop) (R R' : A -> A -> Prop) (l : list A) :
  (forall a b, P a -> P b -> R a b -> R' a b) ->
  Forall P l -> Sorted R l -> Sorted R' l.
Proof.
  intros HR HP. induction 1 as [|x l Hs IH Hh]; [constructor|].
  apply Forall_cons in HP as [Hx Hl]. constructor; [auto|].
  destruct Hh as [|y l' Hxy]; constructor.
  apply Forall_cons in Hl as [Hy _]. auto.
Qed.

Lemma map_inj_on {A B} (P : A -> Prop) (f : A -> B) (l1 l2 : list A) :
  (forall a b, P a -> P b -> f a = f b -> a = b) ->
  Forall P l1 -> Forall P l2 -> map f l1 = map f l2 -> l1 = l2.
Proof.
  intros Hf H1. revert l2. induction H1 as [|x l1 Hx _ IH]; intros [|y l2] H2 Heq;
    try done.
  apply Forall_cons in H2 as [Hy H2]. simpl in Heq. injection Heq as Hxy Heq.
  f_equal; auto.
Qed.

(** On keys that are pairwise distinct, all integers or all times, the
    contract leaves one indexer only. *)
Lemma sorted_indexer_unique (L : Library) (keys : list value) (p : list nat) :
  argsort_contract L ->
  comparableb keys = true ->
  Forall (fun v => numeric v = true) keys ->
  NoDup keys ->
  Permutation p (seq 0 (length keys)) ->
  Sorted (fun a b => value_leb a b = true) (map (fun i => nth i keys VNull) p) ->
  @np_argsort L keys = p.
Proof.
  intros C Hc Hnum Hnd P2 S2. destruct (C keys Hc) as [P1 S1].
  assert (Hon : forall p, Permutation p (seq 0 (length keys)) ->
            Sorted (fun a b => value_leb a b = true) (map (fun i => nth i keys VNull) p) ->
            Sorted numeric_le (map (fun i => nth i keys VNull) p)).
  { intros q Hq Hs.
    apply (Sorted_on (fun v => v ∈ keys) (fun a b => value_leb a b = true)); [| |done].
    - intros a b Ha Hb Hab.
      assert (Hk : same_kind a b = true).
      { destruct keys as [|k0 keys']; [by apply elem_of_nil in Ha|].
        unfold comparableb in Hc. rewrite forallb_forall in Hc.
        apply (same_kind_trans k0); apply Hc; by apply list_elem_of_In. }
      rewrite Forall_forall in Hnum.
      pose proof (Hnum a Ha). pose proof (Hnum b Hb).
      destruct a, b; simpl in *; try done; by apply Z.leb_le.
    - apply Forall_forall. intros v Hv.
      by rewrite (permuted_indices keys VNull q Hq) in Hv. }
  assert (Heq : map (fun i => nth i keys VNull) (@np_argsort L keys)
                = map (fun i => nth i keys VNull) p).
  { apply (Sorted_unique numeric_le); [by apply Hon | by apply Hon |].
    rewrite (permuted_indices keys VNull _ P1).
    by rewrite (permuted_indices keys VNull _ P2). }
  apply (map_inj_on (fun i => (i < length keys)%nat) (fun i => nth i keys VNull));
    [|by apply indices_in_range | by apply indices_in_range | done].
  intros i j Hi Hj Hij. apply NoDup_ListNoDup in Hnd.
  by apply (proj1 (NoDup_nth keys VNull) Hnd i j).
Qed.

(** Two sorts that meet the contract agree on such keys. *)
Lemma argsort_unique (L1 L2 : Library) (keys : list value) :
  argsort_contract L1 -> argsort_contract L2 ->
  comparableb keys = true ->
  Forall (fun v => numeric v = true) keys ->
  NoDup keys ->
  @np_argsort L1 keys = @np_argsort L2 keys.
Proof.
  intros C1 C2 Hc Hnum Hnd. destruct (C2 keys Hc) as [P2 S2].
  by apply sorted_indexer_unique.
Qed.

Lemma non_null_numeric k (items : list value) :
  numeric k = true ->
  Forall (fun v => isna v = true \/ same_kind k v = true) items ->
  Forall (fun v => numeric v = true) (non_null items).
Proof.
  intros Hk H. apply Forall_forall. intros v Hv.
  apply elem_of_non_null in Hv as [Hv Hna]. rewrite Forall_forall in H.
  destruct (H v Hv) as [?|Hkv]; [congruence|]. by destruct k, v.
Qed.

Lemma nargsort_independent (L1 L2 : Library) k ascending (items : list value) :
  argsort_contract L1 -> argsort_contract L2 ->
  numeric k = true ->
  Forall (fun v => isna v = true \/ same_kind k v = true) items ->
  NoDup (non_null items) ->
  @nargsort L1 ascending items = @nargsort L2 ascending items.
Proof.
  intros C1 C2 Hk Hkind Hnd. unfold nargsort. cbv zeta.
  set (nn := filter (fun i => negb (isna (nth i items VNull))) (seq 0 (length items))).
  set (keys := map (fun i => nth i items VNull) (if ascending then nn else rev nn)).
  assert (Hkeys : keys = if ascending then non_null items else rev (non_null items)).
  { subst keys nn. destruct ascending; [apply non_null_positions|].
    by rewrite map_rev, non_null_positions. }
  pose proof (non_null_numeric k items Hk Hkind) as Hnum.
  destruct (comparableb keys) eqn:Hc; [|done].
  rewrite (argsort_unique L1 L2 keys C1 C2 Hc); [done| |]; rewrite Hkeys;
    destruct ascending; try done.
  - by apply Forall_rev.
  - by rewrite <- (Permutation_rev (non_null items)).
Qed.

Lemma sort_values_independent (L1 L2 : Library) k label ascending d :
  argsort_contract L1 -> argsort_contract L2 ->
  NoDup (columns d) ->
  numeric k = true ->
  Forall (fun v => isna v = true \/ same_kind k v = true) (column label d) ->
  NoDup (non_null (column label d)) ->
  @sort_values L1 label ascending d = @sort_values L2 label ascending d.
Proof.
  intros C1 C2 Hnd Hk Hkind Hdistinct. unfold column in *.
  destruct (assoc label (cols d)) as [keys|] eqn:Ha.
  - rewrite !(sort_values_unique _ _ _ keys Hnd Ha).
    by rewrite (nargsort_independent L1 L2 k ascending keys).
  - by rewrite !sort_values_missing.
Qed.

Lemma to_datetime_same_parser (L1 L2 : Library) errors (s : list value) :
  (forall x, @parse_datetime L1 x = @parse_datetime L2 x) ->
  @to_datetime L1 errors s = @to_datetime L2 errors s.
Proof.
  intros Hp. induction s as [|v s IH]; simpl; [done|]. rewrite IH.
  destruct v as [| |x|]; simpl; try done. by rewrite Hp.
Qed.

End OneOrder.

Section OneOrderTheorem.

Lemma coerce_cell_same_parser (L1 L2 : Library) (v : value) :
  (forall x, @parse_datetime L1 x = @parse_datetime L2 x) ->
  @coerce_cell L1 v = @coerce_cell L2 v.
Proof.
  intros Hp. unfold coerce_cell. destruct v as [| |x|]; simpl; try done. by rewrite Hp.
Qed.

(** X14.  For two library sorts that both meet the contract: on a table
    with distinct labels and columns of equal length whose gameweeks,
    apart from nulls, are pairwise distinct integers, the sort of the
    history tab and the two line plots give the same result with either
    sort; and when the two libraries also read time stamps alike, so does
    the sort of the transfers tab on a table whose transfer times, apart
    from nulls, are pairwise distinct.  Without equal keys the order of
    the rows does not depend on the sorting algorithm. *)
Theorem distinct_keys_fix_order (L1 L2 : Library) :
  argsort_contract L1 -> argsort_contract L2 ->
  (forall history_data,
     wf history_data ->
     Forall (fun v => isna v = true \/ same_kind (VInt 0) v = true)
            (column "Gameweek" history_data) ->
     NoDup (filter (fun v => negb (isna v)) (column "Gameweek" history_data)) ->
     @sort_history L1 history_data = @sort_history L2 history_data
     /\ @plot_total_points_over_weeks L1 history_data
        = @plot_total_points_over_weeks L2 history_data
     /\ @plot_rank_over_weeks L1 history_data = @plot_rank_over_weeks L2 history_data)
  /\ (forall transfers_data,
        wf transfers_data ->
        (forall s, @parse_datetime L1 s = @parse_datetime L2 s) ->
        NoDup (filter (fun v => negb (isna v))
                      (map (@coerce_cell L1) (column "Transfer Time" transfers_data))) ->
        @sort_transfers L1 transfers_data = @sort_transfers L2 transfers_data).
Proof.
  intros C1 C2. split.
  - intros d [Hnd _] Hkind Hdistinct.
    pose proof (sort_values_independent L1 L2 (VInt 0) "Gameweek" true d C1 C2 Hnd
                  eq_refl Hkind Hdistinct) as Hsort.
    unfold sort_history, plot_total_points_over_weeks, plot_rank_over_weeks.
    by rewrite Hsort.
  - intros d Hwf Hp Hdistinct. unfold sort_transfers.
    destruct (has_column "Transfer Time" d) eqn:Hc; [|run; by rewrite Hc].
    destruct (get_column_ok "Transfer Time" d) as (s & Hg & Ha);
      [by apply has_column_spec|].
    rewrite Hg. run. rewrite !to_datetime_coerce. simpl.
    unfold column in Hdistinct. rewrite Ha in Hdistinct. simpl in Hdistinct.
    assert (Hsame : map (@coerce_cell L2) s = map (@coerce_cell L1) s).
    { apply map_ext. intros v. symmetry. by apply coerce_cell_same_parser. }
    rewrite Hsame.
    set (d1 := set_column "Transfer Time" (map (@coerce_cell L1) s) d).
    assert (Ha1 : assoc "Transfer Time" (cols d1) = Some (map (@coerce_cell L1) s))
      by apply assoc_set_column_eq.
    assert (Hwf1 : wf d1).
    { apply wf_set_column; [done|]. rewrite length_map.
      by apply (wf_column_length "Transfer Time"). }
    rewrite (sort_values_independent L1 L2 (VTime 0) "Transfer Time" false d1 C1 C2
               (proj1 Hwf1) eq_refl); [done| |].
    + unfold column. rewrite Ha1. simpl. apply Forall_map, Forall_forall.
      intros v _. apply coerce_cell_kind.
    + unfold column. by rewrite Ha1.
Qed.

Lemma distinct_keys_fix_order_witness :
  @sort_history stable_library three_gameweeks
  = @sort_history reversing_library three_gameweeks.
Proof.
  apply (proj1 (distinct_keys_fix_order stable_library reversing_library
                  stable_library_contract reversing_library_contract)
           three_gameweeks).
  - split; by_decide.
  - repeat constructor; right; reflexivity.
  - by_decide.
Defined.

End OneOrderTheorem.

Section ChartOfTheTable.
Context {L : Library}.
Hypothesis contract : argsort_contract L.

Lemma filter_all {A} (P : A -> Prop) `{forall x, Decision (P x)} (l : list A) :
  Forall P l -> filter P l = l.
Proof.
  induction 1 as [|x l Hx _ IH]; [done|]. by rewrite filter_cons_True, IH.
Qed.

Lemma filter_none {A} (P : A -> Prop) `{forall x, Decision (P x)} (l : list A) :
  Forall (fun x => ~ P x) l -> filter P l = [].
Proof.
  induction 1 as [|x l Hx _ IH]; [done|]. by rewrite filter_cons_False.
Qed.

Lemma nth_null_tail (ks : list value) m i :
  (length ks <= i)%nat -> nth i (ks ++ repeat VNull m) VNull = VNull.
Proof.
  intros Hi. rewrite app_nth2 by lia.
  destruct (decide (i - length ks < m)%nat).
  - by apply nth_repeat_lt.
  - apply nth_overflow. rewrite repeat_length. lia.
Qed.

(** Sorting a column that is sorted already, with distinct keys, moves
    nothing. *)
Lemma nargsort_sorted_input (ks : list value) m :
  Forall (fun v => isna v = false) ks ->
  Forall (fun v => numeric v = true) ks ->
  comparableb ks = true ->
  NoDup ks ->
  Sorted (fun a b => value_leb a b = true) ks ->
  nargsort true (ks ++ repeat VNull m) = inr (seq 0 (length ks + m)).
Proof.
  intros Hnn Hnum Hc Hnd Hs. unfold nargsort. cbv zeta.
  rewrite length_app, repeat_length, seq_app, !filter_app. simpl.
  assert (Hlow : Forall (fun i => isna (nth i (ks ++ repeat VNull m) VNull) = false)
                        (seq 0 (length ks))).
  { apply Forall_forall. intros i Hi. apply elem_of_seq in Hi.
    rewrite app_nth1 by lia. rewrite Forall_forall in Hnn. apply Hnn.
    apply list_elem_of_In, nth_In. lia. }
  assert (Hhigh : Forall (fun i => isna (nth i (ks ++ repeat VNull m) VNull) = true)
                         (seq (length ks) m)).
  { apply Forall_forall. intros i Hi. apply elem_of_seq in Hi.
    rewrite nth_null_tail by lia. done. }
  rewrite (filter_all _ (seq 0 (length ks)))
    by (eapply Forall_impl; [exact Hlow|]; intros i Hi; simpl in Hi; by rewrite Hi).
  rewrite (filter_none (fun i => negb (isna (nth i (ks ++ repeat VNull m) VNull)))
                       (seq (length ks) m))
    by (eapply Forall_impl; [exact Hhigh|]; intros i Hi; simpl in Hi; rewrite Hi;
        simpl; tauto).
  rewrite (filter_none (fun i => isna (nth i (ks ++ repeat VNull m) VNull))
                       (seq 0 (length ks)))
    by (eapply Forall_impl; [exact Hlow|]; intros i Hi; simpl in Hi; rewrite Hi;
        simpl; tauto).
  rewrite (filter_all (fun i => isna (nth i (ks ++ repeat VNull m) VNull))
                      (seq (length ks) m))
    by (eapply Forall_impl; [exact Hhigh|]; intros i Hi; simpl in Hi; by rewrite Hi).
  rewrite app_nil_r. simpl.
  assert (Hread : map (fun i => nth i (ks ++ repeat VNull m) VNull) (seq 0 (length ks)) = ks).
  { rewrite <- (map_nth_seq ks VNull) at 2. apply map_ext_in. intros i Hi.
    apply in_seq in Hi. apply app_nth1. lia. }
  rewrite Hread, Hc.
  rewrite (sorted_indexer_unique L ks (seq 0 (length ks)) contract Hc Hnum Hnd);
    [|done|by rewrite map_nth_seq].
  pose proof (map_nth_seq (seq 0 (length ks)) 0%nat) as Hid.
  rewrite length_seq in Hid. by rewrite Hid.
Qed.

Lemma take_all d : wf d -> take (seq 0 (nrows d)) d = d.
Proof.
  intros [_ Hlen]. destruct d as [n cs]. unfold take. simpl in *.
  rewrite length_seq. f_equal.
  induction Hlen as [|[c s] l Hs _ IH]; [done|]. simpl in *.
  rewrite IH. do 2 f_equal. rewrite <- Hs. apply map_nth_seq.
Qed.

Lemma sort_values_sorted_input d ks m :
  wf d ->
  assoc "Gameweek" (cols d) = Some (ks ++ repeat VNull m) ->
  Forall (fun v => isna v = false) ks ->
  Forall (fun v => same_kind (VInt 0) v = true) ks ->
  NoDup ks ->
  Sorted (fun a b => value_leb a b = true) ks ->
  sort_values "Gameweek" true d = inr d.
Proof.
  intros Hwf Ha Hnn Hkind Hnd Hs.
  rewrite (sort_values_unique _ _ _ _ (proj1 Hwf) Ha).
  rewrite nargsort_sorted_input; try done.
  - simpl. pose proof (wf_column_length _ _ _ Hwf Ha) as Hlen.
    rewrite length_app, repeat_length in Hlen. rewrite Hlen. by rewrite take_all.
  - eapply Forall_impl; [exact Hkind|]. intros v Hv. by destruct v.
  - by apply (comparableb_of_kind (VInt 0)).
Qed.

(** X15.  Under the contract of the library sort: when the gameweeks of
    the history table are integers or null and those that are integers are
    pairwise distinct, the table that either line plot draws is the very
    table the tab has sorted and shown: sorting it again by Gameweek moves
    no row. *)
Theorem line_charts_plot_the_table_shown (history_data shaped : DataFrame) :
  wf history_data ->
  Forall (fun v => isna v = true \/ same_kind (VInt 0) v = true)
         (column "Gameweek" history_data) ->
  NoDup (filter (fun v => negb (isna v)) (column "Gameweek" history_data)) ->
  outcome (sort_history history_data) = inr shaped ->
  (has_column "Gameweek" shaped && has_column "Total Points" shaped = true ->
   plot_total_points_over_weeks shaped =
   ([st_plotly_chart (px_line "Total Points Over Gameweeks" "Gameweek" "Total Points"
                              shaped false)], inr tt))
  /\ (has_column "Gameweek" shaped && has_column "Rank" shaped = true ->
      plot_rank_over_weeks shaped =
      ([st_plotly_chart (px_line "Rank Over Gameweeks" "Gameweek" "Rank" shaped true)],
       inr tt)).
Proof.
  intros Hwf Hkind Hdistinct Hsort.
  assert (Hagain : has_column "Gameweek" shaped = true ->
            sort_values "Gameweek" true shaped = inr shaped).
  { intros Hc. unfold sort_history in Hsort.
    destruct (has_column "Gameweek" history_data) eqn:Hc0.
    - unfold outcome in Hsort. simpl in Hsort.
      pose proof (sort_values_unfold _ _ _ _ Hsort) as (keys0 & idx & _ & _ & Htake).
      destruct (sort_step_inv contract _ _ _ _ Hwf Hsort)
        as (keys & sorted_keys & Ha & _ & Hget & Hperm & ks & m & -> & Hnn & Hs).
      apply get_column_assoc in Hget.
      unfold column in Hkind, Hdistinct. rewrite Ha in Hkind, Hdistinct.
      simpl in Hkind, Hdistinct.
      assert (Hin : forall v, v ∈ ks -> v ∈ keys).
      { intros v Hv. rewrite <- Hperm. apply elem_of_app. by left. }
      apply (sort_values_sorted_input shaped ks m); try done.
      + subst shaped. apply wf_take, Hwf.
      + apply Forall_forall. intros v Hv. rewrite Forall_forall in Hkind, Hnn.
        destruct (Hkind v (Hin v Hv)) as [Hna|?]; [|done]. by rewrite (Hnn v Hv) in Hna.
      + assert (Hks : filter (fun v => negb (isna v)) (ks ++ repeat VNull m) = ks).
        { rewrite filter_app. rewrite (filter_all _ ks).
          - rewrite (filter_none _ (repeat VNull m)); [by rewrite app_nil_r|].
            apply Forall_forall. intros v Hv. apply list_elem_of_In, repeat_spec in Hv.
            subst v. simpl. tauto.
          - eapply Forall_impl; [exact Hnn|]. intros v Hv. simpl in Hv. by rewrite Hv. }
        rewrite <- Hks, Hperm. done.
    - unfold outcome in Hsort. simpl in Hsort. injection Hsort as <-. congruence. }
  split; intros Hc; apply andb_true_iff in Hc as [Hg Hv].
  - unfold plot_total_points_over_weeks. rewrite Hg, Hv, (Hagain Hg). by run.
  - unfold plot_rank_over_weeks. rewrite Hg, Hv, (Hagain Hg). by run.
Qed.

End ChartOfTheTable.

Lemma line_charts_plot_the_table_shown_witness :
  @plot_rank_over_weeks stable_library
    (frame_of (outcome (@sort_history stable_library three_gameweeks)))
  = ([st_plotly_chart
        (px_line "Rank Over Gameweeks" "Gameweek" "Rank"
           (frame_of (outcome (@sort_history stable_library three_gameweeks))) true)],
     inr tt).
Proof.
  apply (@line_charts_plot_the_table_shown stable_library stable_library_contract
           three_gameweeks
           (frame_of (outcome (@sort_history stable_library three_gameweeks)))).
  - split; by_decide.
  - repeat constructor; right; reflexivity.
  - by_decide.
  - reflexivity.
  - reflexivity.
Defined.

Section ShownHistory.
Context {L : Library}.
Hypothesis contract : argsort_contract L.


End ShownHistory.


(** * The further theorems at sample inputs *)
Section MoreWitnesses.

Lemma directory_maps_ids_to_names_witness :
  exists player_id_to_name,
    outcome (fetch_players upstream_ok) = inr player_id_to_name
    /\ player_id_to_name !! VInt 2 = Some (VStr "Haaland").
Proof.
  eexists. split; [reflexivity|].
  destruct (directory_maps_ids_to_names upstream_ok _ eq_refl)
    as (status & reason & players_data & players & Ho & He & _ & Hlast).
  injection Ho as <- <- <-. injection He as <-.
  apply (Hlast [[("id", VInt 1); ("web_name", VStr "Salah")]]
               [("id", VInt 2); ("web_name", VStr "Haaland")]
               [[("id", VInt 3); ("web_name", VStr "Saka")]]);
    [reflexivity | reflexivity | reflexivity |].
  intros later Hin. apply list_elem_of_singleton in Hin. subst later. discriminate.
Defined.





End MoreWitnesses.
